(** * Typir: kinds, relation services, inference and overload bookkeeping

    A shallow embedding of the type-system engine.  Objects of the
    TypeScript sources are modelled as immutable values that carry an
    explicit object reference ([ref]); JavaScript's [===] on objects is
    equality of references.  Mutable services (graph, rule registries,
    the overload map of the function kind) are threaded explicitly. *)

From stdpp Require Import gmap strings list.

Set Warnings "-register-all".
Open Scope list_scope.

(** ** Utilities (utils.ts) *)

(** A value of TypeScript type [T | T[]]. *)
Inductive Multiple (A : Type) : Type :=
| Single (value : A)
| Array (values : list A).
Arguments Single {A} value.
Arguments Array {A} values.

(** [toArray(value: T | T[] | undefined): T[]]. *)
Definition toArray {A : Type} (value : option (Multiple A)) : list A :=
  match value with
  | None => []
  | Some (Single v) => [v]
  | Some (Array vs) => vs
  end.

(** Results of code that may raise a JavaScript [Error]. *)
Inductive Completion (A : Type) : Type :=
| Returned (value : A)
| Thrown (message : string).
Arguments Returned {A} value.
Arguments Thrown {A} message.

(** [Array.prototype.join]. *)
Definition join (separator : string) (parts : list string) : string :=
  String.concat separator parts.

(** ** Kinds and type nodes *)

Inductive TypeCheckStrategy : Set :=
| EQUAL_TYPE
| ASSIGNABLE_TYPE
| SUB_TYPE.

(** [class Parameter] (the name [Parameter] is reserved in Rocq). *)
Record KindParameter : Set := mkParameter {
  parameter_name : string;
  parameter_index : nat
}.

Record FixedParameterKindOptions : Set := mkFixedParameterKindOptions {
  parameterSubtypeCheckingStrategy : TypeCheckStrategy
}.

(** The fields of [class FixedParameterKind] (part_001); [$name] is
    derived from [baseName], see [kindName]. *)
Record FixedParameterKind : Set := mkFixedParameterKind {
  baseName : string;
  options : FixedParameterKindOptions;
  parameters : list KindParameter
}.

Record BottomKindOptions : Set := mkBottomKindOptions {
  bottom_name : string
}.

Inductive Kind : Set :=
| KPrimitive
| KBottom
| KFunction
| KFixedParameter (kind : FixedParameterKind).

Definition FixedParameterKindName : string := "FixedParameterKind".
Definition BottomKindName : string := "BottomKind".

(** [kind.$name]. *)
Definition kindName (k : Kind) : string :=
  match k with
  | KPrimitive => "PrimitiveKind"
  | KBottom => BottomKindName
  | KFunction => "FunctionKind"
  | KFixedParameter fk => FixedParameterKindName +:+ "-" +:+ baseName fk
  end.

(** A type node.  [ref] is the identity of the JavaScript object.
    A [FixedParameterType] carries the parameter types that its
    [getParameterTypes] reads from [parameterValues]; a
    [FunctionType] stores its name, output type and input types. *)
Inductive TypeNode : Type :=
| PrimitiveType (ref : nat) (identifier : string)
| BottomType (ref : nat) (identifier : string)
| FixedParameterType (ref : nat) (kind : FixedParameterKind)
    (identifier : string) (typeValues : list TypeNode)
| FunctionType (ref : nat) (identifier : string) (functionName : string)
    (outputParameter : option TypeNode) (inputParameters : list TypeNode).

Definition ref (t : TypeNode) : nat :=
  match t with
  | PrimitiveType r _ | BottomType r _ | FixedParameterType r _ _ _
  | FunctionType r _ _ _ _ => r
  end.

Definition getIdentifier (t : TypeNode) : string :=
  match t with
  | PrimitiveType _ i | BottomType _ i | FixedParameterType _ _ i _
  | FunctionType _ i _ _ _ => i
  end.

Definition kindOf (t : TypeNode) : Kind :=
  match t with
  | PrimitiveType _ _ => KPrimitive
  | BottomType _ _ => KBottom
  | FixedParameterType _ k _ _ => KFixedParameter k
  | FunctionType _ _ _ _ _ => KFunction
  end.

(** [a === b] on type objects. *)
Definition sameObject (a b : TypeNode) : bool := Nat.eqb (ref a) (ref b).

(** [isFixedParametersKind]: the kind's [$name] starts with
    ['FixedParameterKind-']. *)
Definition isFixedParametersKind (k : Kind) : bool :=
  String.prefix "FixedParameterKind-" (kindName k).

Definition isFixedParameterType (t : TypeNode) : bool :=
  isFixedParametersKind (kindOf t).

Definition isBottomKind (k : Kind) : bool :=
  String.eqb (kindName k) BottomKindName.

Definition isBottomType (t : TypeNode) : bool := isBottomKind (kindOf t).

(** ** Problems (values, never exceptions) *)

Inductive TypirProblem : Type :=
| ValueConflict (firstValue secondValue location : string)
| KindConflict (first second : TypeNode)
| IndexedTypeConflict (expected actual : option TypeNode)
    (propertyIndex : nat) (subProblems : list TypirProblem)
| TypeEqualityProblem (type1 type2 : TypeNode)
    (subProblems : list TypirProblem)
| SubTypeProblem (superType subType : TypeNode)
    (subProblems : list TypirProblem)
| AssignabilityProblem (source target : TypeNode)
    (subProblems : list TypirProblem)
| InitializationError (message : string)
| AmbiguousOverload (candidates : list TypeNode).

Definition isSubTypeProblem (p : TypirProblem) : bool :=
  match p with SubTypeProblem _ _ _ => true | _ => false end.

Definition isKindConflict (p : TypirProblem) : bool :=
  match p with KindConflict _ _ => true | _ => false end.

Definition subProblemsOf (p : TypirProblem) : list TypirProblem :=
  match p with
  | IndexedTypeConflict _ _ _ ps | TypeEqualityProblem _ _ ps
  | SubTypeProblem _ _ ps | AssignabilityProblem _ _ ps => ps
  | _ => []
  end.

(** The services a kind reaches through [this.kind.typir]. *)
Record Typir : Type := mkTypir {
  equality_getTypeEqualityProblem :
    TypeNode -> TypeNode -> option TypirProblem;
  subtype_getSubTypeProblem :
    TypeNode -> TypeNode -> option TypirProblem;
  assignability_getAssignabilityProblem :
    TypeNode -> TypeNode -> option TypirProblem;
  printer_printType : TypeNode -> string
}.

(** ** Comparison helpers (utils-type-comparison.ts) *)

(** Modelled from the spec: utils-type-comparison.ts is not part of the
    sources.  [createKindConflict] yields the [KindConflict] problem of
    the error taxonomy for the two compared types. *)
Definition createKindConflict (first second : TypeNode) : TypirProblem :=
  KindConflict first second.

(** Modelled from the spec: [checkValueForConflict(first, second,
    location)] reports one [ValueConflict] when the two values differ
    and nothing when they are the same. *)
Definition checkValueForConflict (first second location : string)
  : list TypirProblem :=
  if String.eqb first second then []
  else [ValueConflict first second location].

(** Modelled from the spec: the conflicts for positions [i, i+1, ...] that
    exist on the right side only. *)
Fixpoint missingOnTheLeft (i : nat) (right : list TypeNode)
  : list TypirProblem :=
  match right with
  | [] => []
  | r :: right' =>
      IndexedTypeConflict None (Some r) i [] :: missingOnTheLeft (S i) right'
  end.

(** Modelled from the spec: [checkTypes(left, right, relationToCheck)]
    compares two arrays of types position by position ("pair-wise");
    a failed position yields an [IndexedTypeConflict] carrying the
    relation's problem, and a position present on one side only yields
    an [IndexedTypeConflict] as well. *)
Definition checkTypesFrom
  (relationToCheck : TypeNode -> TypeNode -> option TypirProblem)
  : nat -> list TypeNode -> list TypeNode -> list TypirProblem :=
  fix go (i : nat) (left right : list TypeNode) {struct left}
    : list TypirProblem :=
    match left with
    | [] => missingOnTheLeft i right
    | l :: left' =>
        match right with
        | [] => IndexedTypeConflict (Some l) None i [] :: go (S i) left' []
        | r :: right' =>
            match relationToCheck l r with
            | Some p => IndexedTypeConflict (Some l) (Some r) i [p]
                        :: go (S i) left' right'
            | None => go (S i) left' right'
            end
        end
    end.

(** Modelled from the spec: [checkTypes] from the first position on. *)
Definition checkTypes (left right : list TypeNode)
  (relationToCheck : TypeNode -> TypeNode -> option TypirProblem)
  : list TypirProblem :=
  checkTypesFrom relationToCheck 0 left right.

(** Modelled from the spec: [createTypeCheckStrategy] selects the
    relation service named by the strategy: [EQUAL_TYPE] is equality,
    [SUB_TYPE] is the subtype relation, [ASSIGNABLE_TYPE] is
    assignability. *)
Definition createTypeCheckStrategy (strategy : TypeCheckStrategy)
  (typir : Typir) : TypeNode -> TypeNode -> option TypirProblem :=
  match strategy with
  | ASSIGNABLE_TYPE => assignability_getAssignabilityProblem typir
  | EQUAL_TYPE => equality_getTypeEqualityProblem typir
  | SUB_TYPE => subtype_getSubTypeProblem typir
  end.

(** ** [FixedParameterType] and [FixedParameterKind] (part_001)

    A method of [class FixedParameterType] receives the fields of
    [this] ([kind] and the stored parameter types); a type guard such as
    [isFixedParameterType(otherType)] followed by accesses to
    [otherType.kind] is a match on the node. *)

(** The constructor of [FixedParameterType].  It asserts that the kind
    has as many parameters as types are given and then pushes one
    parameter value for each given type onto [this.parameterValues].
    The class declares that field without an initializer and nothing
    assigns it, so the first [push] raises a [TypeError]; the loop
    passes without a [push] only when no type is given, and the object
    is then left without its array of parameter values. *)
Definition newFixedParameterType (r : nat) (kind : FixedParameterKind)
  (identifier : string) (typeValues : list TypeNode) : Completion TypeNode :=
  if Nat.eqb (length (parameters kind)) (length typeValues)
  then
    match typeValues with
    | [] => Returned (FixedParameterType r kind identifier [])
    | _ :: _ => Thrown "TypeError"
    end
  else Thrown "assertTrue".

(** [FixedParameterKind.printSignature]. *)
Definition printSignature (typir : Typir) (baseName : string)
  (parameterTypes : list TypeNode) : string :=
  baseName +:+ "<"
  +:+ join ", " (map (printer_printType typir) parameterTypes) +:+ ">".

Record FixedParameterTypeDetails : Type := mkFixedParameterTypeDetails {
  parameterTypes : Multiple TypeNode
}.

(** [FixedParameterKind.calculateIdentifier]. *)
Definition calculateIdentifier (typir : Typir) (kind : FixedParameterKind)
  (typeDetails : FixedParameterTypeDetails) : string :=
  printSignature typir (baseName kind)
    (toArray (Some (parameterTypes typeDetails))).

(** [FixedParameterType.analyzeTypeEqualityProblems]. *)
Definition FixedParameterType_analyzeTypeEqualityProblems (typir : Typir)
  (this otherType : TypeNode) : list TypirProblem :=
  match this with
  | FixedParameterType _ kind _ typeValues =>
      match otherType with
      | FixedParameterType _ otherKind _ otherValues =>
          let baseTypeCheck :=
            checkValueForConflict (baseName kind) (baseName otherKind)
              "base type" in
          if Nat.leb 1 (length baseTypeCheck) then baseTypeCheck
          else checkTypes typeValues otherValues
                 (fun t1 t2 => equality_getTypeEqualityProblem typir t1 t2)
      | _ =>
          [TypeEqualityProblem this otherType
             [createKindConflict this otherType]]
      end
  | _ => []
  end.

(** [FixedParameterType.analyzeSubTypeProblems]; [thisKind] is
    [this.kind], the two types are given by kind and parameter types. *)
Definition FixedParameterType_analyzeSubTypeProblems (typir : Typir)
  (thisKind : FixedParameterKind)
  (subKind : FixedParameterKind) (subValues : list TypeNode)
  (superKind : FixedParameterKind) (superValues : list TypeNode)
  : list TypirProblem :=
  let baseTypeCheck :=
    checkValueForConflict (baseName subKind) (baseName superKind)
      "base type" in
  if Nat.leb 1 (length baseTypeCheck) then baseTypeCheck
  else
    let checkStrategy :=
      createTypeCheckStrategy
        (parameterSubtypeCheckingStrategy (options thisKind)) typir in
    checkTypes subValues superValues checkStrategy.

(** [FixedParameterType.analyzeIsSubTypeOf]. *)
Definition FixedParameterType_analyzeIsSubTypeOf (typir : Typir)
  (this superType : TypeNode) : list TypirProblem :=
  match this with
  | FixedParameterType _ kind _ typeValues =>
      match superType with
      | FixedParameterType _ superKind _ superValues =>
          FixedParameterType_analyzeSubTypeProblems typir kind
            kind typeValues superKind superValues
      | _ =>
          [SubTypeProblem superType this [createKindConflict this superType]]
      end
  | _ => []
  end.

(** [FixedParameterType.analyzeIsSuperTypeOf]. *)
Definition FixedParameterType_analyzeIsSuperTypeOf (typir : Typir)
  (this subType : TypeNode) : list TypirProblem :=
  match this with
  | FixedParameterType _ kind _ typeValues =>
      match subType with
      | FixedParameterType _ subKind _ subValues =>
          FixedParameterType_analyzeSubTypeProblems typir kind
            subKind subValues kind typeValues
      | _ =>
          [SubTypeProblem this subType [createKindConflict subType this]]
      end
  | _ => []
  end.

(** ** [BottomType] analyzers (part_000) *)

Definition BottomType_analyzeTypeEqualityProblems (this otherType : TypeNode)
  : list TypirProblem :=
  if isBottomType otherType then []
  else [TypeEqualityProblem this otherType
          [createKindConflict this otherType]].

Definition BottomType_analyzeIsSubTypeOf (this superType : TypeNode)
  : list TypirProblem := [].

Definition BottomType_analyzeIsSuperTypeOf (this subType : TypeNode)
  : list TypirProblem :=
  if isBottomType subType then []
  else [SubTypeProblem this subType [createKindConflict this subType]].

(** ** Primitive and function types

    Modelled from the spec: the classes PrimitiveType and FunctionType
    are not part of the sources.  A primitive is identified by its name
    and is equal only to itself; it has no subtype relation of its own.
    Functions are equal when outputs and input sequences are equal;
    subtyping between functions is a kind conflict. *)

(** Modelled from the spec: the equality analysis of a primitive type,
    which is identified by its name. *)
Definition PrimitiveType_analyzeTypeEqualityProblems (this otherType : TypeNode)
  : list TypirProblem :=
  match otherType with
  | PrimitiveType _ otherIdentifier =>
      checkValueForConflict (getIdentifier this) otherIdentifier "name"
  | _ => [TypeEqualityProblem this otherType
            [createKindConflict this otherType]]
  end.

(** Modelled from the spec: a primitive has no subtype relation of its
    own: it is below the primitive of the same name only. *)
Definition PrimitiveType_analyzeIsSubTypeOf (this superType : TypeNode)
  : list TypirProblem :=
  match superType with
  | PrimitiveType _ superIdentifier =>
      checkValueForConflict (getIdentifier this) superIdentifier "name"
  | _ => [SubTypeProblem superType this [createKindConflict this superType]]
  end.

(** Modelled from the spec: a primitive has no subtype relation of its
    own: it is above the primitive of the same name only. *)
Definition PrimitiveType_analyzeIsSuperTypeOf (this subType : TypeNode)
  : list TypirProblem :=
  match subType with
  | PrimitiveType _ subIdentifier =>
      checkValueForConflict subIdentifier (getIdentifier this) "name"
  | _ => [SubTypeProblem this subType [createKindConflict subType this]]
  end.

(** Modelled from the spec: functions are equal when their outputs and
    their input sequences are equal. *)
Definition FunctionType_analyzeTypeEqualityProblems (typir : Typir)
  (this otherType : TypeNode) : list TypirProblem :=
  match this with
  | FunctionType _ _ _ output inputs =>
      match otherType with
      | FunctionType _ _ _ otherOutput otherInputs =>
          match output, otherOutput with
          | Some o, Some o' =>
              match equality_getTypeEqualityProblem typir o o' with
              | Some p => [IndexedTypeConflict output otherOutput 0 [p]]
              | None => []
              end
          | None, None => []
          | _, _ => [IndexedTypeConflict output otherOutput 0 []]
          end
          ++ checkTypes inputs otherInputs
               (fun t1 t2 => equality_getTypeEqualityProblem typir t1 t2)
      | _ => [TypeEqualityProblem this otherType
                [createKindConflict this otherType]]
      end
  | _ => []
  end.

(** Modelled from the spec: subtyping between functions is a kind conflict. *)
Definition FunctionType_analyzeIsSubTypeOf (this superType : TypeNode)
  : list TypirProblem :=
  [SubTypeProblem superType this [createKindConflict this superType]].

(** Modelled from the spec: subtyping between functions is a kind conflict. *)
Definition FunctionType_analyzeIsSuperTypeOf (this subType : TypeNode)
  : list TypirProblem :=
  [SubTypeProblem this subType [createKindConflict subType this]].

(** ** Dynamic dispatch of the analyzers on the class of [this] *)

Definition analyzeTypeEqualityProblems (typir : Typir)
  (this otherType : TypeNode) : list TypirProblem :=
  match this with
  | PrimitiveType _ _ =>
      PrimitiveType_analyzeTypeEqualityProblems this otherType
  | BottomType _ _ => BottomType_analyzeTypeEqualityProblems this otherType
  | FixedParameterType _ _ _ _ =>
      FixedParameterType_analyzeTypeEqualityProblems typir this otherType
  | FunctionType _ _ _ _ _ =>
      FunctionType_analyzeTypeEqualityProblems typir this otherType
  end.

Definition analyzeIsSubTypeOf (typir : Typir) (this superType : TypeNode)
  : list TypirProblem :=
  match this with
  | PrimitiveType _ _ => PrimitiveType_analyzeIsSubTypeOf this superType
  | BottomType _ _ => BottomType_analyzeIsSubTypeOf this superType
  | FixedParameterType _ _ _ _ =>
      FixedParameterType_analyzeIsSubTypeOf typir this superType
  | FunctionType _ _ _ _ _ => FunctionType_analyzeIsSubTypeOf this superType
  end.

Definition analyzeIsSuperTypeOf (typir : Typir) (this subType : TypeNode)
  : list TypirProblem :=
  match this with
  | PrimitiveType _ _ => PrimitiveType_analyzeIsSuperTypeOf this subType
  | BottomType _ _ => BottomType_analyzeIsSuperTypeOf this subType
  | FixedParameterType _ _ _ _ =>
      FixedParameterType_analyzeIsSuperTypeOf typir this subType
  | FunctionType _ _ _ _ _ => FunctionType_analyzeIsSuperTypeOf this subType
  end.

(** ** The type graph (type-graph.ts, type-edge.ts)

    Modelled from the spec: the graph is not part of the sources.  Nodes
    are kept in insertion order and are keyed by identifier; edges are
    first-class values labelled by their relation; graph listeners are
    notified of every added type in registration order.  The only graph
    listener among the sources is [BottomType], so a listener is the
    listening bottom type. *)

(** Modelled from the spec: the modes of a conversion edge. *)
Inductive ConversionMode : Set :=
| IMPLICIT_EXPLICIT
| EXPLICIT.

(** Modelled from the spec: the labels of the edges used by the relation
    services. *)
Inductive EdgeRelation : Set :=
| SubTypeEdge
| ConversionEdge (mode : ConversionMode).

(** Modelled from the spec: a directed edge, first-class so that paths can
    be returned. *)
Record TypeEdge : Type := mkTypeEdge {
  edge_from : TypeNode;
  edge_to : TypeNode;
  edge_relation : EdgeRelation
}.

(** Modelled from the spec: the state of the graph: the nodes in insertion
    order (keyed by identifier), the edges in insertion order, the
    listeners in registration order. *)
Record TypeGraph : Type := mkTypeGraph {
  nodes : list TypeNode;
  edges : list TypeEdge;
  listeners : list TypeNode
}.

Definition emptyGraph : TypeGraph := mkTypeGraph [] [] [].

(** Modelled from the spec: [getType(id)], the node with that identifier
    if there is one. *)
Definition getType (g : TypeGraph) (key : string) : option TypeNode :=
  List.find (fun t => String.eqb (getIdentifier t) key) (nodes g).

(** Modelled from the spec: [allTypes()]. *)
Definition getAllRegisteredTypes (g : TypeGraph) : list TypeNode := nodes g.

(** Modelled from the spec: [addEdge(E)]. *)
Definition addEdge (g : TypeGraph) (e : TypeEdge) : TypeGraph :=
  mkTypeGraph (nodes g) (edges g ++ [e]) (listeners g).

(** Modelled from the spec: [addListener(L)]. *)
Definition addListener (g : TypeGraph) (listener : TypeNode) : TypeGraph :=
  mkTypeGraph (nodes g) (edges g) (listeners g ++ [listener]).

(** Modelled from the spec: [removeListener(L)]. *)
Definition removeListener (g : TypeGraph) (listener : TypeNode) : TypeGraph :=
  mkTypeGraph (nodes g) (edges g)
    (List.filter (fun l => negb (sameObject l listener)) (listeners g)).

Definition isSubTypeEdge (e : TypeEdge) : bool :=
  match edge_relation e with SubTypeEdge => true | _ => false end.

Definition isImplicitConversionEdge (e : TypeEdge) : bool :=
  match edge_relation e with
  | ConversionEdge IMPLICIT_EXPLICIT => true
  | _ => false
  end.

(** [outgoing(T, label)]: the edges leaving [t] that satisfy [label],
    in the order in which they were added. *)
Definition outgoing (g : TypeGraph) (label : TypeEdge -> bool) (t : TypeNode)
  : list TypeEdge :=
  List.filter (fun e => sameObject (edge_from e) t && label e) (edges g).

(** *** Breadth-first path search

    Modelled from the spec: a search by levels from the start node; the
    first reached target wins, so the path found is a shortest one.  A
    frontier entry is a reached node with the path that reached it.  The
    number of levels is capped by [maxPathLength]. *)

(** Modelled from the spec: an entry of the search frontier. *)
Definition PathItem : Type := TypeNode * list TypeEdge.

(** Modelled from the spec: the outcome of a path search. *)
Inductive PathSearch : Type :=
| PathFound (path : list TypeEdge)
| PathNotFound (frontier : list PathItem).

Definition wasVisited (visited : list nat) (t : TypeNode) : bool :=
  existsb (Nat.eqb (ref t)) visited.

(** Modelled from the spec: the nodes reached from one node by the given
    steps, skipping the visited ones. *)
Fixpoint expandNode (steps : list TypeEdge) (path : list TypeEdge)
  (visited : list nat) : list PathItem * list nat :=
  match steps with
  | [] => ([], visited)
  | e :: rest =>
      if wasVisited visited (edge_to e) then expandNode rest path visited
      else
        let '(items, visited') :=
          expandNode rest path (ref (edge_to e) :: visited) in
        ((edge_to e, path ++ [e]) :: items, visited')
  end.

(** Modelled from the spec: the next level of the search. *)
Fixpoint expandFrontier (next : TypeNode -> list TypeEdge)
  (frontier : list PathItem) (visited : list nat)
  : list PathItem * list nat :=
  match frontier with
  | [] => ([], visited)
  | (n, path) :: rest =>
      let '(items, visited1) := expandNode (next n) path visited in
      let '(items', visited2) := expandFrontier next rest visited1 in
      (items ++ items', visited2)
  end.

(** Modelled from the spec: the search by levels; the first reached target
    wins. *)
Fixpoint searchPath (maxPathLength : nat) (next : TypeNode -> list TypeEdge)
  (target : TypeNode) (frontier : list PathItem) (visited : list nat)
  : PathSearch :=
  match List.find (fun item => sameObject (fst item) target) frontier with
  | Some item => PathFound (snd item)
  | None =>
      match maxPathLength with
      | 0 => PathNotFound frontier
      | S remaining =>
          let '(frontier', visited') :=
            expandFrontier next frontier visited in
          match frontier' with
          | [] => PathNotFound frontier
          | _ :: _ => searchPath remaining next target frontier' visited'
          end
      end
  end.

(** The default cap is the number of nodes of the graph. *)
Definition getEdgePath (g : TypeGraph) (next : TypeNode -> list TypeEdge)
  (from to : TypeNode) : PathSearch :=
  searchPath (length (nodes g)) next to [(from, [])] [ref from].

(** Modelled from the spec: whether a path exists. *)
Definition existsEdgePath (g : TypeGraph) (next : TypeNode -> list TypeEdge)
  (from to : TypeNode) : bool :=
  match getEdgePath g next from to with
  | PathFound _ => true
  | PathNotFound _ => false
  end.

(** ** Conversion and assignability (conversion.ts, assignability.ts) *)

(** Modelled from the spec: [markAsConvertible(from, to, mode)] adds a
    conversion edge. *)
Definition markAsConvertible (g : TypeGraph) (from to : TypeNode)
  (mode : ConversionMode) : TypeGraph :=
  addEdge g (mkTypeEdge from to (ConversionEdge mode)).

(** Modelled from the spec: [success{path} | problem]. *)
Inductive AssignabilityResult : Type :=
| AssignabilitySuccess (path : list TypeEdge)
| AssignabilityFailure (problem : TypirProblem).

(** One step of an assignability path: subtype edges are preferred over
    implicit conversions; [EXPLICIT] conversions are excluded. *)
Definition assignabilitySteps (g : TypeGraph) (t : TypeNode) : list TypeEdge :=
  outgoing g isSubTypeEdge t ++ outgoing g isImplicitConversionEdge t.

(** Modelled from the spec: [getAssignabilityResult(from, to)] finds a
    shortest path over subtype and implicit-conversion edges (length 0
    for identity); on failure the problem lists the last frontier
    reached. *)
Definition getAssignabilityResult (g : TypeGraph) (from to : TypeNode)
  : AssignabilityResult :=
  match getEdgePath g (assignabilitySteps g) from to with
  | PathFound path => AssignabilitySuccess path
  | PathNotFound frontier =>
      AssignabilityFailure
        (AssignabilityProblem from to
           (map (fun item => AssignabilityProblem (fst item) to []) frontier))
  end.

(** Modelled from the spec: the problem of [getAssignabilityResult], if
    any. *)
Definition getAssignabilityProblem (g : TypeGraph) (from to : TypeNode)
  : option TypirProblem :=
  match getAssignabilityResult g from to with
  | AssignabilitySuccess _ => None
  | AssignabilityFailure problem => Some problem
  end.

(** Modelled from the spec: [isAssignable(from, to)]. *)
Definition isAssignable (g : TypeGraph) (from to : TypeNode) : bool :=
  match getAssignabilityResult g from to with
  | AssignabilitySuccess _ => true
  | AssignabilityFailure _ => false
  end.

(** ** Printer, equality and subtype services *)

(** Modelled from the spec: the printer maps a type to its user
    representation; for a fixed-parameters type that is the signature
    of [FixedParameterKind.printSignature], for the other types the
    identifier. *)
Fixpoint printType (t : TypeNode) : string :=
  match t with
  | FixedParameterType _ kind _ typeValues =>
      baseName kind +:+ "<" +:+ join ", " (map printType typeValues) +:+ ">"
  | _ => getIdentifier t
  end.

(** Modelled from the spec: (section 4.D, 4.E) equality and subtype services.
    Equality: a type equals itself; different kinds give a
    [KindConflict]; otherwise the analyzer of the type decides.
    Subtype: reflexive; holds along explicit [SubTypeEdge]s; otherwise
    the kind-intrinsic analyzers decide: the relation holds when the
    subtype's [analyzeIsSubTypeOf] or the supertype's
    [analyzeIsSuperTypeOf] finds no problem (so that bottom is below
    every type). *)
Fixpoint getTypeEqualityProblem (g : TypeGraph) (type1 type2 : TypeNode)
  {struct type1} : option TypirProblem :=
  let typir :=
    mkTypir (getTypeEqualityProblem g) (getSubTypeProblem g)
      (getAssignabilityProblem g) printType in
  if sameObject type1 type2 then None
  else if negb (String.eqb (kindName (kindOf type1)) (kindName (kindOf type2)))
  then Some (TypeEqualityProblem type1 type2
               [createKindConflict type1 type2])
  else
    match analyzeTypeEqualityProblems typir type1 type2 with
    | [] => None
    | problems => Some (TypeEqualityProblem type1 type2 problems)
    end
with getSubTypeProblem (g : TypeGraph) (subType superType : TypeNode)
  {struct subType} : option TypirProblem :=
  let typir :=
    mkTypir (getTypeEqualityProblem g) (getSubTypeProblem g)
      (getAssignabilityProblem g) printType in
  if sameObject subType superType then None
  else if existsEdgePath g (outgoing g isSubTypeEdge) subType superType
  then None
  else
    match analyzeIsSubTypeOf typir subType superType with
    | [] => None
    | subProblems =>
        match analyzeIsSuperTypeOf typir superType subType with
        | [] => None
        | superProblems =>
            Some (SubTypeProblem superType subType
                    (subProblems ++ superProblems))
        end
    end.

(** Modelled from the spec: the services of an engine with graph [g]. *)
Definition defaultTypir (g : TypeGraph) : Typir :=
  mkTypir (getTypeEqualityProblem g) (getSubTypeProblem g)
    (getAssignabilityProblem g) printType.

(** Modelled from the spec: [areTypesEqual(a, b)]. *)
Definition areTypesEqual (g : TypeGraph) (type1 type2 : TypeNode) : bool :=
  match getTypeEqualityProblem g type1 type2 with
  | None => true
  | Some _ => false
  end.

(** Modelled from the spec: [isSubType(sub, sup)]. *)
Definition isSubType (g : TypeGraph) (subType superType : TypeNode) : bool :=
  match getSubTypeProblem g subType superType with
  | None => true
  | Some _ => false
  end.

(** ** Declared subtype edges (subtype.ts) *)

Record MarkAsSubTypeOptions : Set := mkMarkAsSubTypeOptions {
  checkForCycles : option bool
}.

(** Modelled from the spec: (section 4.E) [markAsSubType(sub, sup,
    {checkForCycles?})] adds a [SubTypeEdge]; by default an edge that
    would close a cycle is refused and a problem is reported. *)
Definition markAsSubType (g : TypeGraph) (subType superType : TypeNode)
  (options : option MarkAsSubTypeOptions) : TypeGraph * option TypirProblem :=
  let check :=
    match options with
    | Some o => match checkForCycles o with Some b => b | None => true end
    | None => true
    end in
  if check && existsEdgePath g (outgoing g isSubTypeEdge) superType subType
  then (g, Some (InitializationError "cycle in the subtype relation"))
  else (addEdge g (mkTypeEdge subType superType SubTypeEdge), None).

(** ** [BottomType] as graph listener (bottom-type.ts) *)

(** [BottomType.markAsSubType(type)]. *)
Definition BottomType_markAsSubType (this type : TypeNode) (g : TypeGraph)
  : TypeGraph :=
  if negb (sameObject type this)
  then fst (markAsSubType g this type
              (Some (mkMarkAsSubTypeOptions (Some false))))
  else g.

(** [BottomType.onAddedType(type, _key)]. *)
Definition BottomType_onAddedType (this type : TypeNode) (_key : string)
  (g : TypeGraph) : TypeGraph :=
  BottomType_markAsSubType this type g.

(** The constructor of [BottomType]: the already existing types are
    marked, then the new object listens to the graph. *)
Definition newBottomType (r : nat) (identifier : string) (g : TypeGraph)
  : TypeNode * TypeGraph :=
  let this := BottomType r identifier in
  let g1 :=
    fold_left (fun g' t => BottomType_markAsSubType this t g')
      (getAllRegisteredTypes g) g in
  (this, addListener g1 this).

(** [BottomType.dispose]. *)
Definition BottomType_dispose (this : TypeNode) (g : TypeGraph) : TypeGraph :=
  removeListener g this.

(** Modelled from the spec: (section 4.A) [addNode(T)].  A type whose identifier
    is already taken is not added: the existing type is returned and no
    event is emitted.  Otherwise the listeners are notified in
    registration order. *)
Definition addNode (g : TypeGraph) (t : TypeNode) : TypeGraph * TypeNode :=
  match getType g (getIdentifier t) with
  | Some existing => (g, existing)
  | None =>
      let g1 := mkTypeGraph (nodes g ++ [t]) (edges g) (listeners g) in
      (fold_left
         (fun g' listener =>
            BottomType_onAddedType listener t (getIdentifier t) g')
         (listeners g1) g1, t)
  end.

(** What a host may do to the graph after the bottom type exists. *)
Inductive GraphOperation : Type :=
| OpAddNode (t : TypeNode)
| OpMarkAsSubType (subType superType : TypeNode)
    (options : option MarkAsSubTypeOptions)
| OpMarkAsConvertible (from to : TypeNode) (mode : ConversionMode).

Definition applyOperation (g : TypeGraph) (op : GraphOperation) : TypeGraph :=
  match op with
  | OpAddNode t => fst (addNode g t)
  | OpMarkAsSubType subType superType options =>
      fst (markAsSubType g subType superType options)
  | OpMarkAsConvertible from to mode => markAsConvertible g from to mode
  end.

Definition applyOperations (g : TypeGraph) (ops : list GraphOperation)
  : TypeGraph :=
  fold_left applyOperation ops g.

(** Adding several nodes in turn. *)
Definition addNodes (g : TypeGraph) (ts : list TypeNode) : TypeGraph :=
  fold_left (fun g0 t => fst (addNode g0 t)) ts g.

(** [g'] has the nodes and listeners of [g], all edges of [g], and
    every further edge joins two different objects. *)
Definition edgesAdded (g g' : TypeGraph) : Prop :=
  nodes g' = nodes g /\ listeners g' = listeners g
  /\ incl (edges g) (edges g')
  /\ forall e, In e (edges g') ->
       In e (edges g) \/ sameObject (edge_from e) (edge_to e) = false.

(** The invariant kept by a listening bottom type [b]. *)
Definition bottomBelowAll (b : TypeNode) (g : TypeGraph) : Prop :=
  In b (listeners g)
  /\ forall t, In t (nodes g) -> sameObject t b = false ->
       In (mkTypeEdge b t SubTypeEdge) (edges g).

(** ** The inference service (inference.ts)

    Modelled from the spec: (section 4.H) the service itself is not part of the
    sources.  A rule answers a node with "not applicable", a type (the
    final answer), a request for the types of child nodes (two-step
    rule) or a boolean; the composite dispatcher tries the registered
    rules in registration order and the first final answer wins.  The
    dispatcher also reports which rules it evaluated, by their position
    in the registry.  Child nodes are inferred recursively; the depth of
    that recursion is bounded by [depth]. *)

Section Inference.

Context {DomainElement : Type}.

(** Modelled from the spec: (section 3) a problem of the inference: the
    node, a location, sub-problems. *)
Inductive InferenceProblem : Type :=
| mkInferenceProblem (languageNode : DomainElement) (location : string)
    (subProblems : list TypirProblem)
    (childProblems : list InferenceProblem).

(** Modelled from the spec: (section 4.H) [Type | [problem]]. *)
Inductive InferenceResult : Type :=
| InferredType (t : TypeNode)
| InferenceProblems (problems : list InferenceProblem).

(** Modelled from the spec: (section 4.H) the answers of a rule. *)
Inductive RuleResult : Type :=
| InferenceRuleNotApplicable
| RuleType (t : TypeNode)
| RuleChildren (children : list DomainElement)
| RuleBoolean (matches : bool)
| RuleProblem (problem : InferenceProblem).

(** Modelled from the spec: (section 4.H) a rule: its first step and, for
    a two-step rule, the conclusion from the types of the children. *)
Record TypeInferenceRule : Type := mkTypeInferenceRule {
  inferTypeWithoutChildren : DomainElement -> RuleResult;
  inferTypeWithChildrensTypes :
    DomainElement -> list TypeNode -> TypeNode + InferenceProblem
}.

(** Modelled from the spec: (section 4.H) a rule given as a plain function
    has no second step. *)
Definition functionRule (f : DomainElement -> RuleResult)
  : TypeInferenceRule :=
  mkTypeInferenceRule f
    (fun node _ => inr (mkInferenceProblem node "no second step" [] [])).

(** Modelled from the spec: (section 4.H) a rule with the type it is bound
    to. *)
Record RegisteredRule : Type := mkRegisteredRule {
  registered_rule : TypeInferenceRule;
  registered_boundTo : option TypeNode
}.

(** Modelled from the spec: (section 4.H) [addInferenceRule(rule,
    boundTo?)] appends to the registry. *)
Definition addInferenceRule (registry : list RegisteredRule)
  (rule : TypeInferenceRule) (boundTo : option TypeNode)
  : list RegisteredRule :=
  registry ++ [mkRegisteredRule rule boundTo].

(** Modelled from the spec: (section 4.H) the types of the children, and
    the problems of those that have none. *)
Fixpoint inferChildren (inferChild : DomainElement -> InferenceResult)
  (children : list DomainElement) : list TypeNode * list InferenceProblem :=
  match children with
  | [] => ([], [])
  | child :: rest =>
      let '(types, problems) := inferChildren inferChild rest in
      match inferChild child with
      | InferredType t => (t :: types, problems)
      | InferenceProblems ps => (types, ps ++ problems)
      end
  end.

(** Modelled from the spec: (section 4.H) the final answer of one rule for
    a node, if it gives one, and the problems it reports otherwise. *)
Definition executeSingleInferenceRule
  (inferChild : DomainElement -> InferenceResult)
  (entry : RegisteredRule) (node : DomainElement)
  : option TypeNode * list InferenceProblem :=
  match inferTypeWithoutChildren (registered_rule entry) node with
  | InferenceRuleNotApplicable => (None, [])
  | RuleType t => (Some t, [])
  | RuleBoolean false => (None, [])
  | RuleBoolean true =>
      match registered_boundTo entry with
      | Some t => (Some t, [])
      | None =>
          (None, [mkInferenceProblem node "no type context" [] []])
      end
  | RuleProblem p => (None, [p])
  | RuleChildren children =>
      match inferChildren inferChild children with
      | (types, []) =>
          match inferTypeWithChildrensTypes (registered_rule entry)
                  node types with
          | inl t => (Some t, [])
          | inr p => (None, [p])
          end
      | (_, problems) =>
          (None, [mkInferenceProblem node "children" [] problems])
      end
  end.

(** Modelled from the spec: (section 4.H) the loop of the composite
    dispatcher from position [index] on, with the positions of the
    evaluated rules. *)
Fixpoint tryRules (inferChild : DomainElement -> InferenceResult)
  (registry : list RegisteredRule) (node : DomainElement) (index : nat)
  (collected : list InferenceProblem) : InferenceResult * list nat :=
  match registry with
  | [] =>
      (InferenceProblems
         match collected with
         | [] => [mkInferenceProblem node "no rule applicable" [] []]
         | _ => collected
         end, [])
  | entry :: rest =>
      match executeSingleInferenceRule inferChild entry node with
      | (Some t, _) => (InferredType t, [index])
      | (None, problems) =>
          let '(result, evaluated) :=
            tryRules inferChild rest node (S index)
              (collected ++ problems) in
          (result, index :: evaluated)
      end
  end.

(** Modelled from the spec: (section 4.H) the dispatcher; [depth] bounds
    the recursion on child nodes. *)
Fixpoint inferTypeTraced (depth : nat) (registry : list RegisteredRule)
  (node : DomainElement) : InferenceResult * list nat :=
  match depth with
  | 0 => (InferenceProblems [mkInferenceProblem node "depth" [] []], [])
  | S depth' =>
      tryRules (fun child => fst (inferTypeTraced depth' registry child))
        registry node 0 []
  end.

(** Modelled from the spec: (section 4.H) [inferType(node)]. *)
Definition inferType (depth : nat) (registry : list RegisteredRule)
  (node : DomainElement) : InferenceResult :=
  fst (inferTypeTraced depth registry node).

(** [entry] gives no final answer for [node]. *)
Definition noFinalAnswer
  (inferChild : DomainElement -> InferenceResult)
  (node : DomainElement) (entry : RegisteredRule) : Prop :=
  fst (executeSingleInferenceRule inferChild entry node) = None.

(** ** [BottomKind] (part_000) *)

Definition InferBottomType : Type := DomainElement -> bool.

Record BottomTypeDetails : Type := mkBottomTypeDetails {
  details_inferenceRules : option (Multiple InferBottomType)
}.

(** The engine reached through [this.typir]: its graph and its
    inference service; [nextRef] is the reference of the next
    allocated object. *)
Record TypirState : Type := mkTypirState {
  typir_graph : TypeGraph;
  typir_inference : list RegisteredRule;
  typir_nextRef : nat
}.

(** The fields of [class BottomKind]. *)
Record BottomKind : Type := mkBottomKind {
  bottomKind_options : BottomKindOptions;
  instance : option TypeNode
}.

(** The constructor of [BottomKind]; the default name is ['never']. *)
Definition newBottomKind (options : option BottomKindOptions) : BottomKind :=
  mkBottomKind
    match options with
    | Some o => o
    | None => mkBottomKindOptions "never"
    end
    None.

(** [BottomKind.calculateIdentifier]. *)
Definition BottomKind_calculateIdentifier (this : BottomKind)
  (_typeDetails : BottomTypeDetails) : string :=
  bottom_name (bottomKind_options this).

(** [BottomKind.getBottomType]. *)
Definition getBottomType (this : BottomKind) (typir : TypirState)
  (typeDetails : BottomTypeDetails) : option TypeNode :=
  let key := BottomKind_calculateIdentifier this typeDetails in
  getType (typir_graph typir) key.

(** The loop of the rule registered by [createBottomType]; the second
    component counts the given rules that were called. *)
Fixpoint bottomRuleLoop (rules : list InferBottomType)
  (bottomType : TypeNode) (domainElement : DomainElement)
  : RuleResult * nat :=
  match rules with
  | [] => (InferenceRuleNotApplicable, 0)
  | inferenceRule :: rest =>
      if inferenceRule domainElement then (RuleType bottomType, 1)
      else
        let '(result, called) :=
          bottomRuleLoop rest bottomType domainElement in
        (result, S called)
  end.

Definition bottomInferenceRule (rules : list InferBottomType)
  (bottomType : TypeNode) : TypeInferenceRule :=
  functionRule
    (fun domainElement =>
       fst (bottomRuleLoop rules bottomType domainElement)).

(** [BottomKind.createBottomType]. *)
Definition createBottomType (this : BottomKind) (typir : TypirState)
  (typeDetails : BottomTypeDetails) : TypeNode * BottomKind * TypirState :=
  match instance this with
  | Some existing => (existing, this, typir)
  | None =>
      let bottomType :=
        BottomType (typir_nextRef typir)
          (BottomKind_calculateIdentifier this typeDetails) in
      let this' := mkBottomKind (bottomKind_options this) (Some bottomType) in
      let graph' := fst (addNode (typir_graph typir) bottomType) in
      let rules := toArray (details_inferenceRules typeDetails) in
      let inference' :=
        if Nat.leb 1 (length rules)
        then addInferenceRule (typir_inference typir)
               (bottomInferenceRule rules bottomType) None
        else typir_inference typir in
      (bottomType, this',
       mkTypirState graph' inference' (S (typir_nextRef typir)))
  end.

(** [BottomKind.getOrCreateBottomType]. *)
Definition getOrCreateBottomType (this : BottomKind) (typir : TypirState)
  (typeDetails : BottomTypeDetails) : TypeNode * BottomKind * TypirState :=
  match getBottomType this typir typeDetails with
  | Some result => (result, this, typir)
  | None => createBottomType this typir typeDetails
  end.

End Inference.

Arguments InferenceProblem : clear implicits.
Arguments InferenceResult : clear implicits.
Arguments RuleResult : clear implicits.
Arguments TypeInferenceRule : clear implicits.
Arguments RegisteredRule : clear implicits.
Arguments BottomTypeDetails : clear implicits.
Arguments TypirState : clear implicits.
Arguments InferBottomType : clear implicits.

(** ** Paths *)

(** Consecutive edges are connected end to end, from [from] to [to]. *)
Fixpoint pathConnects (from : TypeNode) (path : list TypeEdge) (to : TypeNode)
  : bool :=
  match path with
  | [] => sameObject from to
  | e :: rest => sameObject (edge_from e) from && pathConnects (edge_to e) rest to
  end.

Definition isAssignabilityEdge (g : TypeGraph) (e : TypeEdge) : Prop :=
  In e (edges g) /\ (isSubTypeEdge e || isImplicitConversionEdge e) = true.

(** ** The scenario of operator-overloaded.test.ts: four primitives and
    the relations between them *)

Definition integerType : TypeNode := PrimitiveType 1 "integer".
Definition doubleType : TypeNode := PrimitiveType 2 "double".
Definition stringType : TypeNode := PrimitiveType 3 "string".
Definition booleanType : TypeNode := PrimitiveType 4 "boolean".

Definition primitivesGraph : TypeGraph :=
  addNodes emptyGraph [integerType; doubleType; stringType; booleanType].

Definition testRelations : list GraphOperation :=
  [ OpMarkAsConvertible booleanType integerType IMPLICIT_EXPLICIT;
    OpMarkAsSubType integerType doubleType None;
    OpMarkAsConvertible doubleType stringType IMPLICIT_EXPLICIT ].

Definition conversionChainGraph : TypeGraph :=
  applyOperations primitivesGraph testRelations.

(** ** Creating fixed-parameters kinds and types (part_001) *)

(** The constructor of [FixedParameterKind]: the strategy defaults to
    [EQUAL_TYPE]; at least one parameter name is required. *)
Definition newFixedParameterKind (baseName : string)
  (options : option FixedParameterKindOptions) (parameterNames : list string)
  : Completion FixedParameterKind :=
  let kind :=
    mkFixedParameterKind baseName
      match options with
      | Some o => o
      | None => mkFixedParameterKindOptions EQUAL_TYPE
      end
      (imap (fun index name => mkParameter name index) parameterNames) in
  if Nat.leb 1 (length (parameters kind)) then Returned kind
  else Thrown "assertTrue".

(** [FixedParameterKind.createFixedParameterType]; [r] is the reference
    of the new object.  The graph is reached only when the constructor
    of the type returns. *)
Definition createFixedParameterType (typir : Typir) (kind : FixedParameterKind)
  (typeDetails : FixedParameterTypeDetails) (r : nat) (g : TypeGraph)
  : Completion (TypeNode * TypeGraph) :=
  match newFixedParameterType r kind (calculateIdentifier typir kind typeDetails)
          (toArray (Some (parameterTypes typeDetails))) with
  | Returned typeWithParameters =>
      Returned (typeWithParameters, fst (addNode g typeWithParameters))
  | Thrown message => Thrown message
  end.

(** The scenario "fixed-parameters variance": [List<T>] over the
    primitives, with the given strategy. *)
Definition listKind (strategy : TypeCheckStrategy) : FixedParameterKind :=
  mkFixedParameterKind "List" (mkFixedParameterKindOptions strategy)
    [mkParameter "T" 0].

Definition listOf (strategy : TypeCheckStrategy) (r : nat) (element : TypeNode)
  : TypeNode :=
  FixedParameterType r (listKind strategy)
    (calculateIdentifier (defaultTypir conversionChainGraph)
       (listKind strategy)
       (mkFixedParameterTypeDetails (Single element)))
    [element].

(** ** The kind-level analysis of fixed-parameters-kind.ts

    In this file a type is a plain node with a kind and a name; the
    parameter types of a fixed-parameters type are the targets of its
    outgoing ['hasField'] edges; the kind itself compares two types and
    raises an [Error] when they are not of fixed-parameters kinds with
    the same base name. *)
Module FixedParametersKindTs.

Record FixedParameterKindOptions : Set := mkOptions {
  subtypeParameterChecking : TypeCheckStrategy
}.

Record FixedParameterKind : Set := mkKind {
  baseName : string;
  options : FixedParameterKindOptions;
  parameterNames : list string
}.

Inductive Kind : Set :=
| KFixedParameter (kind : FixedParameterKind)
| KOther (name : string).

(** [kind.$name]. *)
Definition kindName (k : Kind) : string :=
  match k with
  | KFixedParameter fk => "FixedParameterKind-" +:+ baseName fk
  | KOther name => name
  end.

Definition FIXED_PARAMETER_TYPE : string := "hasField".

(** [class Type]: kind, name and the outgoing edges by label. *)
Inductive TypeNode : Type :=
| mkType (kind : Kind) (name : string)
    (outgoingEdges : list (string * TypeNode)).

Definition kindOf (t : TypeNode) : Kind :=
  match t with mkType k _ _ => k end.

Definition getOutgoingEdges (t : TypeNode) (label : string)
  : list TypeNode :=
  match t with
  | mkType _ _ outgoingEdges =>
      map snd
        (List.filter (fun e => String.eqb (fst e) label) outgoingEdges)
  end.

Inductive TypeConflict : Type :=
| mkTypeConflict (expected actual : option TypeNode) (index : nat)
    (subConflicts : list TypeConflict).

(** The services reached through [this.typir]; each answers with the
    conflicts it found. *)
Record Typir : Type := mkTypir {
  equality_areTypesEqual : TypeNode -> TypeNode -> list TypeConflict;
  subtype_isSubType : TypeNode -> TypeNode -> list TypeConflict;
  assignability_isAssignable : TypeNode -> TypeNode -> list TypeConflict
}.

(** Modelled from the spec: [createTypeComparisonStrategy] selects the
    relation service named by the strategy. *)
Definition createTypeComparisonStrategy (strategy : TypeCheckStrategy)
  (typir : Typir) : TypeNode -> TypeNode -> list TypeConflict :=
  match strategy with
  | ASSIGNABLE_TYPE => assignability_isAssignable typir
  | EQUAL_TYPE => equality_areTypesEqual typir
  | SUB_TYPE => subtype_isSubType typir
  end.

(** Modelled from the spec: [compareTypes] compares two arrays of
    types position by position. *)
Fixpoint compareTypesFrom (index : nat) (left right : list TypeNode)
  (compare : TypeNode -> TypeNode -> list TypeConflict)
  : list TypeConflict :=
  match left, right with
  | [], [] => []
  | l :: left', r :: right' =>
      match compare l r with
      | [] => compareTypesFrom (S index) left' right' compare
      | conflicts =>
          mkTypeConflict (Some l) (Some r) index conflicts
          :: compareTypesFrom (S index) left' right' compare
      end
  | l :: left', [] =>
      mkTypeConflict (Some l) None index []
      :: compareTypesFrom (S index) left' [] compare
  | [], r :: right' =>
      map (fun x => mkTypeConflict None (Some x) index []) (r :: right')
  end.

(** Modelled from the spec: [compareTypes] from the first position on. *)
Definition compareTypes := compareTypesFrom 0.

Definition isFixedParametersKind (k : Kind) : bool :=
  String.prefix "FixedParameterKind-" (kindName k).

(** [FixedParameterKind.getParameterTypes]. *)
Definition getParameterTypes (this : FixedParameterKind)
  (fixedParameterType : TypeNode) : Completion (list TypeNode) :=
  let result := getOutgoingEdges fixedParameterType FIXED_PARAMETER_TYPE in
  if Nat.eqb (length result) (length (parameterNames this))
  then Returned result
  else Thrown "assertTrue".

(** [FixedParameterKind.isSubType(superType, subType)]. *)
Definition isSubType (this : FixedParameterKind) (typir : Typir)
  (superType subType : TypeNode) : Completion (list TypeConflict) :=
  match kindOf superType, kindOf subType with
  | KFixedParameter superKind, KFixedParameter subKind =>
      if isFixedParametersKind (kindOf superType)
         && isFixedParametersKind (kindOf subType)
         && String.eqb (baseName superKind) (baseName subKind)
      then
        let compareStrategy :=
          createTypeComparisonStrategy
            (subtypeParameterChecking (options this)) typir in
        match getParameterTypes superKind superType with
        | Thrown message => Thrown message
        | Returned superTypes =>
            match getParameterTypes subKind subType with
            | Thrown message => Thrown message
            | Returned subTypes =>
                Returned (compareTypes superTypes subTypes compareStrategy)
            end
        end
      else Thrown ""
  | _, _ => Thrown ""
  end.

(** [FixedParameterKind.areTypesEqual(type1, type2)]. *)
Definition areTypesEqual (this : FixedParameterKind) (typir : Typir)
  (type1 type2 : TypeNode) : Completion (list TypeConflict) :=
  match kindOf type1, kindOf type2 with
  | KFixedParameter kind1, KFixedParameter kind2 =>
      if isFixedParametersKind (kindOf type1)
         && isFixedParametersKind (kindOf type2)
         && String.eqb (baseName kind1) (baseName kind2)
      then
        match getParameterTypes kind1 type1 with
        | Thrown message => Thrown message
        | Returned types1 =>
            match getParameterTypes kind2 type2 with
            | Thrown message => Thrown message
            | Returned types2 =>
                Returned (compareTypes types1 types2
                            (equality_areTypesEqual typir))
            end
        end
      else Thrown ""
  | _, _ => Thrown ""
  end.

(** A list of integers and the integer primitive, as nodes of this
    file. *)
Definition listKindTs : FixedParameterKind :=
  mkKind "List" (mkOptions SUB_TYPE) ["T"].

Definition integerNode : TypeNode := mkType (KOther "PrimitiveKind") "integer" [].

Definition listOfIntegerNode : TypeNode :=
  mkType (KFixedParameter listKindTs) "List<integer>"
    [(FIXED_PARAMETER_TYPE, integerNode)].

(** Services of a system without declared relations: a type is
    related to the types of the same name only. *)
Definition sameName (t1 t2 : TypeNode) : list TypeConflict :=
  match t1, t2 with
  | mkType _ n1 _, mkType _ n2 _ =>
      if String.eqb n1 n2 then []
      else [mkTypeConflict (Some t1) (Some t2) 0 []]
  end.

Definition plainTypir : Typir := mkTypir sameName sameName sameName.

End FixedParametersKindTs.

(** ** Overload resolution (function-overloaded-inference.ts)

    Modelled from the spec: (section 4.I) the resolution is not part of the
    sources.  The candidates are the distinct function types registered
    under the name; a candidate is applicable when it has as many
    parameters as there are arguments and every argument is assignable
    to its parameter; the cost of an argument is the length of its
    assignability path; a candidate dominates another when it is
    nowhere more expensive and somewhere cheaper; the best match is the
    unique candidate that dominates all others, and without one the
    overload is ambiguous between the candidates no other dominates. *)

Definition getInputs (f : TypeNode) : list TypeNode :=
  match f with
  | FunctionType _ _ _ _ inputs => inputs
  | _ => []
  end.

Definition getOutput (f : TypeNode) : option TypeNode :=
  match f with
  | FunctionType _ _ _ output _ => output
  | _ => None
  end.

(** Modelled from the spec: (section 4.I) the costs of the arguments for
    the given parameter types, if every argument is assignable and the
    arities agree. *)
Fixpoint argumentCosts (g : TypeGraph) (arguments parameterTypes : list TypeNode)
  : option (list nat) :=
  match arguments, parameterTypes with
  | [], [] => Some []
  | a :: arguments', p :: parameterTypes' =>
      match getAssignabilityResult g a p with
      | AssignabilitySuccess path =>
          match argumentCosts g arguments' parameterTypes' with
          | Some costs => Some (length path :: costs)
          | None => None
          end
      | AssignabilityFailure _ => None
      end
  | _, _ => None
  end.

(** Modelled from the spec: (section 4.I) an overload group is a set: each
    function type counts once. *)
Fixpoint distinctTypes (ts : list TypeNode) : list TypeNode :=
  match ts with
  | [] => []
  | t :: rest =>
      if existsb (sameObject t) rest then distinctTypes rest
      else t :: distinctTypes rest
  end.

(** Modelled from the spec: (section 4.I) an applicable candidate with its
    costs. *)
Definition Candidate : Type := TypeNode * list nat.

(** Modelled from the spec: (section 4.I) the applicable candidates, in
    order. *)
Fixpoint applicableCandidates (g : TypeGraph) (arguments : list TypeNode)
  (candidates : list TypeNode) : list Candidate :=
  match candidates with
  | [] => []
  | f :: rest =>
      match argumentCosts g arguments (getInputs f) with
      | Some costs => (f, costs) :: applicableCandidates g arguments rest
      | None => applicableCandidates g arguments rest
      end
  end.

(** Modelled from the spec: (section 4.I) nowhere more expensive and
    somewhere cheaper. *)
Definition dominates (costs1 costs2 : list nat) : bool :=
  forallb (fun c => Nat.leb (fst c) (snd c)) (combine costs1 costs2)
  && existsb (fun c => Nat.ltb (fst c) (snd c)) (combine costs1 costs2).

(** Modelled from the spec: (section 4.I) nowhere more expensive and
    somewhere cheaper. *)
Definition dominatesAllOthers (applicable : list Candidate) (x : Candidate)
  : bool :=
  forallb
    (fun y => sameObject (fst x) (fst y) || dominates (snd x) (snd y))
    applicable.

(** Modelled from the spec: (section 4.I) some applicable candidate
    dominates [x]. *)
Definition isDominated (applicable : list Candidate) (x : Candidate) : bool :=
  existsb (fun y => dominates (snd y) (snd x)) applicable.

(** Modelled from the spec: (section 4.I) the best match or the problem. *)
Inductive OverloadResolution : Type :=
| BestMatch (f : TypeNode)
| NoUniqueBestMatch (problem : TypirProblem).

(** Modelled from the spec: (section 4.I) the unique candidate that
    dominates all others; without one, [AmbiguousOverload] with the
    candidates that no other dominates. *)
Definition resolveOverload (g : TypeGraph) (candidates arguments : list TypeNode)
  : OverloadResolution :=
  let applicable :=
    applicableCandidates g arguments (distinctTypes candidates) in
  match List.filter (dominatesAllOthers applicable) applicable with
  | [best] => BestMatch (fst best)
  | _ =>
      NoUniqueBestMatch
        (AmbiguousOverload
           (map fst
              (List.filter (fun x => negb (isDominated applicable x))
                 applicable)))
  end.

(** ** Operators as functions (operator.ts) *)

Section Operators.

Context {DomainElement : Type}.

Definition InferConcreteOperator : Type := DomainElement -> string -> bool.

(** [DeriveOperand | DeriveOperands]: the operand or the operands. *)
Definition DeriveOperands : Type :=
  DomainElement -> string -> Multiple DomainElement.

Record NameTypePair : Type := mkNameTypePair {
  pair_name : string;
  pair_type : TypeNode
}.

Definition FUNCTION_MISSING_NAME : string := "".

(** The answer of an inference rule for function calls: a boolean or
    the child elements whose types are needed. *)
Inductive CallMatch : Type :=
| CallBoolean (matches : bool)
| CallOperands (children : list DomainElement).

Definition InferFunctionCall : Type := DomainElement -> CallMatch.

Record SingleFunctionDetails : Type := mkSingleFunctionDetails {
  details_functionType : TypeNode;
  details_inferenceRuleForCalls : option InferFunctionCall
}.

(** A registered inference rule: a plain function, or the rule of the
    overload group of a function name, which reads the group when it is
    applied. *)
Inductive WorldRule : Type :=
| PlainRule (rule : TypeInferenceRule DomainElement)
| OverloadedFunctionsRule (functionName : string).

(** The engine: graph, object allocator, the function kind (if it is
    registered) with its overload groups by name, and the inference
    rules in registration order. *)
Record World : Type := mkWorld {
  world_graph : TypeGraph;
  world_nextRef : nat;
  world_functionKind : option (gmap string (list SingleFunctionDetails));
  world_inference : list WorldRule
}.

(** Modelled from the spec: (section 4.B) the identifier of a function type is
    derived from [name(p1:T1, p2:T2, ...) : R]. *)
Definition calculateFunctionIdentifier (functionName : string)
  (outputParameter : option NameTypePair) (inputParameters : list NameTypePair)
  : string :=
  functionName +:+ "("
  +:+ join ", "
        (map (fun p => pair_name p +:+ ":" +:+ getIdentifier (pair_type p))
           inputParameters)
  +:+ ") : "
  +:+ match outputParameter with
      | Some p => getIdentifier (pair_type p)
      | None => ""
      end.

(** Modelled from the spec: [FunctionKind.createFunctionType] creates
    the function type (or finds the node of the same identifier), opens
    the overload group of the name with its inference rule if there is
    none yet, and adds the function to the group; a rule for the
    declaration is registered as a plain rule. *)
Definition createFunctionType
  (functionKind : gmap string (list SingleFunctionDetails))
  (functionName : string) (outputParameter : option NameTypePair)
  (inputParameters : list NameTypePair)
  (inferenceRuleForDeclaration : option (DomainElement -> bool))
  (inferenceRuleForCalls : option InferFunctionCall)
  (w : World) : TypeNode * World :=
  let newType :=
    FunctionType (world_nextRef w)
      (calculateFunctionIdentifier functionName outputParameter
         inputParameters)
      functionName
      (option_map pair_type outputParameter)
      (map pair_type inputParameters) in
  let '(graph', functionType) := addNode (world_graph w) newType in
  let '(group, rules1) :=
    match functionKind !! functionName with
    | Some group => (group, world_inference w)
    | None =>
        ([], world_inference w ++ [OverloadedFunctionsRule functionName])
    end in
  let rules2 :=
    match inferenceRuleForDeclaration with
    | Some isDeclaration =>
        rules1
        ++ [PlainRule
              (functionRule
                 (fun domainElement =>
                    if isDeclaration domainElement then RuleType functionType
                    else InferenceRuleNotApplicable))]
    | None => rules1
    end in
  (functionType,
   mkWorld graph' (S (world_nextRef w))
     (Some (<[functionName :=
                group
                ++ [mkSingleFunctionDetails functionType
                      inferenceRuleForCalls]]> functionKind))
     rules2).

(** [DefaultOperatorManager.createGenericOperator]. *)
Definition createGenericOperator (name : string) (outputType : TypeNode)
  (inferenceRule : option InferConcreteOperator)
  (domainElementsForInputValues : option DeriveOperands)
  (inputParameter : list NameTypePair) (w : World) : TypeNode * World :=
  let functionKind :=
    match world_functionKind w with
    | Some kind => kind
    | None => ∅
    end in
  createFunctionType functionKind name
    (Some (mkNameTypePair FUNCTION_MISSING_NAME outputType))
    inputParameter
    None
    match inferenceRule with
    | Some rule =>
        Some (fun domainElement =>
                if rule domainElement name then
                  match domainElementsForInputValues with
                  | Some derive =>
                      CallOperands (toArray (Some (derive domainElement name)))
                  | None => CallBoolean true
                  end
                else CallBoolean false)
    | None => None
    end
    w.

(** [handleOperatorVariants]: one operator per name and type; a single
    result is returned as such. *)
Definition handleOperatorVariants (nameVariants : Multiple string)
  (typeVariants : Multiple TypeNode)
  (typeCreator : string -> TypeNode -> World -> TypeNode * World)
  (w : World) : Completion (Multiple TypeNode * World) :=
  let allNames := toArray (Some nameVariants) in
  let allTypes := toArray (Some typeVariants) in
  if Nat.leb 1 (length allTypes) then
    let '(result, w') :=
      fold_left
        (fun acc singleName =>
           fold_left
             (fun acc' singleType =>
                let '(created, w1) := typeCreator singleName singleType (snd acc') in
                (fst acc' ++ [created], w1))
             allTypes acc)
        allNames ([], w) in
    Returned
      (match result with
       | [single] => Single single
       | _ => Array result
       end, w')
  else Thrown "assertTrue".

(** [createUnaryOperator]. *)
Definition createUnaryOperator (name : Multiple string)
  (operandType : Multiple TypeNode)
  (inferenceRule : option InferConcreteOperator)
  (domainElementsForInputValues : option DeriveOperands) (w : World)
  : Completion (Multiple TypeNode * World) :=
  handleOperatorVariants name operandType
    (fun singleName singleType =>
       createGenericOperator singleName singleType inferenceRule
         domainElementsForInputValues
         [mkNameTypePair "operand" singleType])
    w.

(** [createBinaryOperator]. *)
Definition createBinaryOperator (name : Multiple string)
  (inputType : Multiple TypeNode) (outputType : option TypeNode)
  (inferenceRule : option InferConcreteOperator)
  (domainElementsForInputValues : option DeriveOperands) (w : World)
  : Completion (Multiple TypeNode * World) :=
  handleOperatorVariants name inputType
    (fun singleName singleType =>
       createGenericOperator singleName
         match outputType with Some t => t | None => singleType end
         inferenceRule domainElementsForInputValues
         [mkNameTypePair "left" singleType;
          mkNameTypePair "right" singleType])
    w.

(** [createTernaryOperator]. *)
Definition createTernaryOperator (name : Multiple string)
  (firstType : TypeNode) (secondAndThirdType : Multiple TypeNode)
  (inferenceRule : option InferConcreteOperator)
  (domainElementsForInputValues : option DeriveOperands) (w : World)
  : Completion (Multiple TypeNode * World) :=
  handleOperatorVariants name secondAndThirdType
    (fun singleName singleType =>
       createGenericOperator singleName singleType inferenceRule
         domainElementsForInputValues
         [mkNameTypePair "first" firstType;
          mkNameTypePair "second" singleType;
          mkNameTypePair "third" singleType])
    w.

(** Modelled from the spec: (section 4.H) the two-step rule of an overload
    group.  Step 1: the first function of the group whose rule for calls
    matches the node yields the operands (or, without operands, its
    output type).  Step 2: with the operand types, the best signature of
    the group is selected and its output is the type of the node. *)
Fixpoint matchCall (group : list SingleFunctionDetails)
  (domainElement : DomainElement) : RuleResult DomainElement :=
  match group with
  | [] => InferenceRuleNotApplicable
  | overload :: rest =>
      match details_inferenceRuleForCalls overload with
      | Some rule =>
          match rule domainElement with
          | CallOperands children => RuleChildren children
          | CallBoolean true =>
              match getOutput (details_functionType overload) with
              | Some output => RuleType output
              | None => matchCall rest domainElement
              end
          | CallBoolean false => matchCall rest domainElement
          end
      | None => matchCall rest domainElement
      end
  end.

(** Modelled from the spec: (section 4.H) the rule of the overload group
    of [functionName], reading the group as it is in [w]. *)
Definition overloadedFunctionsRule (w : World) (functionName : string)
  : TypeInferenceRule DomainElement :=
  let group :=
    match world_functionKind w with
    | Some kind =>
        match kind !! functionName with Some group => group | None => [] end
    | None => []
    end in
  mkTypeInferenceRule
    (matchCall group)
    (fun domainElement operandTypes =>
       match resolveOverload (world_graph w)
               (map details_functionType group) operandTypes with
       | BestMatch f =>
           match getOutput f with
           | Some output => inl output
           | None =>
               inr (mkInferenceProblem domainElement "no output" [] [])
           end
       | NoUniqueBestMatch problem =>
           inr (mkInferenceProblem domainElement "overload" [problem] [])
       end).

(** Modelled from the spec: the registered rules as the dispatcher sees
    them. *)
Definition worldRegistry (w : World) : list (RegisteredRule DomainElement) :=
  map (fun rule =>
         match rule with
         | PlainRule r => mkRegisteredRule r None
         | OverloadedFunctionsRule functionName =>
             mkRegisteredRule (overloadedFunctionsRule w functionName) None
         end)
    (world_inference w).

(** [typir.inference.inferType(domainElement)]. *)
Definition inferTypeIn (depth : nat) (w : World) (domainElement : DomainElement)
  : InferenceResult DomainElement :=
  inferType depth (worldRegistry w) domainElement.

(** Modelled from the spec: (section 6) [Primitives.create({name,
    inferenceRules})] adds the primitive to the graph and registers its
    inference rules as one rule. *)
Definition createPrimitiveType (primitiveName : string)
  (inferenceRules : option (Multiple (DomainElement -> bool))) (w : World)
  : TypeNode * World :=
  let newType := PrimitiveType (world_nextRef w) primitiveName in
  let '(graph', primitiveType) := addNode (world_graph w) newType in
  let rules := toArray inferenceRules in
  (primitiveType,
   mkWorld graph' (S (world_nextRef w)) (world_functionKind w)
     (if Nat.leb 1 (length rules)
      then world_inference w
           ++ [PlainRule
                 (functionRule
                    (fun domainElement =>
                       if existsb (fun rule => rule domainElement) rules
                       then RuleType primitiveType
                       else InferenceRuleNotApplicable))]
      else world_inference w)).

End Operators.

Arguments World : clear implicits.
Arguments WorldRule : clear implicits.
Arguments SingleFunctionDetails : clear implicits.
Arguments InferConcreteOperator : clear implicits.
Arguments DeriveOperands : clear implicits.

(** ** The language nodes of the test (predefined-language-nodes.ts)

    Modelled from the spec: the nodes used by
    operator-overloaded.test.ts are not part of the sources; literal
    values play no role in typing. *)

(** Modelled from the spec: the language nodes of the test. *)
Inductive TestExpressionNode : Type :=
| IntegerLiteral (value : Z)
| DoubleLiteral (value : Z)
| StringLiteral (value : string)
| BooleanLiteral (value : bool)
| BinaryExpression (leftOperand : TestExpressionNode) (operator : string)
    (rightOperand : TestExpressionNode)
| VariableNode (name : string) (initialValue : TestExpressionNode).

Definition isIntegerLiteral (node : TestExpressionNode) : bool :=
  match node with IntegerLiteral _ => true | _ => false end.
Definition isDoubleLiteral (node : TestExpressionNode) : bool :=
  match node with DoubleLiteral _ => true | _ => false end.
Definition isStringLiteral (node : TestExpressionNode) : bool :=
  match node with StringLiteral _ => true | _ => false end.
Definition isBooleanLiteral (node : TestExpressionNode) : bool :=
  match node with BooleanLiteral _ => true | _ => false end.

(** [InferenceRuleBinaryExpression]: a binary expression with the
    operator of the given name; its operands are the two sides. *)
Definition binaryExpressionMatches : InferConcreteOperator TestExpressionNode :=
  fun node operatorName =>
    match node with
    | BinaryExpression _ operator _ => String.eqb operator operatorName
    | _ => false
    end.

Definition binaryExpressionOperands : DeriveOperands TestExpressionNode :=
  fun node _ =>
    match node with
    | BinaryExpression leftOperand _ rightOperand =>
        Array [leftOperand; rightOperand]
    | _ => Array []
    end.

(** The type of a variable is the type of its initial value. *)
Definition variableRule : TypeInferenceRule TestExpressionNode :=
  mkTypeInferenceRule
    (fun node =>
       match node with
       | VariableNode _ initialValue => RuleChildren [initialValue]
       | _ => InferenceRuleNotApplicable
       end)
    (fun node types =>
       match types with
       | [t] => inl t
       | _ => inr (mkInferenceProblem node "variable" [] [])
       end).

Definition withGraph {D : Type} (w : World D) (g : TypeGraph) : World D :=
  mkWorld g (world_nextRef w) (world_functionKind w) (world_inference w).

(** The set-up of the test: the four primitives, the four signatures of
    ['+'], the relations between the primitives, the rule for
    variables. *)
Definition testWorld : World TestExpressionNode :=
  let w0 := mkWorld emptyGraph 1 None [] in
  let '(integerT, w1) :=
    createPrimitiveType "integer" (Some (Single isIntegerLiteral)) w0 in
  let '(doubleT, w2) :=
    createPrimitiveType "double" (Some (Single isDoubleLiteral)) w1 in
  let '(stringT, w3) :=
    createPrimitiveType "string" (Some (Single isStringLiteral)) w2 in
  let '(booleanT, w4) :=
    createPrimitiveType "boolean" (Some (Single isBooleanLiteral)) w3 in
  let w5 :=
    match createBinaryOperator (Single "+")
            (Array [integerT; doubleT; stringT; booleanT]) None
            (Some binaryExpressionMatches) (Some binaryExpressionOperands)
            w4 with
    | Returned (_, w) => w
    | Thrown _ => w4
    end in
  let w6 :=
    withGraph w5
      (applyOperations (world_graph w5)
         [ OpMarkAsConvertible booleanT integerT IMPLICIT_EXPLICIT;
           OpMarkAsSubType integerT doubleT None;
           OpMarkAsConvertible doubleT stringT IMPLICIT_EXPLICIT ]) in
  mkWorld (world_graph w6) (world_nextRef w6) (world_functionKind w6)
    (world_inference w6 ++ [PlainRule variableRule]).

Definition integer2 : TestExpressionNode := IntegerLiteral 2.
Definition integer3 : TestExpressionNode := IntegerLiteral 3.
Definition double2_0 : TestExpressionNode := DoubleLiteral 2.
Definition string3 : TestExpressionNode := StringLiteral "3".
Definition booleanTrue : TestExpressionNode := BooleanLiteral true.
Definition booleanFalse : TestExpressionNode := BooleanLiteral false.
Definition double3_0 : TestExpressionNode := DoubleLiteral 3.
Definition string2 : TestExpressionNode := StringLiteral "2".

(** The kinds of edges of a path, as the test compares them. *)
Definition relationsOf (result : AssignabilityResult)
  : option (list EdgeRelation) :=
  match result with
  | AssignabilitySuccess path => Some (map edge_relation path)
  | AssignabilityFailure _ => None
  end.

(** Two signatures that tie on a call with two integers. *)
Definition tiedCandidates : list TypeNode :=
  [ FunctionType 20 "f(a:integer, b:double) : integer" "f"
      (Some integerType) [integerType; doubleType];
    FunctionType 21 "f(a:double, b:integer) : double" "f"
      (Some doubleType) [doubleType; integerType] ].

(** ** The initializer of function types (function-initializer.ts) *)

Definition bindCompletion {A B : Type} (c : Completion A)
  (k : A -> Completion B) : Completion B :=
  match c with
  | Returned a => k a
  | Thrown message => Thrown message
  end.

Section FunctionInitializer.

Context {LanguageNode : Type}.

(** The inference rule for calls given in the type details. *)
Record InferFunctionCallRule : Type := mkInferFunctionCallRule {
  call_filter : LanguageNode -> bool;
  call_matching : LanguageNode -> bool;
  call_inputArguments : LanguageNode -> list LanguageNode
}.

Record CreateFunctionTypeDetails : Type := mkCreateFunctionTypeDetails {
  td_functionName : string;
  td_outputParameter : option NameTypePair;
  td_inputParameters : list NameTypePair;
  td_inferenceRuleForDeclaration : option (LanguageNode -> bool);
  td_inferenceRuleForCalls : option InferFunctionCallRule;
  td_validationForCall : option (LanguageNode -> TypeNode -> list string)
}.

(** The rule objects the initializer creates; [ruleRef] is the identity
    of the object, the other components are what it captures. *)
Inductive RuleObject : Type :=
| OverloadedFunctionsTypeInferenceRule (r : nat)
| FunctionCallInferenceRule (r : nat)
    (typeDetails : CreateFunctionTypeDetails) (functionType : TypeNode)
| InferenceForDeclaration (r : nat)
    (typeDetails : CreateFunctionTypeDetails) (functionType : TypeNode)
| ValidationForCall (r : nat)
    (typeDetails : CreateFunctionTypeDetails) (functionType : TypeNode).

Definition ruleRef (rule : RuleObject) : nat :=
  match rule with
  | OverloadedFunctionsTypeInferenceRule r
  | FunctionCallInferenceRule r _ _
  | InferenceForDeclaration r _ _
  | ValidationForCall r _ _ => r
  end.

(** The function type a rule object was created for. *)
Definition ruleFunctionType (rule : RuleObject) : option TypeNode :=
  match rule with
  | OverloadedFunctionsTypeInferenceRule _ => None
  | FunctionCallInferenceRule _ _ functionType
  | InferenceForDeclaration _ _ functionType
  | ValidationForCall _ _ functionType => Some functionType
  end.

(** [interface FunctionInferenceRules]. *)
Record FunctionInferenceRules : Type := mkFunctionInferenceRules {
  inferenceForCall : option RuleObject;
  validationForCall : option RuleObject;
  inferenceForDeclaration : option RuleObject
}.

(** A rule registered at an inference service, with the type it is
    bound to. *)
Record BoundRule : Type := mkBoundRule {
  bound_rule : RuleObject;
  bound_to : option TypeNode
}.

Definition sameBinding (a b : option TypeNode) : bool :=
  match a, b with
  | None, None => true
  | Some x, Some y => sameObject x y
  | _, _ => false
  end.

(** Modelled from the spec: (section 4.H) [addInferenceRule(rule, boundTo?)]
    appends to the registry; [removeInferenceRule(rule, boundTo?)]
    removes that rule object under that binding. *)
Definition addBoundRule (registry : list BoundRule) (rule : RuleObject)
  (boundTo : option TypeNode) : list BoundRule :=
  registry ++ [mkBoundRule rule boundTo].

(** Modelled from the spec: (section 4.H) [removeInferenceRule(rule,
    boundTo?)]. *)
Definition removeBoundRule (registry : list BoundRule) (rule : RuleObject)
  (boundTo : option TypeNode) : list BoundRule :=
  List.filter
    (fun entry =>
       negb (Nat.eqb (ruleRef (bound_rule entry)) (ruleRef rule)
             && sameBinding (bound_to entry) boundTo))
    registry.

(** Modelled from the spec: (section 4.J) the validation collector holds an
    ordered list of rules. *)
Definition addValidationRule (rules : list RuleObject) (rule : RuleObject)
  : list RuleObject :=
  rules ++ [rule].

(** Modelled from the spec: (section 4.J) [removeValidationRule(rule)]. *)
Definition removeValidationRule (rules : list RuleObject) (rule : RuleObject)
  : list RuleObject :=
  List.filter (fun r => negb (Nat.eqb (ruleRef r) (ruleRef rule))) rules.

(** The composite rule of an overload group: an object with its own
    registry. *)
Record CompositeRule : Type := mkCompositeRule {
  composite_ref : nat;
  composite_rules : list BoundRule
}.

Record OverloadedFunction : Type := mkOverloadedFunction {
  overloaded_functionType : TypeNode;
  overloaded_inferenceRuleForCalls : option InferFunctionCallRule
}.

(** [interface OverloadedFunctionDetails]. *)
Record OverloadedFunctionDetails : Type := mkOverloadedFunctionDetails {
  overloadedFunctions : list OverloadedFunction;
  inference : CompositeRule;
  sameOutputType : option TypeNode
}.

(** The mutable state reached through [this.services] and
    [this.kind]: the graph, the overload groups by function name, the
    inference service, the validation collector, the listeners of the
    type nodes (type, listener) and the object allocator. *)
Record Engine : Type := mkEngine {
  engine_graph : TypeGraph;
  engine_mapNameTypes : gmap string OverloadedFunctionDetails;
  engine_inference : list BoundRule;
  engine_validation : list RuleObject;
  engine_typeListeners : list (nat * nat);
  engine_nextRef : nat
}.

(** What the initializer uses of [this.kind], whose class is not part
    of the sources. *)
Record FunctionKind : Type := mkFunctionKind {
  kind_enforceFunctionNameOption : bool;
  kind_enforceFunctionName : string -> bool -> Completion unit;
  kind_getOutputTypeForFunctionCalls : TypeNode -> option TypeNode;
  kind_calculateIdentifier : CreateFunctionTypeDetails -> string
}.

(** What the initializer uses of [this.services] without changing it. *)
Record TypirServices : Type := mkTypirServices {
  Equality_areTypesEqual : TypeNode -> TypeNode -> bool
}.

(** The fields of [class FunctionTypeInitializer]. *)
Record FunctionTypeInitializer : Type := mkFunctionTypeInitializer {
  initializer_ref : nat;
  typeDetails : CreateFunctionTypeDetails;
  inferenceRules : FunctionInferenceRules;
  initialFunctionType : TypeNode
}.

(** [new FunctionType(kind, typeDetails)]. *)
Definition newFunctionType (kind : FunctionKind)
  (details : CreateFunctionTypeDetails) (r : nat) : TypeNode :=
  FunctionType r (kind_calculateIdentifier kind details)
    (td_functionName details)
    (option_map pair_type (td_outputParameter details))
    (map pair_type (td_inputParameters details)).

(** [createInferenceRules]: the rule objects are allocated from [r]
    on. *)
Definition createInferenceRules (details : CreateFunctionTypeDetails)
  (functionType : TypeNode) (r : nat) : FunctionInferenceRules * nat :=
  let '(forCall, r1) :=
    match td_inferenceRuleForCalls details with
    | Some _ => (Some (FunctionCallInferenceRule r details functionType), S r)
    | None => (None, r)
    end in
  let '(forValidation, r2) :=
    match td_validationForCall details with
    | Some _ => (Some (ValidationForCall r1 details functionType), S r1)
    | None => (None, r1)
    end in
  let '(forDeclaration, r3) :=
    match td_inferenceRuleForDeclaration details with
    | Some _ => (Some (InferenceForDeclaration r2 details functionType), S r2)
    | None => (None, r2)
    end in
  (mkFunctionInferenceRules forCall forValidation forDeclaration, r3).

(** The rule for the declaration of the function, applied to a node. *)
Definition applyInferenceForDeclaration (rule : RuleObject)
  (languageNode : LanguageNode) : RuleResult LanguageNode :=
  match rule with
  | InferenceForDeclaration _ details functionType =>
      match td_inferenceRuleForDeclaration details with
      | Some isDeclaration =>
          if isDeclaration languageNode then RuleType functionType
          else InferenceRuleNotApplicable
      | None => InferenceRuleNotApplicable
      end
  | _ => InferenceRuleNotApplicable
  end.

(** The validation of the calls of the function, applied to a node;
    [inferType], [resolve] and [getAssignabilityProblem] stand for the
    services of [typir] the rule calls. *)
Definition applyValidationForCall
  (mapNameTypes : gmap string OverloadedFunctionDetails)
  (inferType : LanguageNode -> option TypeNode)
  (getAssignabilityProblem : TypeNode -> TypeNode -> option TypirProblem)
  (rule : RuleObject) (languageNode : LanguageNode) : list string :=
  match rule with
  | ValidationForCall _ details functionType =>
      match td_inferenceRuleForCalls details, td_validationForCall details with
      | Some forCalls, Some validate =>
          if call_filter forCalls languageNode
             && call_matching forCalls languageNode
          then
            let inputArguments := call_inputArguments forCalls languageNode in
            if Nat.leb 1 (length inputArguments) then
              let overloadInfos := mapNameTypes !! td_functionName details in
              if match overloadInfos with
                 | Some infos => Nat.leb 2 (length (overloadedFunctions infos))
                 | None => false
                 end
              then
                let childTypes := map inferType inputArguments in
                let actualInputTypes := omap id childTypes in
                if Nat.eqb (length childTypes) (length actualInputTypes) then
                  let expectedInputTypes :=
                    map pair_type (td_inputParameters details) in
                  let comparisonConflicts :=
                    checkTypes actualInputTypes expectedInputTypes
                      getAssignabilityProblem in
                  if Nat.leb (length comparisonConflicts) 0
                  then validate languageNode functionType
                  else []
                else []
              else validate languageNode functionType
            else validate languageNode functionType
          else []
      | _, _ => []
      end
  | _ => []
  end.

Definition updateGroup (e : Engine) (functionName : string)
  (f : OverloadedFunctionDetails -> OverloadedFunctionDetails) : Engine :=
  mkEngine (engine_graph e)
    (alter f functionName (engine_mapNameTypes e))
    (engine_inference e) (engine_validation e) (engine_typeListeners e)
    (engine_nextRef e).

Definition withCompositeRules (rules : list BoundRule -> list BoundRule)
  (group : OverloadedFunctionDetails) : OverloadedFunctionDetails :=
  mkOverloadedFunctionDetails (overloadedFunctions group)
    (mkCompositeRule (composite_ref (inference group))
       (rules (composite_rules (inference group))))
    (sameOutputType group).

(** [registerInferenceRules]; the overload group of the name exists
    since the constructor ([mapNameTypes.get(functionName)!]). *)
Definition registerInferenceRules (rules : FunctionInferenceRules)
  (functionName : string) (functionType : option TypeNode) (e : Engine)
  : Engine :=
  let e1 :=
    match inferenceForCall rules with
    | Some rule =>
        updateGroup e functionName
          (withCompositeRules
             (fun registry => addBoundRule registry rule functionType))
    | None => e
    end in
  let e2 :=
    match validationForCall rules with
    | Some rule =>
        mkEngine (engine_graph e1) (engine_mapNameTypes e1)
          (engine_inference e1)
          (addValidationRule (engine_validation e1) rule)
          (engine_typeListeners e1) (engine_nextRef e1)
    | None => e1
    end in
  match inferenceForDeclaration rules with
  | Some rule =>
      mkEngine (engine_graph e2) (engine_mapNameTypes e2)
        (addBoundRule (engine_inference e2) rule functionType)
        (engine_validation e2) (engine_typeListeners e2) (engine_nextRef e2)
  | None => e2
  end.

(** [deregisterInferenceRules]. *)
Definition deregisterInferenceRules (rules : FunctionInferenceRules)
  (functionName : string) (functionType : option TypeNode) (e : Engine)
  : Engine :=
  let e1 :=
    match inferenceForCall rules with
    | Some rule =>
        updateGroup e functionName
          (withCompositeRules
             (fun registry => removeBoundRule registry rule functionType))
    | None => e
    end in
  let e2 :=
    match validationForCall rules with
    | Some rule =>
        mkEngine (engine_graph e1) (engine_mapNameTypes e1)
          (engine_inference e1)
          (removeValidationRule (engine_validation e1) rule)
          (engine_typeListeners e1) (engine_nextRef e1)
    | None => e1
    end in
  match inferenceForDeclaration rules with
  | Some rule =>
      mkEngine (engine_graph e2) (engine_mapNameTypes e2)
        (removeBoundRule (engine_inference e2) rule functionType)
        (engine_validation e2) (engine_typeListeners e2) (engine_nextRef e2)
  | None => e2
  end.

Definition isSome {A : Type} (o : option A) : bool :=
  match o with Some _ => true | None => false end.

(** The constructor of [FunctionTypeInitializer]. *)
Definition newFunctionTypeInitializer (kind : FunctionKind)
  (details : CreateFunctionTypeDetails) (e : Engine)
  : Completion (FunctionTypeInitializer * Engine) :=
  let functionName := td_functionName details in
  if negb (isSome (td_outputParameter details))
     && isSome (td_inferenceRuleForCalls details)
  then Thrown "a function without output parameter cannot have an inferred type"
  else
    bindCompletion
      (kind_enforceFunctionName kind functionName
         (kind_enforceFunctionNameOption kind))
      (fun _ =>
    if isSome (td_validationForCall details)
       && negb (isSome (td_inferenceRuleForCalls details))
    then Thrown "validation of calls needs an inference rule for calls"
    else
      let this := engine_nextRef e in
      let r0 := S this in
      (* prepare the overloads *)
      let '(mapNameTypes1, inference1, r1) :=
        match engine_mapNameTypes e !! functionName with
        | Some _ => (engine_mapNameTypes e, engine_inference e, r0)
        | None =>
            let overloaded :=
              mkOverloadedFunctionDetails []
                (mkCompositeRule r0 []) None in
            (<[functionName := overloaded]> (engine_mapNameTypes e),
             addBoundRule (engine_inference e)
               (OverloadedFunctionsTypeInferenceRule r0) None,
             S r0)
        end in
      (* create the new Function type *)
      let initial := newFunctionType kind details r1 in
      let '(rules, r2) := createInferenceRules details initial (S r1) in
      let e1 :=
        registerInferenceRules rules functionName None
          (mkEngine (engine_graph e) mapNameTypes1 inference1
             (engine_validation e) (engine_typeListeners e) r2) in
      Returned
        (mkFunctionTypeInitializer this details rules initial,
         mkEngine (engine_graph e1) (engine_mapNameTypes e1)
           (engine_inference e1) (engine_validation e1)
           (engine_typeListeners e1 ++ [(ref initial, this)])
           (engine_nextRef e1))).

(** [getTypeInitial]. *)
Definition getTypeInitial (this : FunctionTypeInitializer) : TypeNode :=
  initialFunctionType this.

Definition isFunctionType (t : TypeNode) : bool :=
  match t with FunctionType _ _ _ _ _ => true | _ => false end.

(** [functionType.removeListener(this)]. *)
Definition removeTypeListener (e : Engine) (functionType : TypeNode)
  (this : FunctionTypeInitializer) : Engine :=
  mkEngine (engine_graph e) (engine_mapNameTypes e) (engine_inference e)
    (engine_validation e)
    (List.filter
       (fun entry =>
          negb (Nat.eqb (fst entry) (ref functionType)
                && Nat.eqb (snd entry) (initializer_ref this)))
       (engine_typeListeners e))
    (engine_nextRef e).

(** Modelled from the spec: (section 4.C) [producedType] publishes the
    canonical type: the node of the graph with the same identifier if
    there is one (the new node is then discarded), the new node itself,
    added to the graph, otherwise. *)
Definition producedType (newType : TypeNode) (e : Engine)
  : TypeNode * Engine :=
  match getType (engine_graph e) (getIdentifier newType) with
  | Some existingType => (existingType, e)
  | None =>
      (newType,
       mkEngine (fst (addNode (engine_graph e) newType))
         (engine_mapNameTypes e) (engine_inference e) (engine_validation e)
         (engine_typeListeners e) (engine_nextRef e))
  end.

(** The bookkeeping of the overload group at the end of
    [onSwitchedToIdentifiable]: the output type shared by all
    overloads, and the new entry. *)
Definition rememberFunction (services : TypirServices) (kind : FunctionKind)
  (details : CreateFunctionTypeDetails) (readyFunctionType : TypeNode)
  (overloaded : OverloadedFunctionDetails) : OverloadedFunctionDetails :=
  let outputTypeForFunctionCalls :=
    kind_getOutputTypeForFunctionCalls kind readyFunctionType in
  let sameOutputType' :=
    if Nat.leb (length (overloadedFunctions overloaded)) 0
    then outputTypeForFunctionCalls
    else
      match sameOutputType overloaded, outputTypeForFunctionCalls with
      | Some same, Some output =>
          if Equality_areTypesEqual services same output
          then sameOutputType overloaded
          else None
      | _, _ => None
      end in
  mkOverloadedFunctionDetails
    (overloadedFunctions overloaded
     ++ [mkOverloadedFunction readyFunctionType
           (td_inferenceRuleForCalls details)])
    (inference overloaded)
    sameOutputType'.

(** [onSwitchedToIdentifiable]. *)
Definition onSwitchedToIdentifiable (services : TypirServices)
  (kind : FunctionKind) (this : FunctionTypeInitializer)
  (functionType : TypeNode) (e : Engine)
  : Completion (TypeNode * FunctionTypeInitializer * Engine) :=
  let functionName := td_functionName (typeDetails this) in
  if negb (isFunctionType functionType) then Thrown "assertType"
  else
    let '(readyFunctionType, e1) := producedType functionType e in
    let '(this', e2) :=
      if negb (sameObject readyFunctionType functionType) then
        let e11 := removeTypeListener e1 functionType this in
        let e12 :=
          deregisterInferenceRules (inferenceRules this) functionName None
            e11 in
        let '(rules, r) :=
          createInferenceRules (typeDetails this) readyFunctionType
            (engine_nextRef e12) in
        let this' :=
          mkFunctionTypeInitializer (initializer_ref this)
            (typeDetails this) rules (initialFunctionType this) in
        (this',
         registerInferenceRules rules functionName (Some readyFunctionType)
           (mkEngine (engine_graph e12) (engine_mapNameTypes e12)
              (engine_inference e12) (engine_validation e12)
              (engine_typeListeners e12) r))
      else
        (this,
         registerInferenceRules (inferenceRules this) functionName
           (Some readyFunctionType)
           (deregisterInferenceRules (inferenceRules this) functionName
              None e1)) in
    match engine_mapNameTypes e2 !! functionName with
    | None => Thrown "TypeError"
    | Some _ =>
        Returned
          (readyFunctionType, this',
           updateGroup e2 functionName
             (rememberFunction services kind (typeDetails this)
                readyFunctionType))
    end.

(** [onSwitchedToCompleted]. *)
Definition onSwitchedToCompleted (this : FunctionTypeInitializer)
  (functionType : TypeNode) (e : Engine) : Engine :=
  removeTypeListener e functionType this.

(** [onSwitchedToInvalid]. *)
Definition onSwitchedToInvalid (this : FunctionTypeInitializer)
  (_functionType : TypeNode) (e : Engine) : Engine := e.

(** *** Predicates on the registries and on the overload groups *)

(** The registry of the composite rule of the overload group. *)
Definition groupRules (e : Engine) (functionName : string) : list BoundRule :=
  match engine_mapNameTypes e !! functionName with
  | Some group => composite_rules (inference group)
  | None => []
  end.

(** The entries [registerInferenceRules] adds for [rules]. *)
Definition callEntries (rules : FunctionInferenceRules)
  (boundTo : option TypeNode) : list BoundRule :=
  match inferenceForCall rules with
  | Some rule => [mkBoundRule rule boundTo]
  | None => []
  end.

Definition declarationEntries (rules : FunctionInferenceRules)
  (boundTo : option TypeNode) : list BoundRule :=
  match inferenceForDeclaration rules with
  | Some rule => [mkBoundRule rule boundTo]
  | None => []
  end.

Definition validationEntries (rules : FunctionInferenceRules)
  : list RuleObject :=
  match validationForCall rules with
  | Some rule => [rule]
  | None => []
  end.

(** The inference rules of [rules] are registered bound to [boundTo]:
    the rule for calls at the overload group, the rule for the
    declaration at the inference service. *)
Definition inferenceRegistered (e : Engine) (functionName : string)
  (rules : FunctionInferenceRules) (boundTo : option TypeNode) : Prop :=
  (forall rule, inferenceForCall rules = Some rule ->
     In (mkBoundRule rule boundTo) (groupRules e functionName))
  /\ (forall rule, inferenceForDeclaration rules = Some rule ->
        In (mkBoundRule rule boundTo) (engine_inference e))
  /\ (forall rule, validationForCall rules = Some rule ->
        In rule (engine_validation e)).

(** No rule object of [rules] is registered under the binding
    [boundTo]. *)
Definition inferenceNotRegistered (e : Engine) (functionName : string)
  (rules : FunctionInferenceRules) (boundTo : option TypeNode) : Prop :=
  (forall rule entry, inferenceForCall rules = Some rule ->
     In entry (groupRules e functionName) ->
     ruleRef (bound_rule entry) = ruleRef rule ->
     sameBinding (bound_to entry) boundTo = false)
  /\ (forall rule entry, inferenceForDeclaration rules = Some rule ->
        In entry (engine_inference e) ->
        ruleRef (bound_rule entry) = ruleRef rule ->
        sameBinding (bound_to entry) boundTo = false).

(** No validation rule object of [rules] is registered. *)
Definition validationNotRegistered (e : Engine)
  (rules : FunctionInferenceRules) : Prop :=
  forall rule registered, validationForCall rules = Some rule ->
    In registered (engine_validation e) ->
    ruleRef registered <> ruleRef rule.

(** Every rule object of [rules] was created for [functionType]. *)
Definition rulesCreatedFor (rules : FunctionInferenceRules)
  (functionType : TypeNode) : Prop :=
  forall rule,
    inferenceForCall rules = Some rule
    \/ validationForCall rules = Some rule
    \/ inferenceForDeclaration rules = Some rule ->
    ruleFunctionType rule = Some functionType.

(** The output types for calls of the functions of a group, in the
    order of registration. *)
Definition groupOutputTypes (kind : FunctionKind)
  (group : OverloadedFunctionDetails) : list (option TypeNode) :=
  map (fun f => kind_getOutputTypeForFunctionCalls kind
                  (overloaded_functionType f))
    (overloadedFunctions group).

(** All functions have an output type and these are pair-wise equal. *)
Definition pairwiseEqualOutputs (services : TypirServices)
  (outputs : list (option TypeNode)) : Prop :=
  forall i j o1 o2,
    outputs !! i = Some o1 -> outputs !! j = Some o2 ->
    exists t1 t2,
      o1 = Some t1 /\ o2 = Some t2
      /\ Equality_areTypesEqual services t1 t2 = true.

(** The invariant of the bookkeeping: [sameOutputType] is defined
    exactly when at least one function is registered and all registered
    functions have pair-wise equal output types; it is then the output
    type of the first registered function. *)
Definition sameOutputTypeInvariant (services : TypirServices)
  (kind : FunctionKind) (group : OverloadedFunctionDetails) : Prop :=
  forall t,
    sameOutputType group = Some t
    <-> (exists rest, groupOutputTypes kind group = Some t :: rest)
        /\ pairwiseEqualOutputs services (groupOutputTypes kind group).

Definition engineInvariant (services : TypirServices) (kind : FunctionKind)
  (e : Engine) : Prop :=
  forall functionName group,
    engine_mapNameTypes e !! functionName = Some group ->
    sameOutputTypeInvariant services kind group.

End FunctionInitializer.

Arguments InferFunctionCallRule : clear implicits.
Arguments CreateFunctionTypeDetails : clear implicits.
Arguments RuleObject : clear implicits.
Arguments FunctionInferenceRules : clear implicits.
Arguments BoundRule : clear implicits.
Arguments CompositeRule : clear implicits.
Arguments OverloadedFunction : clear implicits.
Arguments OverloadedFunctionDetails : clear implicits.
Arguments Engine : clear implicits.
Arguments FunctionKind : clear implicits.
Arguments FunctionTypeInitializer : clear implicits.

(** ** Concrete instances used to exercise the theorems *)

(** A bottom type created over the four primitives, and a primitive
    added afterwards. *)
Definition charType : TypeNode := PrimitiveType 10 "char".

Definition neverType : TypeNode :=
  fst (newBottomType 9 "never" primitivesGraph).

Definition graphWithNever : TypeGraph :=
  applyOperations (snd (newBottomType 9 "never" primitivesGraph))
    [OpAddNode charType].

(** Three rules over numbers as nodes: the first never applies, the
    second types 1 as integer, the third types every node as string. *)
Definition neverApplies : RegisteredRule nat :=
  mkRegisteredRule (functionRule (fun _ => InferenceRuleNotApplicable)) None.

Definition oneIsInteger : RegisteredRule nat :=
  mkRegisteredRule
    (functionRule
       (fun n => if Nat.eqb n 1 then RuleType integerType
                 else InferenceRuleNotApplicable))
    None.

Definition allAreStrings : RegisteredRule nat :=
  mkRegisteredRule (functionRule (fun _ => RuleType stringType)) None.

(** The bottom kind after its first [createBottomType] on an empty
    engine. *)
Definition createdBottom
  : TypeNode * BottomKind * TypirState TestExpressionNode :=
  createBottomType (newBottomKind None) (mkTypirState emptyGraph [] 1)
    (mkBottomTypeDetails None).

(** A function kind whose functions are called with their output type,
    a system where types are equal when their identifiers are, and the
    details of [plus(left: integer, right: integer): integer]. *)
Definition exampleFunctionKind : FunctionKind TestExpressionNode :=
  mkFunctionKind true
    (fun name enforce =>
       if enforce && String.eqb name "" then Thrown "a name is required"
       else Returned tt)
    getOutput
    (fun details =>
       calculateFunctionIdentifier (td_functionName details)
         (td_outputParameter details) (td_inputParameters details)).

Definition exampleServices : TypirServices :=
  mkTypirServices
    (fun t1 t2 => String.eqb (getIdentifier t1) (getIdentifier t2)).

Definition plusDetails (operand : TypeNode)
  : CreateFunctionTypeDetails TestExpressionNode :=
  mkCreateFunctionTypeDetails "plus"
    (Some (mkNameTypePair "result" operand))
    [mkNameTypePair "left" operand; mkNameTypePair "right" operand]
    None
    (Some (mkInferFunctionCallRule
             (fun node => binaryExpressionMatches node "+")
             (fun _ => true)
             (fun node => toArray (Some (binaryExpressionOperands node "+")))))
    None.

Definition emptyEngine : Engine TestExpressionNode :=
  mkEngine primitivesGraph ∅ [] [] [] 5.

(** ** Definitions for the further properties *)

(** The pairs of a name and a type in the order of the two nested loops
    of [handleOperatorVariants]: name by name, and for each name type by
    type. *)
Definition operatorVariants (allNames : list string) (allTypes : list TypeNode)
  : list (string * TypeNode) :=
  flat_map (fun singleName => map (pair singleName) allTypes) allNames.

(** The creator applied to the given variants one after the other, each
    on the engine the previous creation left. *)
Definition createVariants {DomainElement : Type}
  (typeCreator : string -> TypeNode -> World DomainElement
                 -> TypeNode * World DomainElement)
  (variants : list (string * TypeNode)) (w : World DomainElement)
  : list TypeNode * World DomainElement :=
  fold_left
    (fun acc variant =>
       let '(created, w1) :=
         typeCreator (fst variant) (snd variant) (snd acc) in
       (fst acc ++ [created], w1))
    variants ([], w).

(** A creator that only counts its calls in the allocator of the
    engine and answers with its argument. *)
Definition countingCreator (singleName : string) (singleType : TypeNode)
  (w : World TestExpressionNode) : TypeNode * World TestExpressionNode :=
  (singleType,
   mkWorld (world_graph w) (S (world_nextRef w)) (world_functionKind w)
     (world_inference w)).

(** What the registration of rules leaves untouched in an overload
    group: the registered functions, the identity of the composite
    rule and the shared output type. *)
Definition groupCore {LanguageNode : Type}
  (group : OverloadedFunctionDetails LanguageNode)
  : list (OverloadedFunction LanguageNode) * nat * option TypeNode :=
  (overloadedFunctions group, composite_ref (inference group),
   sameOutputType group).

(** The type nodes of the graph are identified by their references. *)
Definition referencesIdentify (g : TypeGraph) (t : TypeNode) : Prop :=
  forall existing, In existing (nodes g) -> ref existing = ref t -> existing = t.

(** ** The checks of operator-overloaded.test.ts *)

(** [edge.$relation]. *)
Definition relationName (e : TypeEdge) : string :=
  match edge_relation e with
  | SubTypeEdge => "SubTypeEdge"
  | ConversionEdge _ => "ConversionEdge"
  end.

(** [new AssignmentStatement(left, right)]. *)
Record AssignmentStatement : Type := mkAssignmentStatement {
  assignment_left : TestExpressionNode;
  assignment_right : TestExpressionNode
}.

(** Modelled from the spec: [Constraints.ensureNodeIsAssignable(actual,
    expected, message)] infers the types of the two nodes and reports
    the message when the first is not assignable to the second. *)
Definition ensureNodeIsAssignable (w : World TestExpressionNode)
  (sourceNode expected : TestExpressionNode)
  (message : TypeNode -> TypeNode -> string) : list string :=
  match inferTypeIn 3 w sourceNode, inferTypeIn 3 w expected with
  | InferredType actualType, InferredType expectedType =>
      if isAssignable (world_graph w) actualType expectedType then []
      else [message actualType expectedType]
  | _, _ => []
  end.

(** The validation rule the test registers, applied to an assignment. *)
Definition validateAssignment (w : World TestExpressionNode)
  (node : AssignmentStatement) : list string :=
  ensureNodeIsAssignable w (assignment_right node) (assignment_left node)
    (fun actual expected =>
       "The type '" +:+ getIdentifier actual
       +:+ "' is not assignable to the type '" +:+ getIdentifier expected
       +:+ "'.").

(** [String.prototype.includes]. *)
Definition includes (text searched : string) : bool :=
  match String.index 0 searched text with
  | Some _ => true
  | None => false
  end.

(** The loop of [expectAssignmentValid] over the path: the path is as
    long as expected, every edge has the expected relation, and from
    the second edge on every edge starts where the previous one ends. *)
Fixpoint pathIsAsExpected (previous : option TypeEdge)
  (actualPath : list TypeEdge) (expectedPath : list string) : bool :=
  match actualPath, expectedPath with
  | [], [] => true
  | e :: rest, expected :: expectedRest =>
      String.eqb (relationName e) expected
      && match previous with
         | Some p => sameObject (edge_to p) (edge_from e)
         | None => true
         end
      && pathIsAsExpected (Some e) rest expectedRest
  | _, _ => false
  end.

(** The check of the beginning and the end of the path. *)
Definition endsOfThePath (valueType variableType : TypeNode)
  (actualPath : list TypeEdge) : bool :=
  match actualPath with
  | [] => true
  | first :: _ =>
      sameObject (edge_from first) valueType
      && sameObject (edge_to (List.last actualPath first)) variableType
  end.

(** [expectAssignmentValid(value, variableInitType, ...expectedPath)]. *)
Definition expectAssignmentValid (w : World TestExpressionNode)
  (value variableInitType : TestExpressionNode) (expectedPath : list string)
  : bool :=
  let variable := VariableNode "v1" variableInitType in
  let assignment := mkAssignmentStatement variable value in
  Nat.eqb (length (validateAssignment w assignment)) 0
  && match inferTypeIn 3 w value, inferTypeIn 3 w variable with
     | InferredType valueType, InferredType variableType =>
         match getAssignabilityResult (world_graph w) valueType variableType
         with
         | AssignabilitySuccess actualPath =>
             pathIsAsExpected None actualPath expectedPath
             && endsOfThePath valueType variableType actualPath
         | AssignabilityFailure _ => false
         end
     | _, _ => false
     end.

(** [expectAssignmentError(value, variableInitType)]. *)
Definition expectAssignmentError (w : World TestExpressionNode)
  (value variableInitType : TestExpressionNode) : bool :=
  let variable := VariableNode "v1" variableInitType in
  let assignment := mkAssignmentStatement variable value in
  match validateAssignment w assignment with
  | [error] => includes error "is not assignable to"
  | _ => false
  end.

(** Language nodes of the test that are not defined above. *)
Definition string123 : TestExpressionNode := StringLiteral "123".
Definition string456 : TestExpressionNode := StringLiteral "456".

(** ** Further concrete instances *)

(** An engine whose equality service compares identifiers. *)
Definition identifierTypir : Typir :=
  mkTypir
    (fun t1 t2 =>
       if String.eqb (getIdentifier t1) (getIdentifier t2) then None
       else Some (TypeEqualityProblem t1 t2 []))
    (fun t1 t2 =>
       if String.eqb (getIdentifier t1) (getIdentifier t2) then None
       else Some (SubTypeProblem t2 t1 []))
    (fun t1 t2 =>
       if String.eqb (getIdentifier t1) (getIdentifier t2) then None
       else Some (AssignabilityProblem t1 t2 []))
    getIdentifier.

(** The details of [plus] with a validation of its calls. *)
Definition checkedPlusDetails (operand : TypeNode)
  : CreateFunctionTypeDetails TestExpressionNode :=
  mkCreateFunctionTypeDetails "plus"
    (Some (mkNameTypePair "result" operand))
    [mkNameTypePair "left" operand; mkNameTypePair "right" operand]
    None
    (td_inferenceRuleForCalls (plusDetails operand))
    (Some (fun _ _ => ["checked"])).

(** An engine on which the overload group of [plus] is open. *)
Definition plusEngine : Engine TestExpressionNode :=
  mkEngine primitivesGraph
    {["plus" := mkOverloadedFunctionDetails [] (mkCompositeRule 5 []) None]}
    [mkBoundRule (OverloadedFunctionsTypeInferenceRule 5) None] [] [] 6.

(** An engine on which the object 3 listens to the integer type. *)
Definition watchedEngine : Engine TestExpressionNode :=
  mkEngine primitivesGraph ∅ [] [] [(ref integerType, 3)] 5.

(** [created] returned the single operator [name] with the given output
    type and input parameters: the returned type carries the identifier
    of that signature and, when the graph [w] had no node of that
    identifier, these input and output types; afterwards the function
    kind exists and the returned type is the last function of the
    overload group of [name]. *)
Definition createsTheOperator {DomainElement : Type}
  (w : World DomainElement) (name : string)
  (created : Completion (Multiple TypeNode * World DomainElement))
  (outputType : TypeNode) (inputParameter : list NameTypePair) : Prop :=
  let identifier :=
    calculateFunctionIdentifier name
      (Some (mkNameTypePair FUNCTION_MISSING_NAME outputType))
      inputParameter in
  exists operator w',
    created = Returned (Single operator, w')
    /\ getIdentifier operator = identifier
    /\ (getType (world_graph w) identifier = None ->
        getInputs operator = map pair_type inputParameter
        /\ getOutput operator = Some outputType)
    /\ exists kind group,
         world_functionKind w' = Some kind
         /\ kind !! name = Some group
         /\ option_map details_functionType (last group) = Some operator.


(** ** Definitions for the statements on creation and bookkeeping *)

(** Services whose relations hold between all types and whose printer
    shows a type by its identifier in single quotes. *)
Definition quotingTypir : Typir :=
  mkTypir (fun _ _ => None) (fun _ _ => None) (fun _ _ => None)
    (fun t => "'" +:+ getIdentifier t +:+ "'").

(** A primitive type that holds the name ['never'], and the bottom
    kind after its [createBottomType] on an engine whose graph holds
    that primitive. *)
Definition neverPrimitive : TypeNode := PrimitiveType 1 "never".

Definition createdBesideNeverPrimitive
  : TypeNode * BottomKind * TypirState TestExpressionNode :=
  createBottomType (newBottomKind None)
    (mkTypirState (fst (addNode emptyGraph neverPrimitive)) [] 2)
    (mkBottomTypeDetails None).

(** [rules] holds a rule object for exactly those rules that the type
    details give. *)
Definition rulesMirrorDetails {LanguageNode : Type}
  (rules : FunctionInferenceRules LanguageNode)
  (details : CreateFunctionTypeDetails LanguageNode) : Prop :=
  isSome (inferenceForCall rules) = isSome (td_inferenceRuleForCalls details)
  /\ isSome (validationForCall rules)
     = isSome (td_validationForCall details)
  /\ isSome (inferenceForDeclaration rules)
     = isSome (td_inferenceRuleForDeclaration details).

(** The rule objects of [fresh] are other objects than those of
    [old]. *)
Definition otherRuleObjects {LanguageNode : Type}
  (old fresh : FunctionInferenceRules LanguageNode) : Prop :=
  forall oldRule freshRule,
    inferenceForCall old = Some oldRule
    \/ validationForCall old = Some oldRule
    \/ inferenceForDeclaration old = Some oldRule ->
    inferenceForCall fresh = Some freshRule
    \/ validationForCall fresh = Some freshRule
    \/ inferenceForDeclaration fresh = Some freshRule ->
    ruleRef oldRule <> ruleRef freshRule.

(** An engine whose graph already holds the function type
    [plus(left: integer, right: integer): integer]. *)
Definition existingPlus : TypeNode :=
  newFunctionType exampleFunctionKind (plusDetails integerType) 5.

Definition engineWithPlus : Engine TestExpressionNode :=
  mkEngine (fst (addNode primitivesGraph existingPlus)) ∅ [] [] [] 6.

(** The bookkeeping of [onSwitchedToIdentifiable] for the given
    functions one after the other, each with its type details. *)
Definition rememberFunctions {LanguageNode : Type}
  (services : TypirServices) (kind : FunctionKind LanguageNode)
  (registrations : list (CreateFunctionTypeDetails LanguageNode * TypeNode))
  (group : OverloadedFunctionDetails LanguageNode)
  : OverloadedFunctionDetails LanguageNode :=
  fold_left
    (fun overloaded registration =>
       rememberFunction services kind (fst registration) (snd registration)
         overloaded)
    registrations group.

(** The equality of types is reflexive, symmetric and transitive. *)
Definition equalityIsEquivalence (services : TypirServices) : Prop :=
  (forall t, Equality_areTypesEqual services t t = true)
  /\ (forall t1 t2, Equality_areTypesEqual services t1 t2 = true ->
                    Equality_areTypesEqual services t2 t1 = true)
  /\ (forall t1 t2 t3,
         Equality_areTypesEqual services t1 t2 = true ->
         Equality_areTypesEqual services t2 t3 = true ->
         Equality_areTypesEqual services t1 t3 = true).
(** * Properties *)

(** ** Path search *)

Lemma expandNode_reaches (steps path : list TypeEdge) :
  forall (visited : list nat) (e : TypeEdge),
    In e steps ->
    wasVisited visited (edge_to e) = false ->
    exists item, In item (fst (expandNode steps path visited))
                 /\ ref (fst item) = ref (edge_to e).
Proof.
  induction steps as [|e0 rest IH]; intros visited e Hin Hfresh.
  - destruct Hin.
  - simpl. destruct (wasVisited visited (edge_to e0)) eqn:Hv0.
    + destruct Hin as [-> | Hin]; [congruence | eauto].
    + destruct (expandNode rest path (ref (edge_to e0) :: visited))
        as [items visited'] eqn:Hrest.
      simpl.
      destruct (Nat.eqb (ref (edge_to e)) (ref (edge_to e0))) eqn:Hsame.
      * apply Nat.eqb_eq in Hsame.
        exists (edge_to e0, path ++ [e0]). split; [now left | now simpl].
      * destruct Hin as [-> | Hin].
        { rewrite Nat.eqb_refl in Hsame. discriminate. }
        destruct (IH (ref (edge_to e0) :: visited) e Hin) as [item [Hi Hr]].
        { unfold wasVisited in *. simpl. rewrite Hsame. exact Hfresh. }
        rewrite Hrest in Hi. exists item. split; [now right | exact Hr].
Qed.

Lemma find_some_of_In {A : Type} (p : A -> bool) (l : list A) (x : A) :
  In x l -> p x = true -> exists y, List.find p l = Some y.
Proof.
  induction l as [|a l IH]; intros Hin Hp; [destruct Hin|].
  simpl. destruct (p a) eqn:Hpa; [eauto|].
  destruct Hin as [-> | Hin]; [congruence | eauto].
Qed.

(** A direct edge is found by the search as soon as one level may be
    expanded. *)
Lemma direct_edge_is_found (g : TypeGraph) (label : TypeEdge -> bool)
  (e : TypeEdge) (from to : TypeNode) :
  In e (edges g) ->
  label e = true ->
  sameObject (edge_from e) from = true ->
  sameObject (edge_to e) to = true ->
  nodes g <> [] ->
  existsEdgePath g (outgoing g label) from to = true.
Proof.
  intros Hin Hlabel Hfrom Hto Hnodes.
  unfold existsEdgePath, getEdgePath.
  destruct (nodes g) as [|n0 ns] eqn:Hn; [congruence|]. clear Hnodes.
  cbn [length searchPath List.find fst snd].
  destruct (sameObject from to) eqn:Hft; [reflexivity|].
  cbn [expandFrontier].
  destruct (expandNode (outgoing g label from) [] [ref from])
    as [items visited1] eqn:Hexp.
  assert (Hreach : exists item, In item items /\ ref (fst item) = ref (edge_to e)).
  { pose proof (expandNode_reaches (outgoing g label from) [] [ref from] e) as H.
    rewrite Hexp in H. apply H.
    - unfold outgoing. apply filter_In. split; [exact Hin|].
      now rewrite Hfrom, Hlabel.
    - unfold wasVisited. simpl. rewrite orb_false_r.
      unfold sameObject in *. apply Nat.eqb_eq in Hto.
      rewrite Hto. rewrite Nat.eqb_sym. exact Hft. }
  destruct Hreach as [item [Hitem Hr]].
  cbn [expandFrontier]. rewrite app_nil_r.
  destruct items as [|i0 is0]; [destruct Hitem|].
  destruct (find_some_of_In (fun it => sameObject (fst it) to) (i0 :: is0) item
              Hitem) as [y Hy].
  { unfold sameObject in *. rewrite Hr. exact Hto. }
  destruct ns; cbn [searchPath length]; rewrite Hy; reflexivity.
Qed.

(** ** The bottom type listens to the graph *)

Lemma sameObject_sym (a b : TypeNode) : sameObject a b = sameObject b a.
Proof. unfold sameObject. apply Nat.eqb_sym. Qed.

Lemma sameObject_refl (a : TypeNode) : sameObject a a = true.
Proof. unfold sameObject. apply Nat.eqb_refl. Qed.

(** With the cycle check switched off the edge is always added. *)
Lemma markAsSubType_unchecked (g : TypeGraph) (a b : TypeNode) :
  markAsSubType g a b (Some (mkMarkAsSubTypeOptions (Some false)))
  = (addEdge g (mkTypeEdge a b SubTypeEdge), None).
Proof. reflexivity. Qed.

Lemma BottomType_markAsSubType_other (this t : TypeNode) (g : TypeGraph) :
  sameObject t this = false ->
  BottomType_markAsSubType this t g
  = addEdge g (mkTypeEdge this t SubTypeEdge).
Proof.
  intros H. unfold BottomType_markAsSubType. rewrite H. reflexivity.
Qed.

Lemma BottomType_markAsSubType_self (this t : TypeNode) (g : TypeGraph) :
  sameObject t this = true -> BottomType_markAsSubType this t g = g.
Proof.
  intros H. unfold BottomType_markAsSubType. rewrite H. reflexivity.
Qed.

Lemma edgesAdded_refl (g : TypeGraph) : edgesAdded g g.
Proof. repeat split; auto using incl_refl. Qed.

Lemma edgesAdded_trans (g1 g2 g3 : TypeGraph) :
  edgesAdded g1 g2 -> edgesAdded g2 g3 -> edgesAdded g1 g3.
Proof.
  intros (N1 & L1 & I1 & P1) (N2 & L2 & I2 & P2).
  repeat split; try congruence.
  - eapply incl_tran; eauto.
  - intros e He. destruct (P2 e He) as [H|H]; auto.
Qed.

Lemma BottomType_markAsSubType_edgesAdded (this t : TypeNode) (g : TypeGraph) :
  edgesAdded g (BottomType_markAsSubType this t g).
Proof.
  destruct (sameObject t this) eqn:H.
  - rewrite BottomType_markAsSubType_self by exact H. apply edgesAdded_refl.
  - rewrite BottomType_markAsSubType_other by exact H.
    repeat split; simpl; auto using incl_appl, incl_refl.
    intros e He. apply in_app_or in He. destruct He as [He|[<-|[]]]; auto.
    right. simpl. now rewrite sameObject_sym.
Qed.

(** The loop of the constructor over the registered types. *)
Lemma mark_all_types (this : TypeNode) (ts : list TypeNode) :
  forall g,
    let g' := fold_left (fun g0 t => BottomType_markAsSubType this t g0) ts g in
    edgesAdded g g'
    /\ forall t, In t ts -> sameObject t this = false ->
         In (mkTypeEdge this t SubTypeEdge) (edges g').
Proof.
  induction ts as [|t0 ts IH]; intros g; simpl.
  - split; [apply edgesAdded_refl | intros t []].
  - destruct (IH (BottomType_markAsSubType this t0 g)) as [Hadd Hall].
    pose proof (BottomType_markAsSubType_edgesAdded this t0 g) as H0.
    split; [eapply edgesAdded_trans; eauto|].
    intros t [<-|Hin] Hne; [|auto].
    destruct Hadd as (_ & _ & Hincl & _). apply Hincl.
    rewrite BottomType_markAsSubType_other by exact Hne.
    simpl. apply in_or_app. right. now left.
Qed.

(** The notification of the listeners about one added type. *)
Lemma notify_all_listeners (t : TypeNode) (key : string)
  (ls : list TypeNode) :
  forall g,
    let g' := fold_left
                (fun g0 listener => BottomType_onAddedType listener t key g0)
                ls g in
    edgesAdded g g'
    /\ forall l, In l ls -> sameObject t l = false ->
         In (mkTypeEdge l t SubTypeEdge) (edges g').
Proof.
  induction ls as [|l0 ls IH]; intros g; simpl.
  - split; [apply edgesAdded_refl | intros l []].
  - destruct (IH (BottomType_onAddedType l0 t key g)) as [Hadd Hall].
    pose proof (BottomType_markAsSubType_edgesAdded l0 t g) as H0.
    split; [eapply edgesAdded_trans; eauto|].
    intros l [<-|Hin] Hne; [|auto].
    destruct Hadd as (_ & _ & Hincl & _). apply Hincl.
    unfold BottomType_onAddedType.
    rewrite BottomType_markAsSubType_other by exact Hne.
    simpl. apply in_or_app. right. now left.
Qed.

Lemma newBottomType_establishes (r : nat) (identifier : string)
  (g : TypeGraph) :
  bottomBelowAll (fst (newBottomType r identifier g))
    (snd (newBottomType r identifier g)).
Proof.
  unfold newBottomType, bottomBelowAll. cbn [fst snd].
  destruct (mark_all_types (BottomType r identifier)
              (getAllRegisteredTypes g) g) as [(N & L & I & P) Hall].
  split.
  - simpl. apply in_or_app. right. now left.
  - simpl. intros t Ht Hne. apply Hall; [|exact Hne].
    rewrite N in Ht. exact Ht.
Qed.

Lemma addNode_keeps (b : TypeNode) (g : TypeGraph) (t : TypeNode) :
  bottomBelowAll b g -> bottomBelowAll b (fst (addNode g t)).
Proof.
  intros [Hl Hedges]. unfold addNode.
  destruct (getType g (getIdentifier t)) as [existing|]; [now split|].
  cbn [fst listeners].
  destruct (notify_all_listeners t (getIdentifier t) (listeners g)
              (mkTypeGraph (nodes g ++ [t]) (edges g) (listeners g)))
    as [(N & L & I & P) Hall].
  split.
  - rewrite L. exact Hl.
  - intros t' Ht' Hne. rewrite N in Ht'. simpl in Ht'.
    apply in_app_or in Ht'. destruct Ht' as [Hold|[<-|[]]].
    + apply I. simpl. auto.
    + apply Hall; assumption.
Qed.

Lemma applyOperation_keeps (b : TypeNode) (g : TypeGraph)
  (op : GraphOperation) :
  bottomBelowAll b g -> bottomBelowAll b (applyOperation g op).
Proof.
  intros H. destruct op as [t|sub sup options|from to mode]; simpl.
  - now apply addNode_keeps.
  - destruct H as [Hl Hedges]. unfold markAsSubType.
    match goal with |- context [if ?c then _ else _] => destruct c end;
      simpl; split; auto.
    intros t Ht Hne. apply in_or_app. left. auto.
  - destruct H as [Hl Hedges]. split; simpl; auto.
    intros t Ht Hne. apply in_or_app. left. auto.
Qed.

Lemma applyOperations_keeps (b : TypeNode) (ops : list GraphOperation) :
  forall g, bottomBelowAll b g -> bottomBelowAll b (applyOperations g ops).
Proof.
  induction ops as [|op ops IH]; intros g H; simpl; [exact H|].
  apply IH. now apply applyOperation_keeps.
Qed.

(** Adding nodes only: no edge from an object to itself appears. *)
Lemma addNode_edgesAdded (g : TypeGraph) (t : TypeNode) :
  incl (edges g) (edges (fst (addNode g t)))
  /\ forall e, In e (edges (fst (addNode g t))) ->
       In e (edges g) \/ sameObject (edge_from e) (edge_to e) = false.
Proof.
  unfold addNode.
  destruct (getType g (getIdentifier t)) as [existing|].
  - split; [apply incl_refl | auto].
  - cbn [fst listeners].
    destruct (notify_all_listeners t (getIdentifier t) (listeners g)
                (mkTypeGraph (nodes g ++ [t]) (edges g) (listeners g)))
      as [(N & L & I & P) _].
    split; [exact I | exact P].
Qed.

Lemma addNodes_no_self_edge (ts : list TypeNode) :
  forall g e, In e (edges (addNodes g ts)) ->
    In e (edges g) \/ sameObject (edge_from e) (edge_to e) = false.
Proof.
  induction ts as [|t ts IH]; intros g e He; simpl in He; [auto|].
  destruct (IH _ _ He) as [H|H]; [|auto].
  now apply addNode_edgesAdded in H.
Qed.

(** C1: once the bottom type is constructed on any graph [g], it is a
    subtype of every type of the graph, also of the types added by any
    later operations: every node other than the bottom type has a
    subtype edge from the bottom type.  The edge is added without any
    cycle check (marking is [addEdge], whatever the graph), the bottom
    type adds no edge to itself, and adding nodes never produces an edge
    from an object to itself. *)
Theorem bottom_is_subtype_of_every_type
  (g : TypeGraph) (r : nat) (identifier : string) :
  let bottom := fst (newBottomType r identifier g) in
  let g0 := snd (newBottomType r identifier g) in
  (forall (ops : list GraphOperation) (t : TypeNode),
      In t (nodes (applyOperations g0 ops)) ->
      isSubType (applyOperations g0 ops) bottom t = true
      /\ (sameObject t bottom = false ->
          In (mkTypeEdge bottom t SubTypeEdge)
            (edges (applyOperations g0 ops))))
  /\ (forall (g1 : TypeGraph) (t : TypeNode),
        sameObject t bottom = false ->
        BottomType_onAddedType bottom t (getIdentifier t) g1
        = addEdge g1 (mkTypeEdge bottom t SubTypeEdge))
  /\ (forall g1 : TypeGraph,
        BottomType_onAddedType bottom bottom (getIdentifier bottom) g1 = g1)
  /\ (forall (ts : list TypeNode) (e : TypeEdge),
        In e (edges (addNodes g0 ts)) ->
        sameObject (edge_from e) (edge_to e) = true ->
        In e (edges g)).
Proof.
  intros bottom g0.
  pose proof (newBottomType_establishes r identifier g) as Hinv.
  fold bottom g0 in Hinv.
  split; [|split; [|split]].
  - intros ops t Ht.
    destruct (applyOperations_keeps bottom ops g0 Hinv) as [_ Hedges].
    assert (Hedge : sameObject t bottom = false ->
                    In (mkTypeEdge bottom t SubTypeEdge)
                      (edges (applyOperations g0 ops))) by auto.
    split; [|exact Hedge].
    unfold isSubType. subst bottom. cbn [newBottomType fst] in *.
    cbn [getSubTypeProblem].
    destruct (sameObject (BottomType r identifier) t) eqn:Hsame;
      [reflexivity|].
    rewrite (direct_edge_is_found _ isSubTypeEdge
               (mkTypeEdge (BottomType r identifier) t SubTypeEdge)).
    + reflexivity.
    + apply Hedge. now rewrite sameObject_sym.
    + reflexivity.
    + apply sameObject_refl.
    + apply sameObject_refl.
    + intros Hnil. rewrite Hnil in Ht. destruct Ht.
  - intros g1 t Hne. unfold BottomType_onAddedType.
    now apply BottomType_markAsSubType_other.
  - intros g1. unfold BottomType_onAddedType.
    apply BottomType_markAsSubType_self, sameObject_refl.
  - intros ts e He Hself.
    destruct (addNodes_no_self_edge ts g0 e He) as [H|H]; [|congruence].
    subst g0. unfold newBottomType in H. cbn [snd] in H. simpl in H.
    destruct (mark_all_types (BottomType r identifier)
                (getAllRegisteredTypes g) g) as [(_ & _ & _ & P) _].
    destruct (P e H) as [H'|H']; [exact H' | congruence].
Qed.

(** ** Order of inference rules *)

Section InferenceOrder.

Context {DomainElement : Type}.
Implicit Types (registry before between after : list (RegisteredRule DomainElement)).
Implicit Types (entry : RegisteredRule DomainElement).

Lemma tryRules_first_answer inferChild node entry (t : TypeNode) after :
  fst (executeSingleInferenceRule inferChild entry node) = Some t ->
  forall before index collected,
    Forall (noFinalAnswer inferChild node) before ->
    tryRules inferChild (before ++ entry :: after) node index collected
    = (InferredType t, seq index (S (length before))).
Proof.
  intros Hentry. induction before as [|e0 before IH];
    intros index collected Hbefore; simpl.
  - destruct (executeSingleInferenceRule inferChild entry node)
      as [[t'|] ps]; simpl in Hentry; congruence.
  - inversion Hbefore as [|? ? H0 Hrest]; subst.
    unfold noFinalAnswer in H0.
    destruct (executeSingleInferenceRule inferChild e0 node)
      as [[t'|] ps]; simpl in H0; [discriminate|].
    rewrite (IH (S index) (collected ++ ps) Hrest). reflexivity.
Qed.

Lemma bottomRuleLoop_first_match (bottomType : TypeNode)
  (domainElement : DomainElement)
  (inferenceRule : InferBottomType DomainElement)
  (after : list (InferBottomType DomainElement)) :
  inferenceRule domainElement = true ->
  forall before : list (InferBottomType DomainElement),
    Forall (fun r => r domainElement = false) before ->
    bottomRuleLoop (before ++ inferenceRule :: after) bottomType
      domainElement
    = (RuleType bottomType, S (length before)).
Proof.
  intros Hr. induction before as [|r0 before IH]; intros Hbefore; simpl.
  - now rewrite Hr.
  - inversion Hbefore as [|? ? H0 Hrest]; subst.
    rewrite H0, (IH Hrest). reflexivity.
Qed.

End InferenceOrder.

(** C8: the dispatcher tries the rules in registration order and the
    first final answer wins.  If two registered rules give a final
    answer for a node ([t1] by the earlier, [t2] by the later one) and no
    rule registered before the earlier one does, the answer is [t1] and
    exactly the rules up to the earlier one were evaluated: the later
    rule, at position [length before + 1 + length between], was not.
    The loop over the rules given for the bottom type behaves the same:
    it stops at the first rule that matches. *)
Theorem earlier_registered_rule_wins {DomainElement : Type} :
  (forall (depth : nat)
      (before between after : list (RegisteredRule DomainElement))
      (earlier later : RegisteredRule DomainElement)
      (node : DomainElement) (t1 t2 : TypeNode),
      let registry := before ++ earlier :: between ++ later :: after in
      let inferChild := fun child => inferType depth registry child in
      Forall (noFinalAnswer inferChild node) before ->
      fst (executeSingleInferenceRule inferChild earlier node) = Some t1 ->
      fst (executeSingleInferenceRule inferChild later node) = Some t2 ->
      inferTypeTraced (S depth) registry node
      = (InferredType t1, seq 0 (S (length before))))
  /\ (forall (before after : list (InferBottomType DomainElement))
        (first : InferBottomType DomainElement)
        (bottomType : TypeNode) (domainElement : DomainElement),
        Forall (fun r => r domainElement = false) before ->
        first domainElement = true ->
        bottomRuleLoop (before ++ first :: after) bottomType domainElement
        = (RuleType bottomType, S (length before))).
Proof.
  split.
  - intros depth before between after earlier later node t1 t2
      registry inferChild Hbefore Hearlier _.
    subst registry. cbn [inferTypeTraced].
    now apply tryRules_first_answer.
  - intros before after first bottomType domainElement Hbefore Hfirst.
    now apply bottomRuleLoop_first_match.
Qed.

(** ** The bottom type is a singleton *)

Lemma find_app_none {A : Type} (p : A -> bool) (l1 l2 : list A) :
  List.find p l1 = None -> List.find p (l1 ++ l2) = List.find p l2.
Proof.
  induction l1 as [|a l1 IH]; simpl; [reflexivity|].
  destruct (p a); [discriminate | exact IH].
Qed.

Lemma addNode_fresh (g : TypeGraph) (t : TypeNode) :
  getType g (getIdentifier t) = None ->
  nodes (fst (addNode g t)) = nodes g ++ [t]
  /\ getType (fst (addNode g t)) (getIdentifier t) = Some t
  /\ snd (addNode g t) = t.
Proof.
  intros Hfree. unfold addNode. rewrite Hfree. cbn [fst snd listeners].
  destruct (notify_all_listeners t (getIdentifier t) (listeners g)
              (mkTypeGraph (nodes g ++ [t]) (edges g) (listeners g)))
    as [(N & _) _].
  repeat split; [exact N|].
  unfold getType in *. rewrite N. simpl.
  rewrite find_app_none by exact Hfree. simpl.
  now rewrite String.eqb_refl.
Qed.

Lemma addNode_duplicate (g : TypeGraph) (t existing : TypeNode) :
  getType g (getIdentifier t) = Some existing ->
  addNode g t = (g, existing).
Proof. intros H. unfold addNode. now rewrite H. Qed.

(** The first creation on an engine where the name is free. *)
Lemma createBottomType_first {DomainElement : Type}
  (this : BottomKind) (typir : TypirState DomainElement)
  (typeDetails : BottomTypeDetails DomainElement) :
  instance this = None ->
  getType (typir_graph typir) (bottom_name (bottomKind_options this)) = None ->
  let '(b, this', typir') := createBottomType this typir typeDetails in
  instance this' = Some b
  /\ bottomKind_options this' = bottomKind_options this
  /\ getType (typir_graph typir') (bottom_name (bottomKind_options this'))
     = Some b
  /\ nodes (typir_graph typir') = nodes (typir_graph typir) ++ [b].
Proof.
  intros Hnone Hfree. unfold createBottomType. rewrite Hnone.
  cbn [instance bottomKind_options typir_graph].
  unfold BottomKind_calculateIdentifier.
  destruct (addNode_fresh (typir_graph typir)
              (BottomType (typir_nextRef typir)
                 (bottom_name (bottomKind_options this))) Hfree)
    as (N & G & _).
  repeat split; [exact G | exact N].
Qed.

(** ** Assignability paths *)

Lemma pathConnects_snoc (e : TypeEdge) (n : TypeNode) (path : list TypeEdge) :
  forall a,
    pathConnects a path n = true ->
    sameObject (edge_from e) n = true ->
    pathConnects a (path ++ [e]) (edge_to e) = true.
Proof.
  induction path as [|e0 path IH]; intros a Hp He; simpl in *.
  - rewrite sameObject_refl, andb_true_r.
    unfold sameObject in *. apply Nat.eqb_eq in Hp, He.
    apply Nat.eqb_eq. congruence.
  - apply andb_prop in Hp. destruct Hp as [H0 Hp].
    rewrite H0. simpl. now apply IH.
Qed.

Lemma pathConnects_same_end (path : list TypeEdge) (n to : TypeNode) :
  forall a,
    pathConnects a path n = true -> sameObject n to = true ->
    pathConnects a path to = true.
Proof.
  induction path as [|e0 path IH]; intros a Hp Hn; simpl in *.
  - unfold sameObject in *. apply Nat.eqb_eq in Hp, Hn.
    apply Nat.eqb_eq. congruence.
  - apply andb_prop in Hp. destruct Hp as [H0 Hp].
    rewrite H0. simpl. now apply IH.
Qed.

Lemma expandNode_items (steps path : list TypeEdge) :
  forall visited item,
    In item (fst (expandNode steps path visited)) ->
    exists e, In e steps /\ item = (edge_to e, path ++ [e]).
Proof.
  induction steps as [|e0 steps IH]; intros visited item Hin; simpl in Hin.
  - destruct Hin.
  - destruct (wasVisited visited (edge_to e0)).
    + destruct (IH _ _ Hin) as [e [He Heq]]. exists e. split; [now right|auto].
    + destruct (expandNode steps path (ref (edge_to e0) :: visited))
        as [items visited'] eqn:Hrest.
      simpl in Hin. destruct Hin as [<-|Hin].
      * exists e0. split; [now left|reflexivity].
      * pose proof (IH (ref (edge_to e0) :: visited) item) as H.
        rewrite Hrest in H. destruct (H Hin) as [e [He Heq]].
        exists e. split; [now right|auto].
Qed.

Lemma expandFrontier_items (next : TypeNode -> list TypeEdge)
  (frontier : list PathItem) :
  forall visited item,
    In item (fst (expandFrontier next frontier visited)) ->
    exists n path e,
      In (n, path) frontier /\ In e (next n)
      /\ item = (edge_to e, path ++ [e]).
Proof.
  induction frontier as [|[n path] frontier IH]; intros visited item Hin;
    simpl in Hin.
  - destruct Hin.
  - destruct (expandNode (next n) path visited) as [items visited1] eqn:H1.
    destruct (expandFrontier next frontier visited1)
      as [items' visited2] eqn:H2.
    simpl in Hin. apply in_app_or in Hin. destruct Hin as [Hin|Hin].
    + pose proof (expandNode_items (next n) path visited item) as H.
      rewrite H1 in H. destruct (H Hin) as [e [He Heq]].
      exists n, path, e. repeat split; [now left|auto|auto].
    + pose proof (IH visited1 item) as H. rewrite H2 in H.
      destruct (H Hin) as (n' & path' & e & Hf & He & Heq).
      exists n', path', e. repeat split; [now right|auto|auto].
Qed.

(** Whatever holds of the start entry and is kept by every step holds of
    the entry that reached the target. *)
Lemma searchPath_invariant (next : TypeNode -> list TypeEdge)
  (target : TypeNode) (P : PathItem -> Prop) :
  (forall n path e, P (n, path) -> In e (next n) ->
                    P (edge_to e, path ++ [e])) ->
  forall maxPathLength frontier visited path,
    (forall item, In item frontier -> P item) ->
    searchPath maxPathLength next target frontier visited = PathFound path ->
    exists n, P (n, path) /\ sameObject n target = true.
Proof.
  intros Hstep. induction maxPathLength as [|k IH];
    intros frontier visited path Hall Hfound; simpl in Hfound.
  - destruct (List.find (fun item => sameObject (fst item) target) frontier)
      as [[n p]|] eqn:Hf; [|discriminate].
    apply find_some in Hf. destruct Hf as [Hin Hsame].
    inversion Hfound; subst. exists n. split; [now apply Hall | exact Hsame].
  - destruct (List.find (fun item => sameObject (fst item) target) frontier)
      as [[n p]|] eqn:Hf.
    + apply find_some in Hf. destruct Hf as [Hin Hsame].
      inversion Hfound; subst. exists n. split; [now apply Hall | exact Hsame].
    + destruct (expandFrontier next frontier visited)
        as [frontier' visited'] eqn:Hexp.
      destruct frontier' as [|i0 rest]; [discriminate|].
      apply (IH _ _ _) in Hfound; [exact Hfound|].
      intros item Hitem.
      pose proof (expandFrontier_items next frontier visited item) as H.
      rewrite Hexp in H. destruct (H Hitem) as (n & p & e & Hin & He & ->).
      apply (Hstep n p e); [now apply Hall | exact He].
Qed.

(** Every path reported by the assignability service leads from the
    source to the target through connected subtype and implicit
    conversion edges of the graph. *)
Lemma assignability_path_sound (g : TypeGraph) (from to : TypeNode)
  (path : list TypeEdge) :
  getAssignabilityResult g from to = AssignabilitySuccess path ->
  pathConnects from path to = true /\ Forall (isAssignabilityEdge g) path.
Proof.
  unfold getAssignabilityResult, getEdgePath. intros H.
  destruct (searchPath (length (nodes g)) (assignabilitySteps g) to
              [(from, [])] [ref from]) as [p|frontier] eqn:Hsearch;
    [|discriminate].
  inversion H; subst. clear H.
  destruct (searchPath_invariant (assignabilitySteps g) to
              (fun item => pathConnects from (snd item) (fst item) = true
                           /\ Forall (isAssignabilityEdge g) (snd item)))
    with (maxPathLength := length (nodes g)) (frontier := [(from, @nil TypeEdge)])
         (visited := [ref from]) (path := path) as [n [[Hc Hf] Hsame]].
  - intros n p e [Hc Hf] He. simpl in *.
    unfold assignabilitySteps, outgoing in He.
    apply in_app_or in He.
    assert (Hedge : In e (edges g) /\ sameObject (edge_from e) n = true
                    /\ (isSubTypeEdge e || isImplicitConversionEdge e) = true).
    { destruct He as [He|He]; apply filter_In in He; destruct He as [Hin Hb];
        apply andb_prop in Hb; destruct Hb as [Hfrom Hlabel];
        rewrite Hlabel; repeat split; auto using orb_true_r. }
    destruct Hedge as (Hin & Hfrom & Hlabel). split.
    + now apply pathConnects_snoc with (n := n).
    + apply Forall_app. split; [exact Hf|]. constructor; [|constructor].
      split; assumption.
  - intros item [<-|[]]. simpl. split; [apply sameObject_refl | constructor].
  - exact Hsearch.
  - simpl in *. split; [|exact Hf].
    now apply pathConnects_same_end with (n := n).
Qed.

Lemma assignability_reflexive (g : TypeGraph) (t : TypeNode) :
  getAssignabilityResult g t t = AssignabilitySuccess [].
Proof.
  unfold getAssignabilityResult, getEdgePath.
  destruct (length (nodes g)); simpl; now rewrite sameObject_refl.
Qed.

(** C3: in the scenario of the four primitives with boolean
    convertible to integer, integer a subtype of double and double
    convertible to string, boolean is assignable to string along
    exactly the conversion edge to integer, the subtype edge to double
    and the conversion edge to string, connected end to end; string is
    not assignable to boolean; the graph of the test, which also holds
    the four signatures of ['+'], gives the same path; every type is
    assignable to itself along the empty path. *)
Theorem assignability_along_the_conversion_chain :
  getAssignabilityResult conversionChainGraph booleanType stringType
  = AssignabilitySuccess
      [ mkTypeEdge booleanType integerType (ConversionEdge IMPLICIT_EXPLICIT);
        mkTypeEdge integerType doubleType SubTypeEdge;
        mkTypeEdge doubleType stringType (ConversionEdge IMPLICIT_EXPLICIT) ]
  /\ pathConnects booleanType
       [ mkTypeEdge booleanType integerType (ConversionEdge IMPLICIT_EXPLICIT);
         mkTypeEdge integerType doubleType SubTypeEdge;
         mkTypeEdge doubleType stringType (ConversionEdge IMPLICIT_EXPLICIT) ]
       stringType = true
  /\ (exists subProblems,
         getAssignabilityResult conversionChainGraph stringType booleanType
         = AssignabilityFailure
             (AssignabilityProblem stringType booleanType subProblems))
  /\ getAssignabilityResult (world_graph testWorld) booleanType stringType
     = getAssignabilityResult conversionChainGraph booleanType stringType
  /\ (forall (g : TypeGraph) (t : TypeNode),
         getAssignabilityResult g t t = AssignabilitySuccess []).
Proof.
  split; [vm_compute; reflexivity|].
  split; [vm_compute; reflexivity|].
  split; [eexists; vm_compute; reflexivity|].
  split; [vm_compute; reflexivity|].
  exact assignability_reflexive.
Qed.

(** ** Fixed-parameters types *)

Lemma isFixedParametersKind_fixed (kind : FixedParameterKind) :
  isFixedParametersKind (KFixedParameter kind) = true.
Proof.
  unfold isFixedParametersKind. cbn.
  destruct (baseName kind); reflexivity.
Qed.

Lemma isFixedParameterType_spec (t : TypeNode) :
  isFixedParameterType t = true
  <-> exists r kind identifier typeValues,
        t = FixedParameterType r kind identifier typeValues.
Proof.
  split.
  - destruct t; try (cbv; discriminate). intros _. eauto.
  - intros (r & kind & identifier & typeValues & ->).
    apply isFixedParametersKind_fixed.
Qed.

Lemma missingOnTheLeft_nil (right : list TypeNode) (i : nat) :
  missingOnTheLeft i right = [] <-> right = [].
Proof. destruct right; simpl; split; congruence. Qed.

(** [checkTypes] finds nothing exactly when the two arrays have the
    same length and the relation holds at every position. *)
Lemma checkTypes_nil (relationToCheck : TypeNode -> TypeNode -> option TypirProblem)
  (left : list TypeNode) :
  forall (i : nat) (right : list TypeNode),
    checkTypesFrom relationToCheck i left right = []
    <-> Forall2 (fun l r => relationToCheck l r = None) left right.
Proof.
  induction left as [|l left IH]; intros i right; simpl.
  - rewrite missingOnTheLeft_nil. split.
    + intros ->. constructor.
    + intros H. now inversion H.
  - destruct right as [|r right].
    + split; [discriminate | intros H; inversion H].
    + destruct (relationToCheck l r) eqn:Hrel.
      * split; [discriminate|]. intros H. inversion H; subst. congruence.
      * rewrite IH. split.
        -- intros H. now constructor.
        -- intros H. now inversion H.
Qed.

Lemma checkValueForConflict_nil (first second location : string) :
  checkValueForConflict first second location = [] <-> first = second.
Proof.
  unfold checkValueForConflict.
  destruct (String.eqb_spec first second); split; congruence.
Qed.

Lemma analyzeSubTypeProblems_same_base (typir : Typir)
  (thisKind subKind superKind : FixedParameterKind)
  (subValues superValues : list TypeNode) :
  baseName subKind = baseName superKind ->
  FixedParameterType_analyzeSubTypeProblems typir thisKind
    subKind subValues superKind superValues
  = checkTypes subValues superValues
      (createTypeCheckStrategy
         (parameterSubtypeCheckingStrategy (options thisKind)) typir).
Proof.
  intros Hbase. unfold FixedParameterType_analyzeSubTypeProblems.
  unfold checkValueForConflict. rewrite Hbase, String.eqb_refl. reflexivity.
Qed.

(** The analysis of part_001 answers a type of another kind with a
    problem value. *)
Lemma analyzeIsSubTypeOf_other_kind (typir : Typir) (r : nat)
  (kind : FixedParameterKind) (identifier : string)
  (typeValues : list TypeNode) (superType : TypeNode) :
  isFixedParameterType superType = false ->
  FixedParameterType_analyzeIsSubTypeOf typir
    (FixedParameterType r kind identifier typeValues) superType
  = [SubTypeProblem superType
       (FixedParameterType r kind identifier typeValues)
       [KindConflict (FixedParameterType r kind identifier typeValues)
          superType]].
Proof.
  intros H. destruct superType; try reflexivity.
  unfold isFixedParameterType in H. cbn [kindOf] in H.
  rewrite isFixedParametersKind_fixed in H. discriminate.
Qed.

Lemma analyzeIsSuperTypeOf_other_kind (typir : Typir) (r : nat)
  (kind : FixedParameterKind) (identifier : string)
  (typeValues : list TypeNode) (subType : TypeNode) :
  isFixedParameterType subType = false ->
  FixedParameterType_analyzeIsSuperTypeOf typir
    (FixedParameterType r kind identifier typeValues) subType
  = [SubTypeProblem (FixedParameterType r kind identifier typeValues)
       subType
       [KindConflict subType
          (FixedParameterType r kind identifier typeValues)]].
Proof.
  intros H. destruct subType; try reflexivity.
  unfold isFixedParameterType in H. cbn [kindOf] in H.
  rewrite isFixedParametersKind_fixed in H. discriminate.
Qed.

(** The kind of fixed-parameters-kind.ts raises instead. *)
Lemma kind_isSubType_raises (this : FixedParametersKindTs.FixedParameterKind)
  (typir : FixedParametersKindTs.Typir)
  (superType subType : FixedParametersKindTs.TypeNode) :
  FixedParametersKindTs.isFixedParametersKind
    (FixedParametersKindTs.kindOf superType)
  && FixedParametersKindTs.isFixedParametersKind
       (FixedParametersKindTs.kindOf subType) = false ->
  FixedParametersKindTs.isSubType this typir superType subType = Thrown "".
Proof.
  intros H. unfold FixedParametersKindTs.isSubType.
  destruct (FixedParametersKindTs.kindOf superType);
    destruct (FixedParametersKindTs.kindOf subType); try reflexivity.
  now rewrite H.
Qed.

Lemma kind_isFixedParametersKind_fixed
  (kind : FixedParametersKindTs.FixedParameterKind) :
  FixedParametersKindTs.isFixedParametersKind
    (FixedParametersKindTs.KFixedParameter kind) = true.
Proof.
  unfold FixedParametersKindTs.isFixedParametersKind. cbn.
  destruct (FixedParametersKindTs.baseName kind); reflexivity.
Qed.

(** For two types of fixed-parameters kinds with the same base name the
    kind compares the parameter types with its strategy. *)
Lemma kind_isSubType_same_base
  (this superKind subKind : FixedParametersKindTs.FixedParameterKind)
  (typir : FixedParametersKindTs.Typir)
  (superType subType : FixedParametersKindTs.TypeNode)
  (superTypes subTypes : list FixedParametersKindTs.TypeNode) :
  FixedParametersKindTs.kindOf superType
  = FixedParametersKindTs.KFixedParameter superKind ->
  FixedParametersKindTs.kindOf subType
  = FixedParametersKindTs.KFixedParameter subKind ->
  FixedParametersKindTs.baseName superKind
  = FixedParametersKindTs.baseName subKind ->
  FixedParametersKindTs.getParameterTypes superKind superType
  = Returned superTypes ->
  FixedParametersKindTs.getParameterTypes subKind subType
  = Returned subTypes ->
  FixedParametersKindTs.isSubType this typir superType subType
  = Returned
      (FixedParametersKindTs.compareTypes superTypes subTypes
         (FixedParametersKindTs.createTypeComparisonStrategy
            (FixedParametersKindTs.subtypeParameterChecking
               (FixedParametersKindTs.options this)) typir)).
Proof.
  intros Hsuper Hsub Hbase Hsupers Hsubs.
  unfold FixedParametersKindTs.isSubType.
  rewrite Hsuper, Hsub, !kind_isFixedParametersKind_fixed, Hbase,
    String.eqb_refl, Hsupers, Hsubs.
  reflexivity.
Qed.

(** C5: two fixed-parameters types with the same base name are
    compared parameter by parameter with the strategy configured for
    the kind: the analysis finds no problem exactly when the parameter
    lists have the same length and the strategy accepts every position;
    the kind of fixed-parameters-kind.ts likewise compares the parameter
    types with its strategy.  With [List<T>] over the primitives and integer a subtype of double,
    [List<integer>] is not a subtype of [List<double>] under
    [EQUAL_TYPE] (the service answers with a [SubTypeProblem]) and is
    one under [SUB_TYPE]. *)
Theorem fixed_parameter_subtype_follows_the_strategy :
  (forall (typir : Typir) (r r' : nat) (kind kind' : FixedParameterKind)
      (identifier identifier' : string) (subValues superValues : list TypeNode),
      baseName kind = baseName kind' ->
      let strategy :=
        createTypeCheckStrategy
          (parameterSubtypeCheckingStrategy (options kind)) typir in
      FixedParameterType_analyzeIsSubTypeOf typir
        (FixedParameterType r kind identifier subValues)
        (FixedParameterType r' kind' identifier' superValues)
      = checkTypes subValues superValues strategy
      /\ (FixedParameterType_analyzeIsSubTypeOf typir
            (FixedParameterType r kind identifier subValues)
            (FixedParameterType r' kind' identifier' superValues) = []
          <-> Forall2 (fun sub sup => strategy sub sup = None)
                subValues superValues))
  /\ (forall (this superKind subKind : FixedParametersKindTs.FixedParameterKind)
        (typir : FixedParametersKindTs.Typir)
        (superType subType : FixedParametersKindTs.TypeNode)
        (superTypes subTypes : list FixedParametersKindTs.TypeNode),
        FixedParametersKindTs.kindOf superType
        = FixedParametersKindTs.KFixedParameter superKind ->
        FixedParametersKindTs.kindOf subType
        = FixedParametersKindTs.KFixedParameter subKind ->
        FixedParametersKindTs.baseName superKind
        = FixedParametersKindTs.baseName subKind ->
        FixedParametersKindTs.getParameterTypes superKind superType
        = Returned superTypes ->
        FixedParametersKindTs.getParameterTypes subKind subType
        = Returned subTypes ->
        FixedParametersKindTs.isSubType this typir superType subType
        = Returned
            (FixedParametersKindTs.compareTypes superTypes subTypes
               (FixedParametersKindTs.createTypeComparisonStrategy
                  (FixedParametersKindTs.subtypeParameterChecking
                     (FixedParametersKindTs.options this)) typir)))
  /\ isSubType conversionChainGraph integerType doubleType = true
  /\ (exists subProblems,
         getSubTypeProblem conversionChainGraph
           (listOf EQUAL_TYPE 10 integerType) (listOf EQUAL_TYPE 11 doubleType)
         = Some (SubTypeProblem (listOf EQUAL_TYPE 11 doubleType)
                   (listOf EQUAL_TYPE 10 integerType) subProblems))
  /\ isSubType conversionChainGraph
       (listOf SUB_TYPE 10 integerType) (listOf SUB_TYPE 11 doubleType)
     = true.
Proof.
  split; [|split; [exact kind_isSubType_same_base|split; [|split]]].
  - intros typir r r' kind kind' identifier identifier' subValues superValues
      Hbase strategy.
    assert (Heq : FixedParameterType_analyzeIsSubTypeOf typir
                    (FixedParameterType r kind identifier subValues)
                    (FixedParameterType r' kind' identifier' superValues)
                  = checkTypes subValues superValues strategy).
    { cbn [FixedParameterType_analyzeIsSubTypeOf].
      now apply analyzeSubTypeProblems_same_base. }
    split; [exact Heq|]. rewrite Heq. apply checkTypes_nil.
  - vm_compute. reflexivity.
  - eexists. vm_compute. reflexivity.
  - vm_compute. reflexivity.
Qed.

(** ** Overload resolution *)

Lemma filter_singleton {A : Type} (p : A -> bool) (l : list A) (x : A) :
  List.filter p l = [x] ->
  In x l /\ p x = true /\ forall y, In y l -> p y = true -> y = x.
Proof.
  intros H.
  assert (Hx : In x (List.filter p l)) by (rewrite H; now left).
  apply filter_In in Hx. destruct Hx as [Hin Hp].
  repeat split; auto.
  intros y Hy Hpy.
  assert (Hy' : In y (List.filter p l)) by (apply filter_In; auto).
  rewrite H in Hy'. destruct Hy' as [<-|[]]. reflexivity.
Qed.

Lemma filter_none {A : Type} (p : A -> bool) (l : list A) :
  (forall y, In y l -> p y = false) -> List.filter p l = [].
Proof.
  induction l as [|a l IH]; intros H; simpl; [reflexivity|].
  rewrite (H a) by now left. apply IH. intros y Hy. apply H. now right.
Qed.

(** Among entries with distinct keys, an entry that satisfies [p] and
    shares its key with every entry that satisfies [p] is the only one
    that [filter] keeps. *)
Lemma filter_unique_key {A : Type} (key : A -> nat) (p : A -> bool)
  (l : list A) (x : A) :
  List.NoDup (map key l) ->
  In x l -> p x = true ->
  (forall y, In y l -> p y = true -> key y = key x) ->
  List.filter p l = [x].
Proof.
  induction l as [|a l IH]; intros Hnodup Hin Hp Hsame; [destruct Hin|].
  simpl in Hnodup. inversion Hnodup as [|? ? Hfresh Hnodup']; subst.
  simpl. destruct (p a) eqn:Hpa.
  - assert (Hka : key a = key x) by (apply Hsame; [now left | exact Hpa]).
    destruct Hin as [->|Hin].
    + f_equal. apply filter_none. intros y Hy.
      destruct (p y) eqn:Hpy; [|reflexivity].
      exfalso. apply Hfresh. rewrite <- (Hsame y (or_intror Hy) Hpy).
      now apply in_map.
    + exfalso. apply Hfresh. rewrite Hka. now apply in_map.
  - destruct Hin as [->|Hin]; [congruence|].
    apply IH; auto. intros y Hy. apply Hsame. now right.
Qed.

Lemma distinctTypes_incl (ts : list TypeNode) (u : TypeNode) :
  In u (distinctTypes ts) -> In u ts.
Proof.
  induction ts as [|t ts IH]; simpl; [auto|].
  destruct (existsb (sameObject t) ts); simpl; intuition.
Qed.

Lemma distinctTypes_NoDup (ts : list TypeNode) :
  List.NoDup (map ref (distinctTypes ts)).
Proof.
  induction ts as [|t ts IH]; simpl; [constructor|].
  destruct (existsb (sameObject t) ts) eqn:Hdup; [exact IH|].
  simpl. constructor; [|exact IH].
  intros Hin. apply in_map_iff in Hin. destruct Hin as (u & Href & Hu).
  apply distinctTypes_incl in Hu.
  assert (Hex : existsb (sameObject t) ts = true).
  { apply existsb_exists. exists u. split; [exact Hu|].
    unfold sameObject. apply Nat.eqb_eq. congruence. }
  congruence.
Qed.

Lemma applicableCandidates_keys (g : TypeGraph) (arguments : list TypeNode)
  (candidates : list TypeNode) (r : nat) :
  In r (map (fun x : Candidate => ref (fst x))
          (applicableCandidates g arguments candidates)) ->
  In r (map ref candidates).
Proof.
  induction candidates as [|f rest IH]; simpl; [auto|].
  destruct (argumentCosts g arguments (getInputs f)); simpl; intuition.
Qed.

Lemma applicableCandidates_NoDup (g : TypeGraph) (arguments : list TypeNode)
  (candidates : list TypeNode) :
  List.NoDup (map ref candidates) ->
  List.NoDup (map (fun x : Candidate => ref (fst x))
           (applicableCandidates g arguments candidates)).
Proof.
  induction candidates as [|f rest IH]; simpl; intros H; [constructor|].
  inversion H as [|? ? Hfresh Hrest]; subst.
  destruct (argumentCosts g arguments (getInputs f)); simpl; [|auto].
  constructor; [|auto].
  intros Hin. apply Hfresh. eapply applicableCandidates_keys. exact Hin.
Qed.

(** The best match is a candidate that dominates all others, and the
    only such candidate. *)
Lemma resolveOverload_best (g : TypeGraph)
  (candidates arguments : list TypeNode) (f : TypeNode) :
  let applicable :=
    applicableCandidates g arguments (distinctTypes candidates) in
  resolveOverload g candidates arguments = BestMatch f ->
  exists costs,
    In (f, costs) applicable
    /\ dominatesAllOthers applicable (f, costs) = true
    /\ forall y, In y applicable ->
         dominatesAllOthers applicable y = true -> y = (f, costs).
Proof.
  intros applicable. unfold resolveOverload. fold applicable.
  destruct (List.filter (dominatesAllOthers applicable) applicable)
    as [|[best costs] [|second rest]] eqn:Hfilter; try discriminate.
  intros H. inversion H; subst. exists costs.
  now apply filter_singleton.
Qed.

(** A candidate that dominates all others, when every candidate that
    does so is that same function, is chosen. *)
Lemma resolveOverload_chooses (g : TypeGraph)
  (candidates arguments : list TypeNode) (x : Candidate) :
  let applicable :=
    applicableCandidates g arguments (distinctTypes candidates) in
  In x applicable ->
  dominatesAllOthers applicable x = true ->
  (forall y, In y applicable -> dominatesAllOthers applicable y = true ->
             sameObject (fst y) (fst x) = true) ->
  resolveOverload g candidates arguments = BestMatch (fst x).
Proof.
  intros applicable Hin Hbest Hsame. unfold resolveOverload. fold applicable.
  rewrite (filter_unique_key (fun y : Candidate => ref (fst y))
             (dominatesAllOthers applicable) applicable x); auto.
  - apply applicableCandidates_NoDup, distinctTypes_NoDup.
  - intros y Hy Hpy. apply Nat.eqb_eq. now apply Hsame.
Qed.

(** C4: with the four signatures of ['+'] over the primitives and the
    relations of the test, inference picks the unique dominating
    signature: integer + string is a string, double + integer a double,
    integer + boolean an integer.  In general the resolution returns a
    best match only if it dominates all other applicable candidates and
    is the only one to do so; such a candidate is always chosen; and
    without one an [AmbiguousOverload] problem is reported, as for two
    signatures that tie. *)
Theorem overload_resolution_picks_the_unique_dominator :
  inferTypeIn 3 testWorld (BinaryExpression integer2 "+" string3)
  = InferredType stringType
  /\ inferTypeIn 3 testWorld (BinaryExpression double2_0 "+" integer3)
     = InferredType doubleType
  /\ inferTypeIn 3 testWorld (BinaryExpression integer2 "+" booleanTrue)
     = InferredType integerType
  /\ (forall (g : TypeGraph) (candidates arguments : list TypeNode)
        (f : TypeNode),
        let applicable :=
          applicableCandidates g arguments (distinctTypes candidates) in
        resolveOverload g candidates arguments = BestMatch f ->
        exists costs,
          In (f, costs) applicable
          /\ dominatesAllOthers applicable (f, costs) = true
          /\ forall y, In y applicable ->
               dominatesAllOthers applicable y = true -> y = (f, costs))
  /\ (forall (g : TypeGraph) (candidates arguments : list TypeNode)
        (x : Candidate),
        let applicable :=
          applicableCandidates g arguments (distinctTypes candidates) in
        In x applicable ->
        dominatesAllOthers applicable x = true ->
        (forall y, In y applicable ->
                   dominatesAllOthers applicable y = true ->
                   sameObject (fst y) (fst x) = true) ->
        resolveOverload g candidates arguments = BestMatch (fst x))
  /\ (forall (g : TypeGraph) (candidates arguments : list TypeNode),
        let applicable :=
          applicableCandidates g arguments (distinctTypes candidates) in
        ~ (exists x,
              In x applicable
              /\ dominatesAllOthers applicable x = true
              /\ forall y, In y applicable ->
                   dominatesAllOthers applicable y = true -> y = x) ->
        exists tied,
          resolveOverload g candidates arguments
          = NoUniqueBestMatch (AmbiguousOverload tied))
  /\ resolveOverload conversionChainGraph tiedCandidates
       [integerType; integerType]
     = NoUniqueBestMatch (AmbiguousOverload tiedCandidates).
Proof.
  split; [vm_compute; reflexivity|].
  split; [vm_compute; reflexivity|].
  split; [vm_compute; reflexivity|].
  split; [exact resolveOverload_best|].
  split; [exact resolveOverload_chooses|].
  split; [|vm_compute; reflexivity].
  intros g candidates arguments applicable Hnone.
  destruct (resolveOverload g candidates arguments) as [f|problem] eqn:Hres.
  - exfalso. apply Hnone.
    destruct (resolveOverload_best g candidates arguments f Hres)
      as (costs & H1 & H2 & H3).
    exists (f, costs). auto.
  - unfold resolveOverload in Hres. fold applicable in Hres.
    destruct (List.filter (dominatesAllOthers applicable) applicable)
      as [|best [|second rest]]; inversion Hres; eauto.
Qed.

(** ** The output type shared by the overloads of a function *)

Section SameOutputType.

Context {LanguageNode : Type}.
Variable services : TypirServices.
Variable kind : FunctionKind LanguageNode.

Hypothesis areTypesEqual_refl :
  forall t, Equality_areTypesEqual services t t = true.
Hypothesis areTypesEqual_sym :
  forall t1 t2, Equality_areTypesEqual services t1 t2 = true ->
                Equality_areTypesEqual services t2 t1 = true.
Hypothesis areTypesEqual_trans :
  forall t1 t2 t3,
    Equality_areTypesEqual services t1 t2 = true ->
    Equality_areTypesEqual services t2 t3 = true ->
    Equality_areTypesEqual services t1 t3 = true.

Lemma rememberFunction_outputs (details : CreateFunctionTypeDetails LanguageNode)
  (ready : TypeNode) (group : OverloadedFunctionDetails LanguageNode) :
  groupOutputTypes kind (rememberFunction services kind details ready group)
  = groupOutputTypes kind group
    ++ [kind_getOutputTypeForFunctionCalls kind ready].
Proof. unfold groupOutputTypes. simpl. now rewrite map_app. Qed.

Lemma fresh_group_invariant (r : nat) :
  sameOutputTypeInvariant services kind
    (mkOverloadedFunctionDetails (@nil (OverloadedFunction LanguageNode))
       (mkCompositeRule r []) None).
Proof.
  intros t. simpl. split; [discriminate|].
  intros [[rest H] _]. discriminate.
Qed.

Lemma pairwise_prefix (outputs : list (option TypeNode)) (o : option TypeNode) :
  pairwiseEqualOutputs services (outputs ++ [o]) ->
  pairwiseEqualOutputs services outputs.
Proof.
  intros H i j o1 o2 Hi Hj.
  apply (H i j); apply lookup_app_l_Some; assumption.
Qed.

Lemma pairwise_extend (outputs : list (option TypeNode)) (t x : TypeNode)
  (rest : list (option TypeNode)) :
  outputs = Some t :: rest ->
  pairwiseEqualOutputs services outputs ->
  Equality_areTypesEqual services t x = true ->
  pairwiseEqualOutputs services (outputs ++ [Some x]).
Proof.
  intros Hhead Hpair Htx.
  assert (Hold : forall i o, outputs !! i = Some o ->
            exists ti, o = Some ti
                       /\ Equality_areTypesEqual services ti x = true).
  { intros i o Hi.
    destruct (Hpair i 0 o (Some t) Hi) as (ti & t0 & -> & Ht0 & Heq).
    - now rewrite Hhead.
    - inversion Ht0; subst. exists ti. split; [reflexivity|].
      eapply areTypesEqual_trans; eauto. }
  assert (Hnew : forall i o, (outputs ++ [Some x]) !! i = Some o ->
            outputs !! i = Some o \/ o = Some x).
  { intros i o Hi. apply lookup_app_Some in Hi.
    destruct Hi as [Hi|[_ Hi]]; [now left|].
    apply list_lookup_singleton_Some in Hi. destruct Hi as [_ <-]. now right. }
  intros i j o1 o2 Hi Hj.
  destruct (Hnew i o1 Hi) as [Hi'| ->], (Hnew j o2 Hj) as [Hj'| ->].
  - exact (Hpair i j o1 o2 Hi' Hj').
  - destruct (Hold i o1 Hi') as (ti & -> & Heq). exists ti, x. auto.
  - destruct (Hold j o2 Hj') as (tj & -> & Heq). exists x, tj. auto.
  - exists x, x. auto.
Qed.

(** One registration keeps the invariant. *)
Lemma rememberFunction_invariant
  (details : CreateFunctionTypeDetails LanguageNode) (ready : TypeNode)
  (group : OverloadedFunctionDetails LanguageNode) :
  sameOutputTypeInvariant services kind group ->
  sameOutputTypeInvariant services kind
    (rememberFunction services kind details ready group).
Proof.
  intros Hinv t. rewrite rememberFunction_outputs.
  set (o := kind_getOutputTypeForFunctionCalls kind ready).
  unfold rememberFunction. cbn [sameOutputType]. fold o.
  destruct (overloadedFunctions group) as [|f0 fs] eqn:Hfs.
  - (* the first function *)
    assert (Houts : groupOutputTypes kind group = []).
    { unfold groupOutputTypes. now rewrite Hfs. }
    rewrite Houts. simpl. split.
    + intros ->. split; [now exists []|].
      intros i j o1 o2 Hi Hj.
      apply list_lookup_singleton_Some in Hi, Hj.
      destruct Hi as [_ <-], Hj as [_ <-]. exists t, t. auto.
    + intros [[rest H] _]. now inversion H.
  - (* a further function *)
    assert (Hnonempty : exists o0 rest0,
               groupOutputTypes kind group = o0 :: rest0).
    { unfold groupOutputTypes. rewrite Hfs. simpl. eauto. }
    destruct Hnonempty as (o0 & rest0 & Houts).
    cbn [length Nat.leb].
    split.
    + intros Hsame.
      destruct (sameOutputType group) as [s|] eqn:Hs; [|discriminate].
      destruct o as [x|] eqn:Ho; [|discriminate].
      destruct (Equality_areTypesEqual services s x) eqn:Heq;
        [|discriminate].
      inversion Hsame; subst s.
      destruct (proj1 (Hinv t) Hs) as [[rest Hhead] Hpair].
      split.
      * exists (rest ++ [Some x]). now rewrite Hhead.
      * eapply pairwise_extend; eauto.
    + intros [[rest Hhead] Hpair].
      rewrite Houts in Hhead. simpl in Hhead.
      inversion Hhead; subst o0.
      assert (Hs : sameOutputType group = Some t).
      { apply Hinv. split.
        - exists rest0. exact Houts.
        - eapply pairwise_prefix. exact Hpair. }
      rewrite Hs.
      destruct (Hpair 0 (length (groupOutputTypes kind group)) (Some t) o)
        as (t1 & t2 & Ht1 & Ht2 & Heq).
      * now rewrite Houts.
      * rewrite lookup_app_r by lia. now rewrite Nat.sub_diag.
      * inversion Ht1; subst t1. rewrite Ht2, Heq. reflexivity.
Qed.

Lemma withCompositeRules_invariant
  (rules : list (BoundRule LanguageNode) -> list (BoundRule LanguageNode))
  (group : OverloadedFunctionDetails LanguageNode) :
  sameOutputTypeInvariant services kind group ->
  sameOutputTypeInvariant services kind (withCompositeRules rules group).
Proof. intros H t. exact (H t). Qed.

Lemma updateGroup_invariant (e : Engine LanguageNode) (functionName : string)
  (f : OverloadedFunctionDetails LanguageNode
       -> OverloadedFunctionDetails LanguageNode) :
  (forall group, sameOutputTypeInvariant services kind group ->
                 sameOutputTypeInvariant services kind (f group)) ->
  engineInvariant services kind e ->
  engineInvariant services kind (updateGroup e functionName f).
Proof.
  intros Hf Hinv name group. unfold updateGroup. cbn [engine_mapNameTypes].
  rewrite lookup_alter. case_decide as Hname.
  - subst name.
    destruct (engine_mapNameTypes e !! functionName) as [g0|] eqn:Hg;
      simpl; [|discriminate].
    intros H. inversion H; subst. apply Hf. eapply Hinv; eauto.
  - apply Hinv.
Qed.

Lemma registerInferenceRules_invariant
  (rules : FunctionInferenceRules LanguageNode) (functionName : string)
  (boundTo : option TypeNode) (e : Engine LanguageNode) :
  engineInvariant services kind e ->
  engineInvariant services kind
    (registerInferenceRules rules functionName boundTo e).
Proof.
  intros Hinv. unfold registerInferenceRules.
  assert (H1 : engineInvariant services kind
                 match inferenceForCall rules with
                 | Some rule =>
                     updateGroup e functionName
                       (withCompositeRules
                          (fun registry => addBoundRule registry rule boundTo))
                 | None => e
                 end).
  { destruct (inferenceForCall rules); [|exact Hinv].
    apply updateGroup_invariant; [|exact Hinv].
    intros group. apply withCompositeRules_invariant. }
  destruct (inferenceForCall rules), (validationForCall rules),
    (inferenceForDeclaration rules); exact H1.
Qed.

Lemma deregisterInferenceRules_invariant
  (rules : FunctionInferenceRules LanguageNode) (functionName : string)
  (boundTo : option TypeNode) (e : Engine LanguageNode) :
  engineInvariant services kind e ->
  engineInvariant services kind
    (deregisterInferenceRules rules functionName boundTo e).
Proof.
  intros Hinv. unfold deregisterInferenceRules.
  assert (H1 : engineInvariant services kind
                 match inferenceForCall rules with
                 | Some rule =>
                     updateGroup e functionName
                       (withCompositeRules
                          (fun registry =>
                             removeBoundRule registry rule boundTo))
                 | None => e
                 end).
  { destruct (inferenceForCall rules); [|exact Hinv].
    apply updateGroup_invariant; [|exact Hinv].
    intros group. apply withCompositeRules_invariant. }
  destruct (inferenceForCall rules), (validationForCall rules),
    (inferenceForDeclaration rules); exact H1.
Qed.

Lemma newFunctionTypeInitializer_invariant
  (details : CreateFunctionTypeDetails LanguageNode)
  (e e' : Engine LanguageNode) (this : FunctionTypeInitializer LanguageNode) :
  engineInvariant services kind e ->
  newFunctionTypeInitializer kind details e = Returned (this, e') ->
  engineInvariant services kind e'.
Proof.
  intros Hinv. unfold newFunctionTypeInitializer.
  destruct (negb (isSome (td_outputParameter details))
            && isSome (td_inferenceRuleForCalls details)); [discriminate|].
  destruct (kind_enforceFunctionName kind (td_functionName details)
              (kind_enforceFunctionNameOption kind)); [|discriminate].
  cbn [bindCompletion].
  destruct (isSome (td_validationForCall details)
            && negb (isSome (td_inferenceRuleForCalls details)));
    [discriminate|].
  destruct (engine_mapNameTypes e !! td_functionName details) as [g0|] eqn:Hg.
  - destruct (createInferenceRules details _ _) as [rules r2].
    intros H. inversion H; subst. clear H.
    intros name group. cbn [engine_mapNameTypes].
    apply registerInferenceRules_invariant. exact Hinv.
  - destruct (createInferenceRules details _ _) as [rules r2].
    intros H. inversion H; subst. clear H.
    intros name group. cbn [engine_mapNameTypes].
    apply registerInferenceRules_invariant.
    intros name' group'. cbn [engine_mapNameTypes].
    rewrite lookup_insert. case_decide as Hname.
    + intros H. inversion H; subst. apply fresh_group_invariant.
    + apply Hinv.
Qed.

Lemma producedType_invariant (newType : TypeNode) (e : Engine LanguageNode) :
  engineInvariant services kind e ->
  engineInvariant services kind (snd (producedType newType e)).
Proof.
  intros Hinv. unfold producedType.
  destruct (getType (engine_graph e) (getIdentifier newType)); exact Hinv.
Qed.

Lemma onSwitchedToIdentifiable_invariant
  (this this' : FunctionTypeInitializer LanguageNode)
  (functionType ready : TypeNode) (e e' : Engine LanguageNode) :
  engineInvariant services kind e ->
  onSwitchedToIdentifiable services kind this functionType e
  = Returned (ready, this', e') ->
  engineInvariant services kind e'.
Proof.
  intros Hinv. unfold onSwitchedToIdentifiable.
  destruct (negb (isFunctionType functionType)); [discriminate|].
  pose proof (producedType_invariant functionType e Hinv) as Hproduced.
  destruct (producedType functionType e) as [ready0 e1]. cbn [snd] in Hproduced.
  destruct (negb (sameObject ready0 functionType)).
  - destruct (createInferenceRules (typeDetails this) ready0 _)
      as [rules r] eqn:Hrules.
    match goal with
    | |- context [engine_mapNameTypes ?E !! _] =>
        assert (He2 : engineInvariant services kind E)
    end.
    { apply registerInferenceRules_invariant.
      intros name group. cbn [engine_mapNameTypes].
      apply (deregisterInferenceRules_invariant (inferenceRules this)
               (td_functionName (typeDetails this)) None
               (removeTypeListener e1 functionType this)).
      exact Hproduced. }
    destruct (engine_mapNameTypes _ !! _); [|discriminate].
    intros H. inversion H; subst.
    apply updateGroup_invariant; [|exact He2].
    intros group. apply rememberFunction_invariant.
  - match goal with
    | |- context [engine_mapNameTypes ?E !! _] =>
        assert (He2 : engineInvariant services kind E)
    end.
    { apply registerInferenceRules_invariant.
      now apply deregisterInferenceRules_invariant. }
    destruct (engine_mapNameTypes _ !! _); [|discriminate].
    intros H. inversion H; subst.
    apply updateGroup_invariant; [|exact He2].
    intros group. apply rememberFunction_invariant.
Qed.

End SameOutputType.

(** ** The initializer publishes the canonical function type *)

Section CanonicalFunctionType.

Context {LanguageNode : Type}.
Implicit Types (e : Engine LanguageNode).
Implicit Types (rules : FunctionInferenceRules LanguageNode).

Lemma createInferenceRules_spec
  (details : CreateFunctionTypeDetails LanguageNode) (functionType : TypeNode)
  (r : nat) :
  let created := createInferenceRules details functionType r in
  r <= snd created
  /\ forall rule,
       inferenceForCall (fst created) = Some rule
       \/ validationForCall (fst created) = Some rule
       \/ inferenceForDeclaration (fst created) = Some rule ->
       ruleFunctionType rule = Some functionType
       /\ r <= ruleRef rule < snd created.
Proof.
  unfold createInferenceRules.
  destruct (td_inferenceRuleForCalls details),
    (td_validationForCall details),
    (td_inferenceRuleForDeclaration details); simpl;
    (split; [lia|]);
    intros rule [H|[H|H]]; inversion H; subst; simpl; split;
      try reflexivity; lia.
Qed.

Lemma registerInferenceRules_components rules (functionName : string)
  (boundTo : option TypeNode) e :
  let e' := registerInferenceRules rules functionName boundTo e in
  engine_graph e' = engine_graph e
  /\ engine_nextRef e' = engine_nextRef e
  /\ engine_typeListeners e' = engine_typeListeners e
  /\ engine_inference e'
     = engine_inference e ++ declarationEntries rules boundTo
  /\ engine_validation e' = engine_validation e ++ validationEntries rules
  /\ engine_mapNameTypes e'
     = match inferenceForCall rules with
       | Some rule =>
           alter
             (withCompositeRules
                (fun registry => addBoundRule registry rule boundTo))
             functionName (engine_mapNameTypes e)
       | None => engine_mapNameTypes e
       end.
Proof.
  unfold registerInferenceRules, declarationEntries, validationEntries.
  destruct (inferenceForCall rules), (validationForCall rules),
    (inferenceForDeclaration rules); simpl; rewrite ?app_nil_r;
    repeat split; reflexivity.
Qed.

Lemma deregisterInferenceRules_components rules (functionName : string)
  (boundTo : option TypeNode) e :
  let e' := deregisterInferenceRules rules functionName boundTo e in
  engine_graph e' = engine_graph e
  /\ engine_nextRef e' = engine_nextRef e
  /\ engine_typeListeners e' = engine_typeListeners e
  /\ engine_inference e'
     = match inferenceForDeclaration rules with
       | Some rule => removeBoundRule (engine_inference e) rule boundTo
       | None => engine_inference e
       end
  /\ engine_validation e'
     = match validationForCall rules with
       | Some rule => removeValidationRule (engine_validation e) rule
       | None => engine_validation e
       end
  /\ engine_mapNameTypes e'
     = match inferenceForCall rules with
       | Some rule =>
           alter
             (withCompositeRules
                (fun registry => removeBoundRule registry rule boundTo))
             functionName (engine_mapNameTypes e)
       | None => engine_mapNameTypes e
       end.
Proof.
  unfold deregisterInferenceRules.
  destruct (inferenceForCall rules), (validationForCall rules),
    (inferenceForDeclaration rules); simpl; repeat split; reflexivity.
Qed.

Lemma removeBoundRule_gone (registry : list (BoundRule LanguageNode))
  (rule : RuleObject LanguageNode) (boundTo : option TypeNode)
  (entry : BoundRule LanguageNode) :
  In entry (removeBoundRule registry rule boundTo) ->
  ruleRef (bound_rule entry) = ruleRef rule ->
  sameBinding (bound_to entry) boundTo = false.
Proof.
  unfold removeBoundRule. intros Hin Href.
  apply filter_In in Hin. destruct Hin as [_ Hkeep].
  rewrite Href, Nat.eqb_refl in Hkeep. simpl in Hkeep.
  now apply negb_true_iff in Hkeep.
Qed.

Lemma removeValidationRule_gone (registered : list (RuleObject LanguageNode))
  (rule r' : RuleObject LanguageNode) :
  In r' (removeValidationRule registered rule) -> ruleRef r' <> ruleRef rule.
Proof.
  unfold removeValidationRule. intros Hin.
  apply filter_In in Hin. destruct Hin as [_ Hkeep].
  apply negb_true_iff in Hkeep. now apply Nat.eqb_neq in Hkeep.
Qed.

Lemma groupRules_altered e e' (functionName : string)
  (f : list (BoundRule LanguageNode) -> list (BoundRule LanguageNode)) :
  engine_mapNameTypes e'
  = alter (withCompositeRules f) functionName (engine_mapNameTypes e) ->
  groupRules e' functionName
  = match engine_mapNameTypes e !! functionName with
    | Some _ => f (groupRules e functionName)
    | None => []
    end.
Proof.
  intros H. unfold groupRules. rewrite H, lookup_alter_eq.
  destruct (engine_mapNameTypes e !! functionName); reflexivity.
Qed.

Lemma groupRules_same e e' (functionName : string) :
  engine_mapNameTypes e' = engine_mapNameTypes e ->
  groupRules e' functionName = groupRules e functionName.
Proof. intros H. unfold groupRules. now rewrite H. Qed.

Lemma groupRules_registered rules (functionName : string)
  (boundTo : option TypeNode) e :
  is_Some (engine_mapNameTypes e !! functionName) ->
  groupRules (registerInferenceRules rules functionName boundTo e)
    functionName
  = groupRules e functionName ++ callEntries rules boundTo.
Proof.
  intros [group Hgroup].
  destruct (registerInferenceRules_components rules functionName boundTo e)
    as (_ & _ & _ & _ & _ & Hmap).
  unfold callEntries. destruct (inferenceForCall rules) as [rule|].
  - rewrite (groupRules_altered e _ functionName _ Hmap), Hgroup.
    reflexivity.
  - rewrite (groupRules_same e _ functionName Hmap). now rewrite app_nil_r.
Qed.

Lemma groupRules_deregistered rules (functionName : string)
  (boundTo : option TypeNode) e :
  groupRules (deregisterInferenceRules rules functionName boundTo e)
    functionName
  = match inferenceForCall rules with
    | Some rule => removeBoundRule (groupRules e functionName) rule boundTo
    | None => groupRules e functionName
    end.
Proof.
  destruct (deregisterInferenceRules_components rules functionName boundTo e)
    as (_ & _ & _ & _ & _ & Hmap).
  destruct (inferenceForCall rules) as [rule|].
  - rewrite (groupRules_altered e _ functionName _ Hmap).
    unfold groupRules.
    destruct (engine_mapNameTypes e !! functionName); reflexivity.
  - apply groupRules_same. exact Hmap.
Qed.

Lemma group_kept_by_register rules (functionName : string)
  (boundTo : option TypeNode) e :
  is_Some (engine_mapNameTypes e !! functionName) ->
  is_Some (engine_mapNameTypes
             (registerInferenceRules rules functionName boundTo e)
           !! functionName).
Proof.
  intros H.
  destruct (registerInferenceRules_components rules functionName boundTo e)
    as (_ & _ & _ & _ & _ & ->).
  destruct (inferenceForCall rules); [|exact H].
  now apply lookup_alter_is_Some.
Qed.

Lemma group_kept_by_deregister rules (functionName : string)
  (boundTo : option TypeNode) e :
  is_Some (engine_mapNameTypes e !! functionName) ->
  is_Some (engine_mapNameTypes
             (deregisterInferenceRules rules functionName boundTo e)
           !! functionName).
Proof.
  intros H.
  destruct (deregisterInferenceRules_components rules functionName boundTo e)
    as (_ & _ & _ & _ & _ & ->).
  destruct (inferenceForCall rules); [|exact H].
  now apply lookup_alter_is_Some.
Qed.

Lemma groupRules_remembered (services : TypirServices)
  (kind : FunctionKind LanguageNode)
  (details : CreateFunctionTypeDetails LanguageNode) (ready : TypeNode) e
  (functionName : string) :
  groupRules
    (updateGroup e functionName
       (rememberFunction services kind details ready)) functionName
  = groupRules e functionName.
Proof.
  unfold groupRules, updateGroup. cbn [engine_mapNameTypes].
  rewrite lookup_alter_eq.
  destruct (engine_mapNameTypes e !! functionName); reflexivity.
Qed.

(** What the constructor leaves behind. *)
Lemma newFunctionTypeInitializer_spec (kind : FunctionKind LanguageNode)
  (details : CreateFunctionTypeDetails LanguageNode) e0 e1
  (this : FunctionTypeInitializer LanguageNode) :
  newFunctionTypeInitializer kind details e0 = Returned (this, e1) ->
  exists (r1 : nat) (base : Engine LanguageNode),
    let initial := newFunctionType kind details r1 in
    let created := createInferenceRules details initial (S r1) in
    let e := registerInferenceRules (fst created) (td_functionName details)
               None base in
    this = mkFunctionTypeInitializer (engine_nextRef e0) details
             (fst created) initial
    /\ engine_graph base = engine_graph e0
    /\ engine_nextRef base = snd created
    /\ is_Some (engine_mapNameTypes base !! td_functionName details)
    /\ engine_graph e1 = engine_graph e
    /\ engine_mapNameTypes e1 = engine_mapNameTypes e
    /\ engine_inference e1 = engine_inference e
    /\ engine_validation e1 = engine_validation e
    /\ engine_nextRef e1 = engine_nextRef e.
Proof.
  unfold newFunctionTypeInitializer.
  destruct (negb (isSome (td_outputParameter details))
            && isSome (td_inferenceRuleForCalls details)); [discriminate|].
  destruct (kind_enforceFunctionName kind (td_functionName details)
              (kind_enforceFunctionNameOption kind)); [|discriminate].
  cbn [bindCompletion].
  destruct (isSome (td_validationForCall details)
            && negb (isSome (td_inferenceRuleForCalls details)));
    [discriminate|].
  destruct (engine_mapNameTypes e0 !! td_functionName details)
    as [g0|] eqn:Hg.
  - destruct (createInferenceRules details
                (newFunctionType kind details (S (engine_nextRef e0)))
                (S (S (engine_nextRef e0)))) as [rules r2] eqn:Hcreated.
    intros H. inversion H; subst. clear H.
    exists (S (engine_nextRef e0)),
      (mkEngine (engine_graph e0) (engine_mapNameTypes e0)
         (engine_inference e0) (engine_validation e0)
         (engine_typeListeners e0) r2).
    cbn zeta. rewrite Hcreated. cbn [fst snd engine_graph engine_nextRef
      engine_mapNameTypes engine_inference engine_validation].
    rewrite Hg. repeat split; eauto.
  - destruct (createInferenceRules details
                (newFunctionType kind details (S (S (engine_nextRef e0))))
                (S (S (S (engine_nextRef e0))))) as [rules r2] eqn:Hcreated.
    intros H. inversion H; subst. clear H.
    exists (S (S (engine_nextRef e0))),
      (mkEngine (engine_graph e0)
         (<[td_functionName details :=
              mkOverloadedFunctionDetails []
                (mkCompositeRule (S (engine_nextRef e0)) []) None]>
            (engine_mapNameTypes e0))
         (addBoundRule (engine_inference e0)
            (OverloadedFunctionsTypeInferenceRule (S (engine_nextRef e0)))
            None)
         (engine_validation e0) (engine_typeListeners e0) r2).
    cbn zeta. rewrite Hcreated. cbn [fst snd engine_graph engine_nextRef
      engine_mapNameTypes engine_inference engine_validation].
    rewrite lookup_insert_eq. repeat split; eauto.
Qed.

(** [onSwitchedToIdentifiable] when another node has the identifier. *)
Lemma onSwitchedToIdentifiable_duplicate (services : TypirServices)
  (kind : FunctionKind LanguageNode)
  (this : FunctionTypeInitializer LanguageNode)
  (functionType existing : TypeNode) e :
  let functionName := td_functionName (typeDetails this) in
  let created :=
    createInferenceRules (typeDetails this) existing (engine_nextRef e) in
  isFunctionType functionType = true ->
  getType (engine_graph e) (getIdentifier functionType) = Some existing ->
  sameObject existing functionType = false ->
  is_Some (engine_mapNameTypes e !! functionName) ->
  exists e2,
    onSwitchedToIdentifiable services kind this functionType e
    = Returned
        (existing,
         mkFunctionTypeInitializer (initializer_ref this) (typeDetails this)
           (fst created) (initialFunctionType this),
         e2)
    /\ engine_graph e2 = engine_graph e
    /\ groupRules e2 functionName
       = match inferenceForCall (inferenceRules this) with
         | Some rule => removeBoundRule (groupRules e functionName) rule None
         | None => groupRules e functionName
         end ++ callEntries (fst created) (Some existing)
    /\ engine_inference e2
       = match inferenceForDeclaration (inferenceRules this) with
         | Some rule => removeBoundRule (engine_inference e) rule None
         | None => engine_inference e
         end ++ declarationEntries (fst created) (Some existing)
    /\ engine_validation e2
       = match validationForCall (inferenceRules this) with
         | Some rule => removeValidationRule (engine_validation e) rule
         | None => engine_validation e
         end ++ validationEntries (fst created)
    /\ engine_typeListeners e2
       = engine_typeListeners (removeTypeListener e functionType this).
Proof.
  intros functionName created HisFunction Hlookup Hother Hgroup.
  unfold onSwitchedToIdentifiable, producedType.
  rewrite HisFunction, Hlookup, Hother. cbn [negb].
  fold functionName.
  set (e11 := removeTypeListener e functionType this).
  set (e12 := deregisterInferenceRules (inferenceRules this) functionName
                None e11).
  destruct (deregisterInferenceRules_components (inferenceRules this)
              functionName None e11)
    as (Hg12 & Hn12 & Hl12 & Hi12 & Hv12 & Hm12).
  fold e12 in Hg12, Hn12, Hl12, Hi12, Hv12, Hm12.
  assert (Hgroup12 : is_Some (engine_mapNameTypes e12 !! functionName))
    by (apply group_kept_by_deregister; exact Hgroup).
  rewrite Hn12. cbn [removeTypeListener e11 engine_nextRef].
  fold created. destruct created as [rules r] eqn:Hcreated. cbn [fst].
  set (e13 := mkEngine (engine_graph e12) (engine_mapNameTypes e12)
                (engine_inference e12) (engine_validation e12)
                (engine_typeListeners e12) r).
  set (e2 := registerInferenceRules rules functionName (Some existing) e13).
  destruct (registerInferenceRules_components rules functionName
              (Some existing) e13)
    as (Hg2 & _ & Hl2 & Hi2 & Hv2 & _).
  fold e2 in Hg2, Hl2, Hi2, Hv2.
  assert (Hgroup2 : is_Some (engine_mapNameTypes e2 !! functionName))
    by (apply group_kept_by_register; exact Hgroup12).
  destruct Hgroup2 as [group2 Hgroup2]. rewrite Hgroup2.
  eexists. split; [reflexivity|].
  split; [|split; [|split; [|split]]].
  - cbn [updateGroup engine_graph]. rewrite Hg2. cbn [e13 engine_graph].
    rewrite Hg12. reflexivity.
  - rewrite groupRules_remembered. unfold e2.
    rewrite groupRules_registered by exact Hgroup12.
    f_equal.
    rewrite (groupRules_same e12 e13 functionName eq_refl).
    unfold e12. rewrite groupRules_deregistered.
    rewrite (groupRules_same e e11 functionName eq_refl). reflexivity.
  - cbn [updateGroup engine_inference]. rewrite Hi2.
    cbn [e13 engine_inference]. rewrite Hi12. reflexivity.
  - cbn [updateGroup engine_validation]. rewrite Hv2.
    cbn [e13 engine_validation]. rewrite Hv12. reflexivity.
  - cbn [updateGroup engine_typeListeners]. rewrite Hl2.
    cbn [e13 engine_typeListeners]. rewrite Hl12. reflexivity.
Qed.

(** [onSwitchedToIdentifiable] when the produced type is the given
    one. *)
Lemma onSwitchedToIdentifiable_fresh (services : TypirServices)
  (kind : FunctionKind LanguageNode)
  (this : FunctionTypeInitializer LanguageNode)
  (functionType : TypeNode) e :
  let functionName := td_functionName (typeDetails this) in
  isFunctionType functionType = true ->
  getType (engine_graph e) (getIdentifier functionType) = None ->
  is_Some (engine_mapNameTypes e !! functionName) ->
  exists e2,
    onSwitchedToIdentifiable services kind this functionType e
    = Returned (functionType, this, e2)
    /\ engine_graph e2 = fst (addNode (engine_graph e) functionType)
    /\ groupRules e2 functionName
       = match inferenceForCall (inferenceRules this) with
         | Some rule => removeBoundRule (groupRules e functionName) rule None
         | None => groupRules e functionName
         end ++ callEntries (inferenceRules this) (Some functionType)
    /\ engine_inference e2
       = match inferenceForDeclaration (inferenceRules this) with
         | Some rule => removeBoundRule (engine_inference e) rule None
         | None => engine_inference e
         end ++ declarationEntries (inferenceRules this) (Some functionType)
    /\ engine_validation e2
       = match validationForCall (inferenceRules this) with
         | Some rule => removeValidationRule (engine_validation e) rule
         | None => engine_validation e
         end ++ validationEntries (inferenceRules this).
Proof.
  intros functionName HisFunction Hlookup Hgroup.
  unfold onSwitchedToIdentifiable, producedType.
  rewrite HisFunction, Hlookup, sameObject_refl. cbn [negb].
  fold functionName.
  set (e1 := mkEngine (fst (addNode (engine_graph e) functionType))
               (engine_mapNameTypes e) (engine_inference e)
               (engine_validation e) (engine_typeListeners e)
               (engine_nextRef e)).
  set (e12 := deregisterInferenceRules (inferenceRules this) functionName
                None e1).
  destruct (deregisterInferenceRules_components (inferenceRules this)
              functionName None e1)
    as (Hg12 & _ & _ & Hi12 & Hv12 & _).
  fold e12 in Hg12, Hi12, Hv12.
  assert (Hgroup12 : is_Some (engine_mapNameTypes e12 !! functionName))
    by (apply group_kept_by_deregister; exact Hgroup).
  set (e2 := registerInferenceRules (inferenceRules this) functionName
               (Some functionType) e12).
  destruct (registerInferenceRules_components (inferenceRules this)
              functionName (Some functionType) e12)
    as (Hg2 & _ & _ & Hi2 & Hv2 & _).
  fold e2 in Hg2, Hi2, Hv2.
  assert (Hgroup2 : is_Some (engine_mapNameTypes e2 !! functionName))
    by (apply group_kept_by_register; exact Hgroup12).
  destruct Hgroup2 as [group2 Hgroup2]. rewrite Hgroup2.
  eexists. split; [reflexivity|].
  split; [|split; [|split]].
  - cbn [updateGroup engine_graph]. rewrite Hg2, Hg12. reflexivity.
  - rewrite groupRules_remembered. unfold e2.
    rewrite groupRules_registered by exact Hgroup12.
    f_equal. unfold e12. rewrite groupRules_deregistered.
    rewrite (groupRules_same e e1 functionName eq_refl). reflexivity.
  - cbn [updateGroup engine_inference]. rewrite Hi2, Hi12. reflexivity.
  - cbn [updateGroup engine_validation]. rewrite Hv2, Hv12. reflexivity.
Qed.

End CanonicalFunctionType.

(** ** The expectations of operator-overloaded.test.ts *)

(** All sixteen assignments of the test: the path by its kinds of edges,
    or no path. *)
Lemma test_assignability_paths :
  let result from to :=
    relationsOf (getAssignabilityResult (world_graph testWorld) from to) in
  let conversion := ConversionEdge IMPLICIT_EXPLICIT in
  result integerType integerType = Some []
  /\ result doubleType integerType = None
  /\ result stringType integerType = None
  /\ result booleanType integerType = Some [conversion]
  /\ result integerType doubleType = Some [SubTypeEdge]
  /\ result doubleType doubleType = Some []
  /\ result stringType doubleType = None
  /\ result booleanType doubleType = Some [conversion; SubTypeEdge]
  /\ result integerType stringType = Some [SubTypeEdge; conversion]
  /\ result doubleType stringType = Some [conversion]
  /\ result stringType stringType = Some []
  /\ result booleanType stringType
     = Some [conversion; SubTypeEdge; conversion]
  /\ result integerType booleanType = None
  /\ result doubleType booleanType = None
  /\ result stringType booleanType = None
  /\ result booleanType booleanType = Some [].
Proof. vm_compute. repeat split. Qed.

(** The remaining calls of ['+'] of the test. *)
Lemma test_overloads :
  let infer left right :=
    inferTypeIn 3 testWorld (BinaryExpression left "+" right) in
  infer integer2 integer3 = InferredType integerType
  /\ infer double2_0 double3_0 = InferredType doubleType
  /\ infer string2 string3 = InferredType stringType
  /\ infer booleanTrue booleanFalse = InferredType booleanType
  /\ infer double2_0 string3 = InferredType stringType.
Proof. vm_compute. repeat split. Qed.

(** ** The theorems at concrete instances *)

Lemma bottom_is_subtype_of_every_type_witness :
  isSubType graphWithNever neverType charType = true
  /\ In (mkTypeEdge neverType charType SubTypeEdge) (edges graphWithNever).
Proof.
  pose proof (bottom_is_subtype_of_every_type primitivesGraph 9 "never") as H.
  cbv zeta in H. destruct H as [H _].
  destruct (H [OpAddNode charType] charType) as [Hsub Hedge].
  - vm_compute. do 4 right. now left.
  - split; [exact Hsub|]. apply Hedge. reflexivity.
Defined.

Lemma earlier_registered_rule_wins_witness :
  inferTypeTraced 1 [neverApplies; oneIsInteger; allAreStrings] 1
  = (InferredType integerType, [0; 1]).
Proof.
  destruct (@earlier_registered_rule_wins nat) as [H _].
  apply (H 0 [neverApplies] [] [] oneIsInteger allAreStrings 1
           integerType stringType).
  - constructor; [reflexivity | constructor].
  - reflexivity.
  - reflexivity.
Defined.

Lemma fixed_parameter_subtype_follows_the_strategy_witness :
  FixedParameterType_analyzeIsSubTypeOf (defaultTypir conversionChainGraph)
    (listOf SUB_TYPE 10 integerType) (listOf SUB_TYPE 11 doubleType)
  = [].
Proof.
  destruct fixed_parameter_subtype_follows_the_strategy as [H _].
  apply (H (defaultTypir conversionChainGraph) 10 11
           (listKind SUB_TYPE) (listKind SUB_TYPE) _ _
           [integerType] [doubleType] eq_refl).
  constructor; [vm_compute; reflexivity | constructor].
Defined.

Lemma overload_resolution_picks_the_unique_dominator_witness :
  exists costs,
    In (FunctionType 21 "f(a:double, b:integer) : double" "f"
          (Some doubleType) [doubleType; integerType], costs)
      (applicableCandidates conversionChainGraph [doubleType; booleanType]
         (distinctTypes tiedCandidates)).
Proof.
  destruct overload_resolution_picks_the_unique_dominator
    as (_ & _ & _ & Hbest & _).
  destruct (Hbest conversionChainGraph tiedCandidates
              [doubleType; booleanType]
              (FunctionType 21 "f(a:double, b:integer) : double" "f"
                 (Some doubleType) [doubleType; integerType]))
    as (costs & Hin & _).
  - vm_compute. reflexivity.
  - exists costs. exact Hin.
Defined.

Lemma exampleServices_equivalence :
  (forall t, Equality_areTypesEqual exampleServices t t = true)
  /\ (forall t1 t2, Equality_areTypesEqual exampleServices t1 t2 = true ->
                    Equality_areTypesEqual exampleServices t2 t1 = true)
  /\ (forall t1 t2 t3,
         Equality_areTypesEqual exampleServices t1 t2 = true ->
         Equality_areTypesEqual exampleServices t2 t3 = true ->
         Equality_areTypesEqual exampleServices t1 t3 = true).
Proof.
  simpl. split; [|split].
  - intros t. apply String.eqb_refl.
  - intros t1 t2 H. now rewrite String.eqb_sym.
  - intros t1 t2 t3 H12 H23.
    apply String.eqb_eq in H12, H23. apply String.eqb_eq. congruence.
Defined.


(** * Further properties of the embedded code *)

(** ** Operators (operator.ts) *)

Section OperatorVariants.

Context {DomainElement : Type}.
Implicit Types (w : World DomainElement).
Implicit Types
  (typeCreator : string -> TypeNode -> World DomainElement
                 -> TypeNode * World DomainElement).

Lemma createVariants_from typeCreator (variants : list (string * TypeNode)) :
  forall (acc : list TypeNode * World DomainElement),
    fold_left
      (fun acc variant =>
         let '(created, w1) :=
           typeCreator (fst variant) (snd variant) (snd acc) in
         (fst acc ++ [created], w1))
      variants acc
    = (fst acc ++ fst (createVariants typeCreator variants (snd acc)),
       snd (createVariants typeCreator variants (snd acc))).
Proof.
  unfold createVariants.
  induction variants as [|variant rest IH]; intros [done w].
  - cbn. now rewrite app_nil_r.
  - cbn [fold_left fst snd].
    destruct (typeCreator (fst variant) (snd variant) w) as [created w1].
    rewrite IH. rewrite (IH ([] ++ [created], w1)).
    cbn [fst snd]. now rewrite <- app_assoc.
Qed.

Lemma createVariants_length typeCreator (variants : list (string * TypeNode)) w :
  length (fst (createVariants typeCreator variants w)) = length variants.
Proof.
  revert w. induction variants as [|variant rest IH]; intros w.
  - reflexivity.
  - unfold createVariants. cbn [fold_left fst snd].
    destruct (typeCreator (fst variant) (snd variant) w) as [created w1].
    rewrite createVariants_from. cbn [fst snd].
    rewrite length_app, IH. reflexivity.
Qed.

Lemma operatorVariants_length (allNames : list string)
  (allTypes : list TypeNode) :
  length (operatorVariants allNames allTypes)
  = length allNames * length allTypes.
Proof.
  unfold operatorVariants.
  induction allNames as [|singleName rest IH]; [reflexivity|].
  cbn [flat_map]. rewrite length_app, length_map, IH. reflexivity.
Qed.

Lemma nested_loops_are_the_variants typeCreator (allTypes : list TypeNode)
  (allNames : list string) :
  forall (acc : list TypeNode * World DomainElement),
    fold_left
      (fun acc singleName =>
         fold_left
           (fun acc' singleType =>
              let '(created, w1) :=
                typeCreator singleName singleType (snd acc') in
              (fst acc' ++ [created], w1))
           allTypes acc)
      allNames acc
    = fold_left
        (fun acc variant =>
           let '(created, w1) :=
             typeCreator (fst variant) (snd variant) (snd acc) in
           (fst acc ++ [created], w1))
        (operatorVariants allNames allTypes) acc.
Proof.
  unfold operatorVariants.
  induction allNames as [|singleName rest IH]; intros acc; [reflexivity|].
  cbn [fold_left flat_map]. rewrite fold_left_app, IH. f_equal.
  clear IH. revert acc.
  induction allTypes as [|singleType types IH]; intros acc; [reflexivity|].
  cbn [fold_left map fst snd]. apply IH.
Qed.

Lemma handleOperatorVariants_spec (nameVariants : Multiple string)
  (typeVariants : Multiple TypeNode) typeCreator w :
  let allNames := toArray (Some nameVariants) in
  let allTypes := toArray (Some typeVariants) in
  let created :=
    createVariants typeCreator (operatorVariants allNames allTypes) w in
  handleOperatorVariants nameVariants typeVariants typeCreator w
  = match allTypes with
    | [] => Thrown "assertTrue"
    | _ :: _ =>
        Returned
          (match fst created with
           | [single] => Single single
           | _ => Array (fst created)
           end, snd created)
    end.
Proof.
  intros allNames allTypes created. unfold handleOperatorVariants.
  fold allNames allTypes.
  destruct allTypes as [|singleType types] eqn:Htypes; [reflexivity|].
  cbn [length Nat.leb].
  rewrite nested_loops_are_the_variants.
  rewrite createVariants_from. cbn [fst snd app].
  subst created. rewrite <- Htypes. reflexivity.
Qed.

End OperatorVariants.

(** X1: [handleOperatorVariants] fails with the assertion exactly when
    no type variant is given (also when no name is given); otherwise
    it calls the creator once for every pair of a name and a type, name
    by name and for each name type by type, each call on the engine the
    previous one left.  The created types are returned in that order,
    as the type itself when there is exactly one and as the array
    otherwise, so there are as many as names times types.  Without
    names nothing is created and the engine is left as it is.  The
    same count holds for unary, binary and ternary operators. *)
Theorem handleOperatorVariants_creates_every_variant {DomainElement : Type}
  (nameVariants : Multiple string) (typeVariants : Multiple TypeNode)
  (w : World DomainElement) :
  let allNames := toArray (Some nameVariants) in
  let allTypes := toArray (Some typeVariants) in
  (forall typeCreator,
      allTypes = [] ->
      handleOperatorVariants nameVariants typeVariants typeCreator w
      = Thrown "assertTrue")
  /\ (forall typeCreator,
        allTypes <> [] ->
        exists result,
          handleOperatorVariants nameVariants typeVariants typeCreator w
          = Returned
              (result,
               snd (createVariants typeCreator
                      (operatorVariants allNames allTypes) w))
          /\ toArray (Some result)
             = fst (createVariants typeCreator
                      (operatorVariants allNames allTypes) w)
          /\ length (toArray (Some result))
             = length allNames * length allTypes
          /\ ((exists single, result = Single single)
              <-> length allNames * length allTypes = 1)
          /\ (allNames = [] ->
              handleOperatorVariants nameVariants typeVariants typeCreator w
              = Returned (Array [], w)))
  /\ (forall outputType inferenceRule domainElementsForInputValues result w',
        createBinaryOperator nameVariants typeVariants outputType
          inferenceRule domainElementsForInputValues w
        = Returned (result, w') ->
        length (toArray (Some result))
        = length allNames * length allTypes)
  /\ (forall inferenceRule domainElementsForInputValues result w',
        createUnaryOperator nameVariants typeVariants
          inferenceRule domainElementsForInputValues w
        = Returned (result, w') ->
        length (toArray (Some result))
        = length allNames * length allTypes)
  /\ (forall firstType inferenceRule domainElementsForInputValues result w',
        createTernaryOperator nameVariants firstType typeVariants
          inferenceRule domainElementsForInputValues w
        = Returned (result, w') ->
        length (toArray (Some result))
        = length allNames * length allTypes).
Proof.
  intros allNames allTypes.
  assert (Hsome : forall typeCreator,
             allTypes <> [] ->
             exists result,
               handleOperatorVariants nameVariants typeVariants typeCreator w
               = Returned
                   (result,
                    snd (createVariants typeCreator
                           (operatorVariants allNames allTypes) w))
               /\ toArray (Some result)
                  = fst (createVariants typeCreator
                           (operatorVariants allNames allTypes) w)
               /\ length (toArray (Some result))
                  = length allNames * length allTypes).
  { intros typeCreator Htypes.
    pose proof (handleOperatorVariants_spec nameVariants typeVariants
                  typeCreator w) as Hspec.
    cbn zeta in Hspec. fold allNames allTypes in Hspec.
    destruct allTypes as [|singleType types] eqn:Hall; [congruence|].
    rewrite <- Hall in *.
    set (created := createVariants typeCreator
                      (operatorVariants allNames allTypes) w) in *.
    assert (Hlen : length (fst created)
                   = length allNames * length allTypes).
    { subst created. now rewrite createVariants_length,
        operatorVariants_length. }
    eexists. split; [exact Hspec|].
    assert (Hlist : toArray
                      (Some match fst created with
                            | [single] => Single single
                            | _ => Array (fst created)
                            end) = fst created).
    { destruct (fst created) as [|x [|y rest]]; reflexivity. }
    split; [exact Hlist|]. now rewrite Hlist. }
  assert (Hcount : forall typeCreator result w',
             handleOperatorVariants nameVariants typeVariants typeCreator w
             = Returned (result, w') ->
             length (toArray (Some result))
             = length allNames * length allTypes).
  { intros typeCreator result w' Hreturned.
    destruct allTypes as [|singleType types] eqn:Hall.
    - unfold handleOperatorVariants in Hreturned.
      fold allTypes in Hreturned. rewrite Hall in Hreturned.
      discriminate.
    - rewrite <- Hall in *.
      destruct (Hsome typeCreator) as (result0 & Heq & _ & Hlen);
        [rewrite Hall; discriminate|].
      rewrite Heq in Hreturned. inversion Hreturned; subst. exact Hlen. }
  split; [|split; [|split; [|split]]].
  - intros typeCreator Hnone. unfold handleOperatorVariants.
    fold allTypes. now rewrite Hnone.
  - intros typeCreator Htypes.
    destruct (Hsome typeCreator Htypes) as (result & Heq & Hlist & Hlen).
    exists result. split; [exact Heq|]. split; [exact Hlist|].
    split; [exact Hlen|]. split.
    + split.
      * intros [single ->]. rewrite <- Hlen. reflexivity.
      * intros Hone. rewrite <- Hlen in Hone.
        pose proof (handleOperatorVariants_spec nameVariants typeVariants
                      typeCreator w) as Hspec.
        cbn zeta in Hspec. fold allNames allTypes in Hspec.
        destruct allTypes as [|singleType types] eqn:Hall; [congruence|].
        rewrite <- Hall in *. rewrite Heq in Hspec.
        injection Hspec as Hresult. subst result.
        destruct (fst (createVariants typeCreator
                         (operatorVariants allNames allTypes) w))
          as [|x [|y rest]]; try discriminate.
        now exists x.
    + intros Hnames. clear Heq. unfold handleOperatorVariants.
      fold allNames allTypes. rewrite Hnames.
      destruct allTypes; [congruence | reflexivity].
  - intros outputType inferenceRule derive result w'. apply Hcount.
  - intros inferenceRule derive result w'. apply Hcount.
  - intros firstType inferenceRule derive result w'. apply Hcount.
Qed.

(** ** Fixed-parameters kinds and types (part_001) *)

Lemma imap_parameters (parameterNames : list string) :
  forall (f : nat -> string -> KindParameter) (i : nat),
    (forall index name, f index name = mkParameter name (i + index)) ->
    map parameter_name (imap f parameterNames) = parameterNames
    /\ map parameter_index (imap f parameterNames)
       = seq i (length parameterNames).
Proof.
  induction parameterNames as [|name rest IH]; intros f i Hf.
  - split; reflexivity.
  - cbn [imap map length seq]. rewrite Hf. cbn [parameter_name parameter_index].
    destruct (IH (f ∘ S) (S i)) as [Hnames Hindices].
    { intros index name'. unfold compose. rewrite Hf. f_equal. lia. }
    rewrite Hnames, Hindices. split; [reflexivity|]. f_equal. lia.
Qed.

(** X2: the constructor of [FixedParameterKind] fails with the
    assertion exactly when no parameter name is given.  Otherwise the
    kind has one parameter per name, in the order of the names, and the
    parameter of position [i] carries the index [i]; the strategy for
    the parameters is the given one and [EQUAL_TYPE] by default; the
    name of the kind starts with ['FixedParameterKind-'], so the kind is
    recognised by [isFixedParametersKind]. *)
Theorem newFixedParameterKind_numbers_the_parameters (name : string)
  (givenOptions : option FixedParameterKindOptions)
  (parameterNames : list string) :
  (newFixedParameterKind name givenOptions parameterNames
   = Thrown "assertTrue" <-> parameterNames = [])
  /\ (parameterNames <> [] ->
      exists kind,
        newFixedParameterKind name givenOptions parameterNames = Returned kind
        /\ baseName kind = name
        /\ map parameter_name (parameters kind) = parameterNames
        /\ map parameter_index (parameters kind)
           = seq 0 (length parameterNames)
        /\ parameterSubtypeCheckingStrategy (options kind)
           = match givenOptions with
             | Some given => parameterSubtypeCheckingStrategy given
             | None => EQUAL_TYPE
             end
        /\ kindName (KFixedParameter kind) = "FixedParameterKind-" +:+ name
        /\ isFixedParametersKind (KFixedParameter kind) = true).
Proof.
  unfold newFixedParameterKind. cbn [parameters].
  rewrite length_imap.
  destruct parameterNames as [|first rest].
  - split; [split; reflexivity | congruence].
  - cbn [length Nat.leb]. split; [split; discriminate|].
    intros _. eexists. split; [reflexivity|].
    cbn [baseName parameters options].
    destruct (imap_parameters (first :: rest)
                (fun index name' => mkParameter name' index) 0)
      as [Hnames Hindices]; [reflexivity|].
    split; [reflexivity|]. split; [exact Hnames|].
    split; [exact Hindices|]. split; [now destruct givenOptions|].
    split; [reflexivity|]. apply isFixedParametersKind_fixed.
Qed.

(** X3: for a kind made by the constructor of [FixedParameterKind]
    the constructor of [FixedParameterType] never returns a type.  When
    the number of given types is not the number of parameters of the
    kind, its assertion fails; otherwise there is at least one type,
    and the first [push] onto [parameterValues], a field that is
    declared but never assigned, fails.  Hence
    [createFixedParameterType] fails for all type details, before the
    graph is reached. *)
Theorem fixed_parameter_type_is_never_constructed (name : string)
  (givenOptions : option FixedParameterKindOptions)
  (parameterNames : list string) (kind : FixedParameterKind) :
  newFixedParameterKind name givenOptions parameterNames = Returned kind ->
  (forall (r : nat) (identifier : string) (typeValues : list TypeNode),
      newFixedParameterType r kind identifier typeValues
      = Thrown (if Nat.eqb (length parameterNames) (length typeValues)
                then "TypeError" else "assertTrue"))
  /\ (forall (typir : Typir) (typeDetails : FixedParameterTypeDetails)
        (r : nat) (g : TypeGraph),
        createFixedParameterType typir kind typeDetails r g
        = Thrown (if Nat.eqb (length parameterNames)
                       (length (toArray (Some (parameterTypes typeDetails))))
                  then "TypeError" else "assertTrue")).
Proof.
  unfold newFixedParameterKind. cbn [parameters]. rewrite length_imap.
  destruct parameterNames as [|first rest]; [discriminate|].
  cbn [length Nat.leb]. intros Hkind. injection Hkind as <-.
  assert (Hnew : forall (r : nat) (identifier : string)
                   (typeValues : list TypeNode),
             newFixedParameterType r
               (mkFixedParameterKind name
                  match givenOptions with
                  | Some o => o
                  | None => mkFixedParameterKindOptions EQUAL_TYPE
                  end
                  (imap (fun index name' => mkParameter name' index)
                     (first :: rest)))
               identifier typeValues
             = Thrown (if Nat.eqb (S (length rest)) (length typeValues)
                       then "TypeError" else "assertTrue")).
  { intros r identifier typeValues. unfold newFixedParameterType.
    cbn [parameters]. rewrite length_imap. cbn [length].
    destruct typeValues as [|typeValue others]; [reflexivity|].
    cbn [length]. now destruct (Nat.eqb (S (length rest)) (S (length others))). }
  split; [exact Hnew|].
  intros typir typeDetails r g. unfold createFixedParameterType.
  now rewrite Hnew.
Qed.

(** X5: for two fixed-parameters types [a] and [b], asking [a]
    whether it is a subtype of [b] uses the strategy of the kind of
    [a], asking [b] whether it is a supertype of [a] uses the strategy
    of the kind of [b].  The two questions have the same answer when the
    two kinds use the same strategy or have different base names.  With
    different strategies the answers can differ: for [List<integer>] of
    a kind with [EQUAL_TYPE] and [List<double>] of a kind with
    [SUB_TYPE], integer being a subtype of double, the first question
    reports a problem and the second none. *)
Theorem subtype_analysis_uses_the_strategy_of_the_receiver :
  (forall (typir : Typir) (r1 r2 : nat) (kind1 kind2 : FixedParameterKind)
      (identifier1 identifier2 : string) (values1 values2 : list TypeNode),
      let a := FixedParameterType r1 kind1 identifier1 values1 in
      let b := FixedParameterType r2 kind2 identifier2 values2 in
      (FixedParameterType_analyzeIsSubTypeOf typir a b
       = FixedParameterType_analyzeSubTypeProblems typir kind1
           kind1 values1 kind2 values2)
      /\ (FixedParameterType_analyzeIsSuperTypeOf typir b a
          = FixedParameterType_analyzeSubTypeProblems typir kind2
              kind1 values1 kind2 values2)
      /\ (parameterSubtypeCheckingStrategy (options kind1)
          = parameterSubtypeCheckingStrategy (options kind2)
          \/ baseName kind1 <> baseName kind2 ->
          FixedParameterType_analyzeIsSubTypeOf typir a b
          = FixedParameterType_analyzeIsSuperTypeOf typir b a))
  /\ FixedParameterType_analyzeIsSubTypeOf (defaultTypir conversionChainGraph)
       (listOf EQUAL_TYPE 10 integerType) (listOf SUB_TYPE 11 doubleType)
     <> []
  /\ FixedParameterType_analyzeIsSuperTypeOf
       (defaultTypir conversionChainGraph)
       (listOf SUB_TYPE 11 doubleType) (listOf EQUAL_TYPE 10 integerType)
     = [].
Proof.
  split; [|split].
  - intros typir r1 r2 kind1 kind2 identifier1 identifier2 values1 values2
      a b.
    split; [reflexivity|]. split; [reflexivity|].
    intros Hsame. cbn [FixedParameterType_analyzeIsSubTypeOf
      FixedParameterType_analyzeIsSuperTypeOf a b].
    unfold FixedParameterType_analyzeSubTypeProblems.
    destruct Hsame as [Hstrategy|Hbase].
    + now rewrite Hstrategy.
    + unfold checkValueForConflict.
      destruct (String.eqb_spec (baseName kind1) (baseName kind2));
        [congruence | reflexivity].
  - vm_compute. discriminate.
  - vm_compute. reflexivity.
Qed.

(** X6: the equality analysis of a fixed-parameters type never
    accepts a type of another class, and between fixed-parameters types
    it does not depend on the strategies, identifiers or object
    identities of the two types.  Its verdict is symmetric when the
    equality service is: if [a] finds no problem with [b], then [b]
    finds none with [a]. *)
Theorem equality_analysis_of_fixed_parameter_types (typir : Typir)
  (r1 : nat) (kind1 : FixedParameterKind) (identifier1 : string)
  (values1 : list TypeNode) :
  let a := FixedParameterType r1 kind1 identifier1 values1 in
  (forall other,
      FixedParameterType_analyzeTypeEqualityProblems typir a other = [] ->
      isFixedParameterType other = true)
  /\ (forall r2 kind2 identifier2 values2 r1' r2' kind1' kind2'
        identifier1' identifier2',
        baseName kind1' = baseName kind1 ->
        baseName kind2' = baseName kind2 ->
        FixedParameterType_analyzeTypeEqualityProblems typir
          (FixedParameterType r1' kind1' identifier1' values1)
          (FixedParameterType r2' kind2' identifier2' values2)
        = FixedParameterType_analyzeTypeEqualityProblems typir a
            (FixedParameterType r2 kind2 identifier2 values2))
  /\ ((forall t1 t2,
          equality_getTypeEqualityProblem typir t1 t2 = None ->
          equality_getTypeEqualityProblem typir t2 t1 = None) ->
      forall r2 kind2 identifier2 values2,
        let b := FixedParameterType r2 kind2 identifier2 values2 in
        FixedParameterType_analyzeTypeEqualityProblems typir a b = [] ->
        FixedParameterType_analyzeTypeEqualityProblems typir b a = []).
Proof.
  intros a. split; [|split].
  - intros other Hnone. subst a.
    destruct other; cbn in Hnone; try discriminate.
    apply isFixedParametersKind_fixed.
  - intros r2 kind2 identifier2 values2 r1' r2' kind1' kind2'
      identifier1' identifier2' Hbase1 Hbase2.
    subst a. cbn [FixedParameterType_analyzeTypeEqualityProblems].
    now rewrite Hbase1, Hbase2.
  - intros Hsym r2 kind2 identifier2 values2 b. subst a b.
    cbn [FixedParameterType_analyzeTypeEqualityProblems].
    unfold checkValueForConflict.
    destruct (String.eqb_spec (baseName kind1) (baseName kind2))
      as [Hbase|Hbase]; [|discriminate].
    rewrite Hbase, String.eqb_refl. cbn [length Nat.leb].
    unfold checkTypes. rewrite !checkTypes_nil.
    intros Hall. apply Forall2_flip.
    eapply Forall2_impl; [exact Hall|]. cbn. auto.
Qed.

(** ** The kind-level comparison of fixed-parameters-kind.ts *)

Lemma compareTypes_reflexive
  (compare : FixedParametersKindTs.TypeNode -> FixedParametersKindTs.TypeNode
             -> list FixedParametersKindTs.TypeConflict)
  (types : list FixedParametersKindTs.TypeNode) :
  (forall t, compare t t = []) ->
  forall index,
    FixedParametersKindTs.compareTypesFrom index types types compare = [].
Proof.
  intros Hrefl. induction types as [|t rest IH]; intros index;
    [reflexivity|].
  cbn [FixedParametersKindTs.compareTypesFrom]. rewrite Hrefl. apply IH.
Qed.

(** X7: [FixedParameterKind.areTypesEqual] of
    fixed-parameters-kind.ts raises an [Error] when one of the two
    types is not of a fixed-parameters kind or when the base names of
    their kinds differ, and raises the failed assertion of
    [getParameterTypes] when a type has not as many ['hasField'] edges
    as its kind has parameter names.  Otherwise it returns the
    position-wise comparison of the parameter types by the equality
    service, whatever the kind that is asked and its options; a type
    is then equal to itself when the equality service is reflexive. *)
Theorem kind_areTypesEqual_compares_by_equality
  (this : FixedParametersKindTs.FixedParameterKind)
  (typir : FixedParametersKindTs.Typir)
  (type1 type2 : FixedParametersKindTs.TypeNode) :
  (FixedParametersKindTs.isFixedParametersKind
     (FixedParametersKindTs.kindOf type1)
   && FixedParametersKindTs.isFixedParametersKind
        (FixedParametersKindTs.kindOf type2) = false ->
   FixedParametersKindTs.areTypesEqual this typir type1 type2 = Thrown "")
  /\ (forall kind1 kind2,
        FixedParametersKindTs.kindOf type1
        = FixedParametersKindTs.KFixedParameter kind1 ->
        FixedParametersKindTs.kindOf type2
        = FixedParametersKindTs.KFixedParameter kind2 ->
        (FixedParametersKindTs.baseName kind1
         <> FixedParametersKindTs.baseName kind2 ->
         FixedParametersKindTs.areTypesEqual this typir type1 type2
         = Thrown "")
        /\ (FixedParametersKindTs.baseName kind1
            = FixedParametersKindTs.baseName kind2 ->
            FixedParametersKindTs.areTypesEqual this typir type1 type2
            = bindCompletion
                (FixedParametersKindTs.getParameterTypes kind1 type1)
                (fun types1 =>
                   bindCompletion
                     (FixedParametersKindTs.getParameterTypes kind2 type2)
                     (fun types2 =>
                        Returned
                          (FixedParametersKindTs.compareTypes types1 types2
                             (FixedParametersKindTs.equality_areTypesEqual
                                typir)))))
        /\ (forall types1,
              (forall t,
                  FixedParametersKindTs.equality_areTypesEqual typir t t
                  = []) ->
              FixedParametersKindTs.getParameterTypes kind1 type1
              = Returned types1 ->
              FixedParametersKindTs.areTypesEqual this typir type1 type1
              = Returned [])).
Proof.
  split.
  - intros Hkinds. unfold FixedParametersKindTs.areTypesEqual.
    destruct (FixedParametersKindTs.kindOf type1) as [kind1|name1];
      [|reflexivity].
    destruct (FixedParametersKindTs.kindOf type2) as [kind2|name2];
      [|reflexivity].
    now rewrite Hkinds.
  - intros kind1 kind2 Hkind1 Hkind2.
    assert (Hsame :
              FixedParametersKindTs.baseName kind1
              = FixedParametersKindTs.baseName kind2 ->
              FixedParametersKindTs.areTypesEqual this typir type1 type2
              = bindCompletion
                  (FixedParametersKindTs.getParameterTypes kind1 type1)
                  (fun types1 =>
                     bindCompletion
                       (FixedParametersKindTs.getParameterTypes kind2 type2)
                       (fun types2 =>
                          Returned
                            (FixedParametersKindTs.compareTypes types1 types2
                               (FixedParametersKindTs.equality_areTypesEqual
                                  typir))))).
    { intros Hbase. unfold FixedParametersKindTs.areTypesEqual.
      rewrite Hkind1, Hkind2, !kind_isFixedParametersKind_fixed, Hbase,
        String.eqb_refl.
      cbn [andb bindCompletion].
      destruct (FixedParametersKindTs.getParameterTypes kind1 type1);
        [|reflexivity].
      cbn [bindCompletion].
      destruct (FixedParametersKindTs.getParameterTypes kind2 type2);
        reflexivity. }
    split; [|split; [exact Hsame|]].
    + intros Hbase. unfold FixedParametersKindTs.areTypesEqual.
      rewrite Hkind1, Hkind2, !kind_isFixedParametersKind_fixed.
      destruct (String.eqb_spec (FixedParametersKindTs.baseName kind1)
                  (FixedParametersKindTs.baseName kind2));
        [congruence | reflexivity].
    + intros types1 Hrefl Htypes.
      unfold FixedParametersKindTs.areTypesEqual.
      rewrite Hkind1, !kind_isFixedParametersKind_fixed, String.eqb_refl,
        Htypes.
      cbn [andb]. unfold FixedParametersKindTs.compareTypes.
      now rewrite compareTypes_reflexive.
Qed.

(** ** The bottom kind (part_000) *)

Lemma bottomRuleLoop_answer {DomainElement : Type}
  (rules : list (InferBottomType DomainElement)) (bottomType : TypeNode)
  (domainElement : DomainElement) :
  fst (bottomRuleLoop rules bottomType domainElement)
  = if existsb (fun inferenceRule => inferenceRule domainElement) rules
    then RuleType bottomType
    else InferenceRuleNotApplicable.
Proof.
  induction rules as [|inferenceRule rest IH]; [reflexivity|].
  cbn [bottomRuleLoop existsb].
  destruct (inferenceRule domainElement); [reflexivity|].
  destruct (bottomRuleLoop rest bottomType domainElement) as [result called].
  exact IH.
Qed.

Lemma createBottomType_registers_one_rule_aux {DomainElement : Type}
  (this : BottomKind) (typir : TypirState DomainElement)
  (typeDetails : BottomTypeDetails DomainElement) :
  instance this = None ->
  let bottomType :=
    BottomType (typir_nextRef typir) (bottom_name (bottomKind_options this)) in
  exists this' typir',
    createBottomType this typir typeDetails = (bottomType, this', typir')
    /\ instance this' = Some bottomType
    /\ bottomKind_options this' = bottomKind_options this
    /\ typir_graph typir' = fst (addNode (typir_graph typir) bottomType).
Proof.
  intros Hnone bottomType. unfold createBottomType. rewrite Hnone.
  unfold BottomKind_calculateIdentifier. fold bottomType.
  eexists _, _. repeat split.
Qed.

(** X8: the first [createBottomType] of a kind creates the bottom
    type under the name of the kind's options and remembers it as the
    instance.  Without inference rules in the details (none, or an
    empty array) nothing is registered at the inference service; with
    rules exactly one rule is appended to it, not bound to a type, which
    answers with the bottom type for the elements that at least one of
    the given rules accepts and is not applicable to all others. *)
Theorem createBottomType_registers_one_rule {DomainElement : Type}
  (this : BottomKind) (typir : TypirState DomainElement)
  (typeDetails : BottomTypeDetails DomainElement) :
  instance this = None ->
  let rules := toArray (details_inferenceRules typeDetails) in
  let bottomType :=
    BottomType (typir_nextRef typir) (bottom_name (bottomKind_options this)) in
  exists this' typir',
    createBottomType this typir typeDetails = (bottomType, this', typir')
    /\ instance this' = Some bottomType
    /\ bottomKind_options this' = bottomKind_options this
    /\ typir_graph typir' = fst (addNode (typir_graph typir) bottomType)
    /\ (rules = [] -> typir_inference typir' = typir_inference typir)
    /\ (rules <> [] ->
        exists rule,
          typir_inference typir'
          = typir_inference typir ++ [mkRegisteredRule rule None]
          /\ forall domainElement,
               inferTypeWithoutChildren rule domainElement
               = if existsb
                      (fun inferenceRule => inferenceRule domainElement)
                      rules
                 then RuleType bottomType
                 else InferenceRuleNotApplicable).
Proof.
  intros Hnone rules bottomType. unfold createBottomType. rewrite Hnone.
  fold rules. unfold BottomKind_calculateIdentifier. fold bottomType.
  eexists _, _. split; [reflexivity|].
  cbn [instance bottomKind_options typir_graph typir_inference].
  repeat split.
  - intros Hrules. now rewrite Hrules.
  - intros Hrules. destruct rules as [|first rest] eqn:Hlist; [congruence|].
    cbn [length Nat.leb]. unfold addInferenceRule.
    eexists. split; [reflexivity|].
    intros domainElement. cbn [bottomInferenceRule functionRule
      inferTypeWithoutChildren].
    apply bottomRuleLoop_answer.
Qed.

(** X9: a bottom kind constructed without options names its type
    ['never'], the given name otherwise, whatever the type details.
    After the first [createBottomType] on an engine whose graph has no
    type of that name, [getBottomType] finds the created type and
    [getOrCreateBottomType] returns it without changing the kind or the
    engine, for any type details.  [getOrCreateBottomType] creates
    nothing whenever the graph holds a type of that name: it returns
    that type, whatever its class. *)
Theorem created_bottom_type_is_found {DomainElement : Type}
  (givenOptions : option BottomKindOptions)
  (typir : TypirState DomainElement)
  (typeDetails : BottomTypeDetails DomainElement) :
  let this := newBottomKind givenOptions in
  let name :=
    match givenOptions with
    | Some given => bottom_name given
    | None => "never"
    end in
  (forall anyDetails : BottomTypeDetails DomainElement,
      BottomKind_calculateIdentifier this anyDetails = name)
  /\ (getType (typir_graph typir) name = None ->
      exists bottomType this' typir',
        createBottomType this typir typeDetails
        = (bottomType, this', typir')
        /\ getIdentifier bottomType = name
        /\ isBottomType bottomType = true
        /\ forall anyDetails : BottomTypeDetails DomainElement,
             getBottomType this' typir' anyDetails = Some bottomType
             /\ getOrCreateBottomType this' typir' anyDetails
                = (bottomType, this', typir'))
  /\ (forall t,
        getType (typir_graph typir) name = Some t ->
        getOrCreateBottomType this typir typeDetails = (t, this, typir)).
Proof.
  intros this name.
  assert (Hname : bottom_name (bottomKind_options this) = name)
    by (subst this name; now destruct givenOptions).
  split; [intros anyDetails; exact Hname|].
  split;
    [|intros t Hlookup;
      unfold getOrCreateBottomType, getBottomType,
        BottomKind_calculateIdentifier;
      now rewrite Hname, Hlookup].
  intros Hfree.
  destruct (createBottomType_registers_one_rule_aux this typir typeDetails)
    as (this' & typir' & Hcreated & Hinstance & Hoptions & Hgraph).
  { subst this. reflexivity. }
  rewrite Hname in *.
  set (bottomType := BottomType (typir_nextRef typir) name) in *.
  exists bottomType, this', typir'.
  split; [exact Hcreated|]. split; [reflexivity|]. split; [reflexivity|].
  intros anyDetails.
  assert (Hfound : getBottomType this' typir' anyDetails = Some bottomType).
  { unfold getBottomType, BottomKind_calculateIdentifier.
    rewrite Hoptions, Hname, Hgraph.
    now destruct (addNode_fresh (typir_graph typir) bottomType Hfree)
      as (_ & Hlookup & _). }
  split; [exact Hfound|].
  unfold getOrCreateBottomType. now rewrite Hfound.
Qed.

(** X10: the bottom type of part_000 finds no problem in being a
    subtype of any type; as a supertype and in equality it accepts
    exactly the bottom types.  A fixed-parameters type and a bottom type
    are unequal from both sides.  The two sides of the subtype question
    differ: the bottom type asked whether it is a subtype of a
    fixed-parameters type finds no problem, the fixed-parameters type
    asked whether it is a supertype of the bottom type reports a kind
    conflict. *)
Theorem bottom_type_analysis (typir : Typir) (r : nat) (identifier : string) :
  let bottom := BottomType r identifier in
  (forall t, analyzeIsSubTypeOf typir bottom t = [])
  /\ (forall t,
        analyzeIsSuperTypeOf typir bottom t = [] <-> isBottomType t = true)
  /\ (forall t,
        analyzeTypeEqualityProblems typir bottom t = []
        <-> isBottomType t = true)
  /\ (forall r' kind identifier' typeValues,
        let fixed := FixedParameterType r' kind identifier' typeValues in
        analyzeTypeEqualityProblems typir bottom fixed
        = [TypeEqualityProblem bottom fixed [KindConflict bottom fixed]]
        /\ analyzeTypeEqualityProblems typir fixed bottom
           = [TypeEqualityProblem fixed bottom [KindConflict fixed bottom]]
        /\ analyzeIsSubTypeOf typir bottom fixed = []
        /\ analyzeIsSuperTypeOf typir fixed bottom
           = [SubTypeProblem fixed bottom [KindConflict bottom fixed]]
        /\ analyzeIsSubTypeOf typir fixed bottom
           = [SubTypeProblem bottom fixed [KindConflict fixed bottom]]
        /\ analyzeIsSuperTypeOf typir bottom fixed
           = [SubTypeProblem bottom fixed [KindConflict bottom fixed]]).
Proof.
  intros bottom. split; [reflexivity|]. split; [|split].
  - intros t. cbn [analyzeIsSuperTypeOf bottom].
    unfold BottomType_analyzeIsSuperTypeOf.
    destruct (isBottomType t); split; intros H; try reflexivity;
      discriminate.
  - intros t. cbn [analyzeTypeEqualityProblems bottom].
    unfold BottomType_analyzeTypeEqualityProblems.
    destruct (isBottomType t); split; intros H; try reflexivity;
      discriminate.
  - intros r' kind identifier' typeValues fixed. repeat split.
Qed.

(** ** The initializer of function types (function-initializer.ts) *)

Section InitializerBookkeeping.

Context {LanguageNode : Type}.
Implicit Types (e : Engine LanguageNode).
Implicit Types (rules : FunctionInferenceRules LanguageNode).
Implicit Types (this : FunctionTypeInitializer LanguageNode).

Lemma groupCore_withCompositeRules
  (f : list (BoundRule LanguageNode) -> list (BoundRule LanguageNode))
  (o : option (OverloadedFunctionDetails LanguageNode)) :
  groupCore <$> (withCompositeRules f <$> o) = groupCore <$> o.
Proof. now destruct o. Qed.

Lemma alter_rules_keeps_core
  (f : list (BoundRule LanguageNode) -> list (BoundRule LanguageNode))
  (functionName name : string)
  (m : gmap string (OverloadedFunctionDetails LanguageNode)) :
  groupCore <$> (alter (withCompositeRules f) functionName m !! name)
  = groupCore <$> (m !! name).
Proof.
  destruct (decide (functionName = name)) as [->|Hne].
  - rewrite lookup_alter_eq. apply groupCore_withCompositeRules.
  - now rewrite lookup_alter_ne.
Qed.

Lemma register_keeps_core rules (functionName name : string)
  (boundTo : option TypeNode) e :
  groupCore <$> (engine_mapNameTypes
                   (registerInferenceRules rules functionName boundTo e)
                 !! name)
  = groupCore <$> (engine_mapNameTypes e !! name).
Proof.
  destruct (registerInferenceRules_components rules functionName boundTo e)
    as (_ & _ & _ & _ & _ & ->).
  destruct (inferenceForCall rules); [|reflexivity].
  apply alter_rules_keeps_core.
Qed.

Lemma deregister_keeps_core rules (functionName name : string)
  (boundTo : option TypeNode) e :
  groupCore <$> (engine_mapNameTypes
                   (deregisterInferenceRules rules functionName boundTo e)
                 !! name)
  = groupCore <$> (engine_mapNameTypes e !! name).
Proof.
  destruct (deregisterInferenceRules_components rules functionName boundTo e)
    as (_ & _ & _ & _ & _ & ->).
  destruct (inferenceForCall rules); [|reflexivity].
  apply alter_rules_keeps_core.
Qed.

Lemma register_keeps_other_groups rules (functionName name : string)
  (boundTo : option TypeNode) e :
  name <> functionName ->
  engine_mapNameTypes (registerInferenceRules rules functionName boundTo e)
  !! name
  = engine_mapNameTypes e !! name.
Proof.
  intros Hne.
  destruct (registerInferenceRules_components rules functionName boundTo e)
    as (_ & _ & _ & _ & _ & ->).
  destruct (inferenceForCall rules); [|reflexivity].
  now rewrite lookup_alter_ne.
Qed.

Lemma deregister_keeps_other_groups rules (functionName name : string)
  (boundTo : option TypeNode) e :
  name <> functionName ->
  engine_mapNameTypes (deregisterInferenceRules rules functionName boundTo e)
  !! name
  = engine_mapNameTypes e !! name.
Proof.
  intros Hne.
  destruct (deregisterInferenceRules_components rules functionName boundTo e)
    as (_ & _ & _ & _ & _ & ->).
  destruct (inferenceForCall rules); [|reflexivity].
  now rewrite lookup_alter_ne.
Qed.

Lemma createInferenceRules_mirrors
  (details : CreateFunctionTypeDetails LanguageNode) (functionType : TypeNode)
  (r : nat) :
  let rules := fst (createInferenceRules details functionType r) in
  isSome (inferenceForCall rules) = isSome (td_inferenceRuleForCalls details)
  /\ isSome (validationForCall rules)
     = isSome (td_validationForCall details)
  /\ isSome (inferenceForDeclaration rules)
     = isSome (td_inferenceRuleForDeclaration details).
Proof.
  unfold createInferenceRules.
  destruct (td_inferenceRuleForCalls details),
    (td_validationForCall details),
    (td_inferenceRuleForDeclaration details); repeat split.
Qed.

End InitializerBookkeeping.

(** X11: the constructor of [FunctionTypeInitializer] raises an
    error in exactly three cases: the details give an inference rule
    for calls but no output parameter; the kind rejects the function
    name; the details give a validation for calls but no inference rule
    for calls. *)
Theorem initializer_constructor_rejects {LanguageNode : Type}
  (kind : FunctionKind LanguageNode)
  (details : CreateFunctionTypeDetails LanguageNode)
  (e : Engine LanguageNode) :
  (exists message, newFunctionTypeInitializer kind details e = Thrown message)
  <-> (td_outputParameter details = None
       /\ td_inferenceRuleForCalls details <> None)
      \/ (exists message,
            kind_enforceFunctionName kind (td_functionName details)
              (kind_enforceFunctionNameOption kind) = Thrown message)
      \/ (td_validationForCall details <> None
          /\ td_inferenceRuleForCalls details = None).
Proof.
  unfold newFunctionTypeInitializer.
  destruct (td_outputParameter details) as [output|] eqn:Houtput;
    destruct (td_inferenceRuleForCalls details) as [forCalls|] eqn:Hcalls;
    cbn [isSome negb andb].
  all: try (split; [intros _ | intros _; eauto]; left; split; congruence).
  all: destruct (kind_enforceFunctionName kind (td_functionName details)
                   (kind_enforceFunctionNameOption kind))
         as [[]|message] eqn:Hname; cbn [bindCompletion].
  all: try (split; [intros _ | intros _; eauto]; right; left; eauto).
  all: destruct (td_validationForCall details) as [validate|] eqn:Hvalidate;
    cbn [isSome negb andb].
  all: try (split; [intros _ | intros _; eauto]; right; right;
            split; congruence).
  all: split;
    [ intros [message Hthrown];
      repeat match type of Hthrown with
             | context [match ?x with _ => _ end] => destruct x
             end; discriminate
    | intros [[H1 H2]|[[message H]|[H1 H2]]]; congruence ].
Qed.

(** The effects of the constructor. *)
Lemma newFunctionTypeInitializer_effects {LanguageNode : Type}
  (kind : FunctionKind LanguageNode)
  (details : CreateFunctionTypeDetails LanguageNode)
  (e0 e1 : Engine LanguageNode)
  (this : FunctionTypeInitializer LanguageNode) :
  newFunctionTypeInitializer kind details e0 = Returned (this, e1) ->
  let functionName := td_functionName details in
  let rules := inferenceRules this in
  (engine_graph e1 = engine_graph e0
   /\ typeDetails this = details
   /\ isFunctionType (getTypeInitial this) = true
   /\ getIdentifier (getTypeInitial this) = kind_calculateIdentifier kind details
   /\ engine_typeListeners e1
      = engine_typeListeners e0
        ++ [(ref (getTypeInitial this), initializer_ref this)]
   /\ initializer_ref this = engine_nextRef e0)
  /\ (forall name,
        name <> functionName ->
        engine_mapNameTypes e1 !! name = engine_mapNameTypes e0 !! name)
  /\ match engine_mapNameTypes e0 !! functionName with
     | Some group0 =>
         groupCore <$> (engine_mapNameTypes e1 !! functionName)
         = Some (groupCore group0)
         /\ engine_inference e1
            = engine_inference e0 ++ declarationEntries rules None
     | None =>
         exists r,
           groupCore <$> (engine_mapNameTypes e1 !! functionName)
           = Some ([], r, None)
           /\ engine_inference e1
              = engine_inference e0
                ++ [mkBoundRule (OverloadedFunctionsTypeInferenceRule r) None]
                ++ declarationEntries rules None
     end
  /\ engine_validation e1 = engine_validation e0 ++ validationEntries rules
  /\ (isSome (inferenceForCall rules)
      = isSome (td_inferenceRuleForCalls details)
      /\ isSome (validationForCall rules)
         = isSome (td_validationForCall details)
      /\ isSome (inferenceForDeclaration rules)
         = isSome (td_inferenceRuleForDeclaration details))
  /\ (validationForCall rules <> None -> inferenceForCall rules <> None)
  /\ (inferenceForCall rules <> None -> td_outputParameter details <> None).
Proof.
  unfold newFunctionTypeInitializer.
  destruct (negb (isSome (td_outputParameter details))
            && isSome (td_inferenceRuleForCalls details)) eqn:Houtput;
    [discriminate|].
  destruct (kind_enforceFunctionName kind (td_functionName details)
              (kind_enforceFunctionNameOption kind)); [|discriminate].
  cbn [bindCompletion].
  destruct (isSome (td_validationForCall details)
            && negb (isSome (td_inferenceRuleForCalls details)))
    eqn:Hvalidation; [discriminate|].
  assert (Hguards :
            forall (functionType : TypeNode) (r : nat),
              let rules := fst (createInferenceRules details functionType r) in
              (validationForCall rules <> None ->
               inferenceForCall rules <> None)
              /\ (inferenceForCall rules <> None ->
                  td_outputParameter details <> None)).
  { intros functionType r rules.
    destruct (createInferenceRules_mirrors details functionType r)
      as (Hcall & Hval & _). fold rules in Hcall, Hval.
    destruct (inferenceForCall rules), (validationForCall rules),
      (td_inferenceRuleForCalls details), (td_validationForCall details),
      (td_outputParameter details); cbn in *; split; congruence. }
  destruct (engine_mapNameTypes e0 !! td_functionName details)
    as [group0|] eqn:Hgroup.
  - destruct (createInferenceRules details
                (newFunctionType kind details (S (engine_nextRef e0)))
                (S (S (engine_nextRef e0)))) as [rules r2] eqn:Hcreated.
    intros H. inversion H; subst. clear H.
    cbn [inferenceRules typeDetails getTypeInitial initialFunctionType
      initializer_ref engine_graph engine_mapNameTypes engine_inference
      engine_validation engine_typeListeners].
    set (base := mkEngine (engine_graph e0) (engine_mapNameTypes e0)
                   (engine_inference e0) (engine_validation e0)
                   (engine_typeListeners e0) r2).
    destruct (registerInferenceRules_components rules
                (td_functionName details) None base)
      as (Hg & _ & Hl & Hi & Hv & _).
    pose proof (createInferenceRules_mirrors details
                  (newFunctionType kind details (S (engine_nextRef e0)))
                  (S (S (engine_nextRef e0)))) as Hmirror.
    pose proof (Hguards (newFunctionType kind details (S (engine_nextRef e0)))
                  (S (S (engine_nextRef e0)))) as Hguard.
    cbn zeta in Hmirror, Hguard. rewrite Hcreated in Hmirror, Hguard.
    cbn [fst] in Hmirror, Hguard.
    split; [|split; [|split; [|split; [|split]]]].
    + rewrite Hg, Hl. repeat split.
    + intros name Hne. now rewrite register_keeps_other_groups.
    + split.
      * rewrite register_keeps_core. cbn [base engine_mapNameTypes].
        now rewrite Hgroup.
      * exact Hi.
    + exact Hv.
    + exact Hmirror.
    + exact Hguard.
  - destruct (createInferenceRules details
                (newFunctionType kind details (S (S (engine_nextRef e0))))
                (S (S (S (engine_nextRef e0))))) as [rules r2] eqn:Hcreated.
    intros H. inversion H; subst. clear H.
    cbn [inferenceRules typeDetails getTypeInitial initialFunctionType
      initializer_ref engine_graph engine_mapNameTypes engine_inference
      engine_validation engine_typeListeners].
    set (base :=
           mkEngine (engine_graph e0)
             (<[td_functionName details :=
                  mkOverloadedFunctionDetails []
                    (mkCompositeRule (S (engine_nextRef e0)) []) None]>
                (engine_mapNameTypes e0))
             (addBoundRule (engine_inference e0)
                (OverloadedFunctionsTypeInferenceRule (S (engine_nextRef e0)))
                None)
             (engine_validation e0) (engine_typeListeners e0) r2).
    destruct (registerInferenceRules_components rules
                (td_functionName details) None base)
      as (Hg & _ & Hl & Hi & Hv & _).
    pose proof (createInferenceRules_mirrors details
                  (newFunctionType kind details (S (S (engine_nextRef e0))))
                  (S (S (S (engine_nextRef e0))))) as Hmirror.
    pose proof (Hguards
                  (newFunctionType kind details (S (S (engine_nextRef e0))))
                  (S (S (S (engine_nextRef e0))))) as Hguard.
    cbn zeta in Hmirror, Hguard. rewrite Hcreated in Hmirror, Hguard.
    cbn [fst] in Hmirror, Hguard.
    split; [|split; [|split; [|split; [|split]]]].
    + rewrite Hg, Hl. repeat split.
    + intros name Hne. rewrite register_keeps_other_groups by exact Hne.
      cbn [base engine_mapNameTypes]. now rewrite lookup_insert_ne.
    + exists (S (engine_nextRef e0)). split.
      * rewrite register_keeps_core. cbn [base engine_mapNameTypes].
        now rewrite lookup_insert_eq.
      * rewrite Hi. cbn [base engine_inference]. unfold addBoundRule.
        now rewrite <- app_assoc.
    + exact Hv.
    + exact Hmirror.
    + exact Hguard.
Qed.

(** X12: what the constructor of [FunctionTypeInitializer] leaves
    behind when it returns.  The graph is unchanged (the initial
    function type is not yet a node), the initializer listens to its
    initial type, and the groups of other function names are untouched.
    If the name already has an overload group, its functions, its
    composite rule and its shared output type stay as they are and no
    further composite rule is registered; otherwise an empty group is
    opened and its composite rule is registered once at the inference
    service.  The created rules mirror the details: a rule for calls,
    for the validation and for the declaration exists exactly when the
    details give one; hence a validation rule exists only together with
    a rule for calls, and a rule for calls only with an output
    parameter. *)
Theorem initializer_constructor_prepares_the_group {LanguageNode : Type}
  (kind : FunctionKind LanguageNode)
  (details : CreateFunctionTypeDetails LanguageNode)
  (e0 e1 : Engine LanguageNode)
  (this : FunctionTypeInitializer LanguageNode) :
  newFunctionTypeInitializer kind details e0 = Returned (this, e1) ->
  let functionName := td_functionName details in
  let rules := inferenceRules this in
  (engine_graph e1 = engine_graph e0
   /\ typeDetails this = details
   /\ isFunctionType (getTypeInitial this) = true
   /\ getIdentifier (getTypeInitial this) = kind_calculateIdentifier kind details
   /\ engine_typeListeners e1
      = engine_typeListeners e0
        ++ [(ref (getTypeInitial this), initializer_ref this)])
  /\ (forall name,
        name <> functionName ->
        engine_mapNameTypes e1 !! name = engine_mapNameTypes e0 !! name)
  /\ match engine_mapNameTypes e0 !! functionName with
     | Some group0 =>
         groupCore <$> (engine_mapNameTypes e1 !! functionName)
         = Some (groupCore group0)
         /\ engine_inference e1
            = engine_inference e0 ++ declarationEntries rules None
     | None =>
         exists r,
           groupCore <$> (engine_mapNameTypes e1 !! functionName)
           = Some ([], r, None)
           /\ engine_inference e1
              = engine_inference e0
                ++ [mkBoundRule (OverloadedFunctionsTypeInferenceRule r) None]
                ++ declarationEntries rules None
     end
  /\ engine_validation e1 = engine_validation e0 ++ validationEntries rules
  /\ (isSome (inferenceForCall rules)
      = isSome (td_inferenceRuleForCalls details)
      /\ isSome (validationForCall rules)
         = isSome (td_validationForCall details)
      /\ isSome (inferenceForDeclaration rules)
         = isSome (td_inferenceRuleForDeclaration details))
  /\ (validationForCall rules <> None -> inferenceForCall rules <> None)
  /\ (inferenceForCall rules <> None -> td_outputParameter details <> None).
Proof.
  intros Hnew.
  destruct (newFunctionTypeInitializer_effects kind details e0 e1 this Hnew)
    as ((Hgraph & Hdetails & Hfunction & Hidentifier & Hlisteners & _)
        & Hrest).
  split; [|exact Hrest]. repeat split; assumption.
Qed.

Lemma getType_identifier (g : TypeGraph) (key : string) (t : TypeNode) :
  getType g key = Some t -> getIdentifier t = key /\ In t (nodes g).
Proof.
  unfold getType. intros Hfound.
  apply find_some in Hfound. destruct Hfound as [Hin Hkey].
  split; [now apply String.eqb_eq | exact Hin].
Qed.

Lemma onSwitchedToIdentifiable_steps {LanguageNode : Type}
  (services : TypirServices) (kind : FunctionKind LanguageNode)
  (this : FunctionTypeInitializer LanguageNode) (functionType : TypeNode)
  (e : Engine LanguageNode) :
  let functionName := td_functionName (typeDetails this) in
  isFunctionType functionType = true ->
  exists ready this' e2,
    onSwitchedToIdentifiable services kind this functionType e
    = match engine_mapNameTypes e2 !! functionName with
      | None => Thrown "TypeError"
      | Some _ =>
          Returned
            (ready, this',
             updateGroup e2 functionName
               (rememberFunction services kind (typeDetails this) ready))
      end
    /\ (forall name,
          groupCore <$> (engine_mapNameTypes e2 !! name)
          = groupCore <$> (engine_mapNameTypes e !! name))
    /\ (forall name,
          name <> functionName ->
          engine_mapNameTypes e2 !! name = engine_mapNameTypes e !! name)
    /\ getType (engine_graph e2) (getIdentifier functionType) = Some ready
    /\ getIdentifier ready = getIdentifier functionType
    /\ typeDetails this' = typeDetails this
    /\ initialFunctionType this' = initialFunctionType this
    /\ initializer_ref this' = initializer_ref this.
Proof.
  intros functionName Hfunction. unfold onSwitchedToIdentifiable.
  rewrite Hfunction. cbn [negb]. fold functionName.
  unfold producedType.
  destruct (getType (engine_graph e) (getIdentifier functionType))
    as [existing|] eqn:Hlookup.
  - destruct (getType_identifier _ _ _ Hlookup) as [Hid _].
    destruct (sameObject existing functionType) eqn:Hsame; cbn [negb].
    + eexists existing, this, _. split; [reflexivity|].
      split; [|split; [|split; [|repeat split]]].
      * intros name. now rewrite register_keeps_core, deregister_keeps_core.
      * intros name Hne.
        now rewrite register_keeps_other_groups,
          deregister_keeps_other_groups.
      * destruct (registerInferenceRules_components (inferenceRules this)
                    functionName (Some existing)
                    (deregisterInferenceRules (inferenceRules this)
                       functionName None e)) as (-> & _).
        destruct (deregisterInferenceRules_components (inferenceRules this)
                    functionName None e) as (-> & _).
        exact Hlookup.
      * exact Hid.
    + destruct (createInferenceRules (typeDetails this) existing
                  (engine_nextRef
                     (deregisterInferenceRules (inferenceRules this)
                        functionName None
                        (removeTypeListener e functionType this))))
        as [rules r] eqn:Hcreated.
      eexists existing, _, _. split; [reflexivity|].
      split; [|split; [|split; [|repeat split]]].
      * intros name. rewrite register_keeps_core.
        cbn [engine_mapNameTypes]. now rewrite deregister_keeps_core.
      * intros name Hne. rewrite register_keeps_other_groups by exact Hne.
        cbn [engine_mapNameTypes].
        now rewrite deregister_keeps_other_groups.
      * match goal with
        | |- getType (engine_graph (registerInferenceRules ?a ?b ?c ?d)) _ = _ =>
            destruct (registerInferenceRules_components a b c d) as (-> & _)
        end.
        cbn [engine_graph].
        destruct (deregisterInferenceRules_components (inferenceRules this)
                    functionName None
                    (removeTypeListener e functionType this)) as (-> & _).
        exact Hlookup.
      * exact Hid.
  - rewrite sameObject_refl. cbn [negb].
    eexists functionType, this, _. split; [reflexivity|].
    split; [|split; [|split; [|repeat split]]].
    + intros name. now rewrite register_keeps_core, deregister_keeps_core.
    + intros name Hne.
      now rewrite register_keeps_other_groups, deregister_keeps_other_groups.
    + match goal with
      | |- getType (engine_graph (registerInferenceRules ?a ?b ?c ?d)) _ = _ =>
          destruct (registerInferenceRules_components a b c d) as (-> & _)
      end.
      match goal with
      | |- getType (engine_graph (deregisterInferenceRules ?a ?b ?c ?d)) _ = _ =>
          destruct (deregisterInferenceRules_components a b c d) as (-> & _)
      end.
      cbn [engine_graph].
      now destruct (addNode_fresh (engine_graph e) functionType Hlookup)
        as (_ & Hfound & _).
Qed.

(** X13: [onSwitchedToIdentifiable] fails exactly when the given
    type is not a function type or the function name has no overload
    group.  When it returns, the produced type is the node of the graph
    with the identifier of the given type; exactly one entry, the
    produced type with the inference rule for calls of the details, is
    appended to the functions of the group of the name, whose composite
    rule stays the same object; the groups of all other names are
    untouched, and the initializer keeps its details, its initial type
    and its identity. *)
Theorem identifiable_function_joins_its_group {LanguageNode : Type}
  (services : TypirServices) (kind : FunctionKind LanguageNode)
  (this : FunctionTypeInitializer LanguageNode) (functionType : TypeNode)
  (e : Engine LanguageNode) :
  let functionName := td_functionName (typeDetails this) in
  ((exists message,
       onSwitchedToIdentifiable services kind this functionType e
       = Thrown message)
   <-> isFunctionType functionType = false
       \/ engine_mapNameTypes e !! functionName = None)
  /\ (forall ready this' e',
        onSwitchedToIdentifiable services kind this functionType e
        = Returned (ready, this', e') ->
        getType (engine_graph e') (getIdentifier functionType) = Some ready
        /\ getIdentifier ready = getIdentifier functionType
        /\ (typeDetails this' = typeDetails this
            /\ initialFunctionType this' = initialFunctionType this
            /\ initializer_ref this' = initializer_ref this)
        /\ (forall name,
              name <> functionName ->
              engine_mapNameTypes e' !! name = engine_mapNameTypes e !! name)
        /\ exists group group',
             engine_mapNameTypes e !! functionName = Some group
             /\ engine_mapNameTypes e' !! functionName = Some group'
             /\ overloadedFunctions group'
                = overloadedFunctions group
                  ++ [mkOverloadedFunction ready
                        (td_inferenceRuleForCalls (typeDetails this))]
             /\ composite_ref (inference group')
                = composite_ref (inference group)).
Proof.
  intros functionName.
  destruct (isFunctionType functionType) eqn:Hfunction.
  - destruct (onSwitchedToIdentifiable_steps services kind this functionType
                e Hfunction)
      as (ready0 & this0 & e2 & Heq & Hcore & Hother & Hnode & Hid
          & Hdetails & Hinitial & Href).
    fold functionName in Heq, Hother.
    pose proof (Hcore functionName) as Hcore_fn.
    split.
    + rewrite Heq.
      destruct (engine_mapNameTypes e2 !! functionName) as [group2|];
        destruct (engine_mapNameTypes e !! functionName) as [group|];
        try discriminate.
      * split; [intros [message H]; discriminate
               | intros [H|H]; discriminate].
      * split; [eauto | intros _; eauto].
    + intros ready this' e' Hreturned. rewrite Heq in Hreturned.
      destruct (engine_mapNameTypes e2 !! functionName) as [group2|] eqn:H2;
        [|discriminate].
      destruct (engine_mapNameTypes e !! functionName) as [group|] eqn:H0;
        [|discriminate].
      inversion Hreturned; subst ready this' e'. clear Hreturned.
      cbn [updateGroup engine_graph engine_mapNameTypes].
      split; [exact Hnode|]. split; [exact Hid|].
      split; [auto|]. split.
      * intros name Hne. rewrite lookup_alter_ne by congruence.
        now apply Hother.
      * exists group, (rememberFunction services kind (typeDetails this)
                         ready0 group2).
        split; [reflexivity|]. split.
        { rewrite lookup_alter_eq, H2. reflexivity. }
        cbn in Hcore_fn. inversion Hcore_fn as [[Hf Hr Hs]].
        cbn [rememberFunction overloadedFunctions inference].
        now rewrite Hf, Hr.
  - split.
    + split; [intros _; now left|]. intros _.
      unfold onSwitchedToIdentifiable. rewrite Hfunction. cbn. eauto.
    + intros ready this' e'. unfold onSwitchedToIdentifiable.
      rewrite Hfunction. discriminate.
Qed.

Section RegisterDeregister.

Context {LanguageNode : Type}.
Implicit Types (e : Engine LanguageNode).
Implicit Types (rules : FunctionInferenceRules LanguageNode).

Lemma filter_keeps_all {A : Type} (p : A -> bool) (l : list A) :
  (forall x, In x l -> p x = true) -> List.filter p l = l.
Proof.
  induction l as [|a l IH]; intros Hall; [reflexivity|].
  cbn [List.filter]. rewrite (Hall a) by now left.
  rewrite IH; [reflexivity|]. intros x Hx. apply Hall. now right.
Qed.

Lemma sameBinding_refl (boundTo : option TypeNode) :
  sameBinding boundTo boundTo = true.
Proof. destruct boundTo; [apply sameObject_refl | reflexivity]. Qed.

Lemma removeBoundRule_added (registry : list (BoundRule LanguageNode))
  (rule : RuleObject LanguageNode) (boundTo : option TypeNode) :
  (forall entry, In entry registry ->
                 ruleRef (bound_rule entry) = ruleRef rule ->
                 sameBinding (bound_to entry) boundTo = false) ->
  removeBoundRule (addBoundRule registry rule boundTo) rule boundTo = registry.
Proof.
  intros Hfresh. unfold removeBoundRule, addBoundRule.
  rewrite List.filter_app. cbn [List.filter bound_rule bound_to].
  rewrite Nat.eqb_refl, sameBinding_refl. cbn [andb negb].
  rewrite app_nil_r. apply filter_keeps_all.
  intros entry Hin.
  destruct (Nat.eqb_spec (ruleRef (bound_rule entry)) (ruleRef rule))
    as [Href|Href]; [|reflexivity].
  now rewrite (Hfresh entry Hin Href).
Qed.

Lemma removeValidationRule_added (registered : list (RuleObject LanguageNode))
  (rule : RuleObject LanguageNode) :
  (forall r', In r' registered -> ruleRef r' <> ruleRef rule) ->
  removeValidationRule (addValidationRule registered rule) rule = registered.
Proof.
  intros Hfresh. unfold removeValidationRule, addValidationRule.
  rewrite List.filter_app. cbn [List.filter].
  rewrite Nat.eqb_refl. cbn [negb]. rewrite app_nil_r.
  apply filter_keeps_all. intros r' Hin.
  destruct (Nat.eqb_spec (ruleRef r') (ruleRef rule)) as [Href|Href];
    [|reflexivity].
  now destruct (Hfresh r' Hin).
Qed.

Lemma deregister_after_register rules (functionName : string)
  (boundTo : option TypeNode) e :
  inferenceNotRegistered e functionName rules boundTo ->
  validationNotRegistered e rules ->
  deregisterInferenceRules rules functionName boundTo
    (registerInferenceRules rules functionName boundTo e)
  = e.
Proof.
  intros [Hcall Hdeclaration] Hvalidation.
  destruct e as [graph mapNameTypes registry validation typeListeners next].
  unfold deregisterInferenceRules, registerInferenceRules, updateGroup,
    groupRules, validationNotRegistered in *.
  cbn [engine_graph engine_mapNameTypes engine_inference engine_validation
    engine_typeListeners engine_nextRef] in *.
  assert (Hmap :
            forall rule, inferenceForCall rules = Some rule ->
              alter
                (withCompositeRules
                   (fun registry0 => removeBoundRule registry0 rule boundTo))
                functionName
                (alter
                   (withCompositeRules
                      (fun registry0 => addBoundRule registry0 rule boundTo))
                   functionName mapNameTypes)
              = mapNameTypes).
  { intros rule Hrule. rewrite alter_alter_eq. apply alter_id.
    intros group Hgroup. unfold compose, withCompositeRules.
    cbn [overloadedFunctions inference sameOutputType composite_ref
      composite_rules].
    rewrite removeBoundRule_added.
    - now destruct group as [functions [compositeRef compositeRules] same].
    - intros entry Hin. apply (Hcall rule entry Hrule).
      now rewrite Hgroup. }
  destruct (inferenceForCall rules) as [forCall|] eqn:HforCall;
    destruct (validationForCall rules) as [forValidation|] eqn:HforValidation;
    destruct (inferenceForDeclaration rules) as [forDeclaration|]
      eqn:HforDeclaration;
    cbn [engine_graph engine_mapNameTypes engine_inference engine_validation
      engine_typeListeners engine_nextRef];
    rewrite ?(Hmap _ eq_refl);
    rewrite ?removeValidationRule_added
      by (intros r' Hin; now apply (Hvalidation forValidation r'));
    rewrite ?removeBoundRule_added
      by (intros entry Hin; now apply (Hdeclaration forDeclaration entry));
    reflexivity.
Qed.

End RegisterDeregister.

(** X14: deregistering the rules of an initializer undoes their
    registration.  On an engine where the function name has its
    overload group: if no rule object of [rules] is registered under
    the binding [boundTo] (neither at the overload group of the name
    nor at the inference service) and none of its validation rules is
    registered, then registering the rules under that binding and
    deregistering them under the same binding gives back the engine as
    it was.  Deregistering under another binding does not remove a
    registered rule for calls: rules registered unbound and deregistered
    for a type stay in the group. *)
Theorem deregistration_undoes_registration {LanguageNode : Type}
  (rules : FunctionInferenceRules LanguageNode) (functionName : string)
  (boundTo : option TypeNode) (e : Engine LanguageNode) :
  is_Some (engine_mapNameTypes e !! functionName) ->
  inferenceNotRegistered e functionName rules boundTo ->
  validationNotRegistered e rules ->
  deregisterInferenceRules rules functionName boundTo
    (registerInferenceRules rules functionName boundTo e)
  = e
  /\ forall (t : TypeNode) (rule : RuleObject LanguageNode),
       inferenceForCall rules = Some rule ->
       In (mkBoundRule rule None)
         (groupRules
            (deregisterInferenceRules rules functionName (Some t)
               (registerInferenceRules rules functionName None e))
            functionName).
Proof.
  intros Hgroup Hinference Hvalidation.
  split; [now apply deregister_after_register|].
  intros t rule Hrule.
  rewrite groupRules_deregistered, Hrule.
  rewrite groupRules_registered by exact Hgroup.
  unfold removeBoundRule. apply filter_In. split.
  - apply in_or_app. right. unfold callEntries. rewrite Hrule. now left.
  - cbn [bound_rule bound_to sameBinding]. now rewrite andb_false_r.
Qed.

Lemma omap_id_length {A : Type} (l : list (option A)) :
  length (omap id l) <= length l
  /\ (In None l -> length (omap id l) < length l).
Proof.
  induction l as [|o l [IHle IHlt]]; [split; [reflexivity | intros []]|].
  destruct o as [a|]; cbn.
  - split; [lia|]. intros [H|H]; [discriminate|]. specialize (IHlt H). lia.
  - split; [lia|]. intros _. lia.
Qed.

Lemma omap_id_Some {A : Type} (l : list A) : omap id (map Some l) = l.
Proof. induction l as [|a l IH]; [reflexivity|]. cbn. now rewrite IH. Qed.

(** X15: the validation rule that [createInferenceRules] builds for
    the calls of a function.  A node that the inference rule for calls
    does not accept (by its filter or its matching) yields no problem.
    For an accepted node without input arguments, or when fewer than two
    functions are registered under the name, the validation given in
    the details is applied to the node and the function type without
    asking the inference or the assignability service.  For an
    overloaded function the types of the arguments are inferred first:
    if the type of some argument cannot be inferred, no problem is
    reported; if all are inferred, the validation of the details is
    applied exactly when the comparison of the argument types with the
    types of the input parameters by assignability reports no
    conflict. *)
Theorem validation_for_call_checks_only_overloads {LanguageNode : Type}
  (mapNameTypes : gmap string (OverloadedFunctionDetails LanguageNode))
  (r : nat) (details : CreateFunctionTypeDetails LanguageNode)
  (functionType : TypeNode) (forCalls : InferFunctionCallRule LanguageNode)
  (validate : LanguageNode -> TypeNode -> list string)
  (languageNode : LanguageNode) :
  td_inferenceRuleForCalls details = Some forCalls ->
  td_validationForCall details = Some validate ->
  let rule := ValidationForCall r details functionType in
  let isCall :=
    call_filter forCalls languageNode && call_matching forCalls languageNode in
  let inputArguments := call_inputArguments forCalls languageNode in
  let overloaded :=
    match mapNameTypes !! td_functionName details with
    | Some infos => Nat.leb 2 (length (overloadedFunctions infos))
    | None => false
    end in
  (isCall = false ->
   forall inferType getAssignabilityProblem,
     applyValidationForCall mapNameTypes inferType getAssignabilityProblem
       rule languageNode = [])
  /\ (isCall = true ->
      inputArguments = [] \/ overloaded = false ->
      forall inferType getAssignabilityProblem,
        applyValidationForCall mapNameTypes inferType getAssignabilityProblem
          rule languageNode = validate languageNode functionType)
  /\ (isCall = true ->
      inputArguments <> [] ->
      overloaded = true ->
      forall inferType getAssignabilityProblem,
        ((exists argument,
             In argument inputArguments /\ inferType argument = None) ->
         applyValidationForCall mapNameTypes inferType getAssignabilityProblem
           rule languageNode = [])
        /\ (forall actualInputTypes,
              map inferType inputArguments = map Some actualInputTypes ->
              applyValidationForCall mapNameTypes inferType
                getAssignabilityProblem rule languageNode
              = match
                  checkTypes actualInputTypes
                    (map pair_type (td_inputParameters details))
                    getAssignabilityProblem
                with
                | [] => validate languageNode functionType
                | _ :: _ => []
                end)).
Proof.
  intros HforCalls Hvalidate rule isCall inputArguments overloaded.
  subst rule. cbn [applyValidationForCall].
  rewrite HforCalls, Hvalidate. fold isCall inputArguments overloaded.
  split; [|split].
  - intros ->. reflexivity.
  - intros -> Hshort inferType getAssignabilityProblem.
    destruct Hshort as [Hnone|Hsingle].
    + now rewrite Hnone.
    + rewrite Hsingle. now destruct (Nat.leb 1 (length inputArguments)).
  - intros -> Harguments -> inferType getAssignabilityProblem.
    assert (Hlen : Nat.leb 1 (length inputArguments) = true).
    { subst inputArguments.
      destruct (call_inputArguments forCalls languageNode);
        [congruence | reflexivity]. }
    rewrite Hlen. cbn [andb]. split.
    + intros (argument & Hin & Hnone).
      destruct (omap_id_length (map inferType inputArguments)) as [_ Hlt].
      assert (Hmissing : In None (map inferType inputArguments)).
      { rewrite <- Hnone. now apply in_map. }
      specialize (Hlt Hmissing).
      destruct (Nat.eqb_spec (length (map inferType inputArguments))
                  (length (omap id (map inferType inputArguments))));
        [lia | reflexivity].
    + intros actualInputTypes Hall.
      rewrite Hall, omap_id_Some, length_map, Nat.eqb_refl.
      now destruct (checkTypes actualInputTypes
                      (map pair_type (td_inputParameters details))
                      getAssignabilityProblem).
Qed.

Lemma onSwitchedToIdentifiable_rules {LanguageNode : Type}
  (services : TypirServices) (kind : FunctionKind LanguageNode)
  (this this' : FunctionTypeInitializer LanguageNode)
  (functionType ready : TypeNode) (e e' : Engine LanguageNode) :
  onSwitchedToIdentifiable services kind this functionType e
  = Returned (ready, this', e') ->
  (this' = this
   /\ (ready = functionType
       \/ (In ready (nodes (engine_graph e))
           /\ ref ready = ref functionType)))
  \/ exists r,
       inferenceRules this'
       = fst (createInferenceRules (typeDetails this) ready r).
Proof.
  unfold onSwitchedToIdentifiable.
  destruct (isFunctionType functionType); cbn [negb]; [|discriminate].
  unfold producedType.
  destruct (getType (engine_graph e) (getIdentifier functionType))
    as [existing|] eqn:Hlookup.
  - destruct (getType_identifier _ _ _ Hlookup) as [_ Hin].
    destruct (sameObject existing functionType) eqn:Hsame; cbn [negb].
    + match goal with
      | |- context [match ?m !! ?k with _ => _ end] => destruct (m !! k)
      end; [|discriminate].
      intros H. inversion H; subst. left. split; [reflexivity|].
      right. split; [exact Hin|]. now apply Nat.eqb_eq.
    + destruct (createInferenceRules (typeDetails this) existing
                  (engine_nextRef
                     (deregisterInferenceRules (inferenceRules this)
                        (td_functionName (typeDetails this)) None
                        (removeTypeListener e functionType this))))
        as [rules r] eqn:Hcreated.
      match goal with
      | |- context [match ?m !! ?k with _ => _ end] => destruct (m !! k)
      end; [|discriminate].
      intros H. inversion H; subst. right.
      eexists. cbn [inferenceRules]. now rewrite Hcreated.
  - rewrite sameObject_refl. cbn [negb].
    match goal with
    | |- context [match ?m !! ?k with _ => _ end] => destruct (m !! k)
    end; [|discriminate].
    intros H. inversion H; subst. left. split; [reflexivity|]. now left.
Qed.

(** X16: after [onSwitchedToIdentifiable] the rules of the
    initializer belong to the produced type.  If the rules of the
    initializer were created for the type that is switched, and the
    nodes of the graph are identified by their references, then the
    rules of the returned initializer are those [createInferenceRules]
    creates for the produced type: the rule for the declaration answers
    with the produced type exactly for the nodes that the rule of the
    details accepts and is not applicable to the others, and the
    validation rule is the one of the produced type. *)
Theorem rules_are_created_for_the_produced_type {LanguageNode : Type}
  (services : TypirServices) (kind : FunctionKind LanguageNode)
  (this this' : FunctionTypeInitializer LanguageNode)
  (functionType ready : TypeNode) (e e' : Engine LanguageNode) :
  (exists r0,
      inferenceRules this
      = fst (createInferenceRules (typeDetails this) functionType r0)) ->
  referencesIdentify (engine_graph e) functionType ->
  onSwitchedToIdentifiable services kind this functionType e
  = Returned (ready, this', e') ->
  (exists r,
      inferenceRules this'
      = fst (createInferenceRules (typeDetails this) ready r))
  /\ (forall rule languageNode,
        inferenceForDeclaration (inferenceRules this') = Some rule ->
        applyInferenceForDeclaration rule languageNode
        = match td_inferenceRuleForDeclaration (typeDetails this) with
          | Some isDeclaration =>
              if isDeclaration languageNode then RuleType ready
              else InferenceRuleNotApplicable
          | None => InferenceRuleNotApplicable
          end)
  /\ (forall rule,
        inferenceForCall (inferenceRules this') = Some rule
        \/ validationForCall (inferenceRules this') = Some rule ->
        ruleFunctionType rule = Some ready).
Proof.
  intros [r0 Hrules] Hrefs Hreturned.
  assert (Hcreated :
            exists r,
              inferenceRules this'
              = fst (createInferenceRules (typeDetails this) ready r)).
  { destruct (onSwitchedToIdentifiable_rules _ _ _ _ _ _ _ _ Hreturned)
      as [[-> Hready]|Hnew]; [|exact Hnew].
    assert (ready = functionType) as ->
        by (destruct Hready as [H|[Hin Href]]; [exact H | now apply Hrefs]).
    eauto. }
  split; [exact Hcreated|].
  destruct Hcreated as [r ->]. unfold createInferenceRules.
  destruct (td_inferenceRuleForCalls (typeDetails this)),
    (td_validationForCall (typeDetails this)),
    (td_inferenceRuleForDeclaration (typeDetails this)) eqn:Hdeclaration;
    cbn [fst inferenceForDeclaration inferenceForCall validationForCall].
  all: split;
    [ intros rule languageNode Hrule; inversion Hrule; subst;
      cbn [applyInferenceForDeclaration]; now rewrite ?Hdeclaration
    | intros rule [Hrule|Hrule]; inversion Hrule; subst; reflexivity ].
Qed.

(** ** The listening bottom type (bottom-type.ts) *)

Lemma marked_types_exactly (this : TypeNode) (ts : list TypeNode) :
  forall g,
    fold_left (fun g0 t => BottomType_markAsSubType this t g0) ts g
    = mkTypeGraph (nodes g)
        (edges g
         ++ map (fun t => mkTypeEdge this t SubTypeEdge)
              (List.filter (fun t => negb (sameObject t this)) ts))
        (listeners g).
Proof.
  induction ts as [|t rest IH]; intros g.
  - cbn. rewrite app_nil_r. now destruct g.
  - cbn [fold_left List.filter]. rewrite IH.
    destruct (sameObject t this) eqn:Hsame; cbn [negb].
    + now rewrite (BottomType_markAsSubType_self this t g Hsame).
    + rewrite (BottomType_markAsSubType_other this t g Hsame).
      unfold addEdge. cbn [nodes edges listeners map].
      now rewrite <- app_assoc.
Qed.

Lemma notified_listeners_exactly (t : TypeNode) (key : string)
  (ls : list TypeNode) :
  forall g,
    fold_left (fun g0 listener => BottomType_onAddedType listener t key g0)
      ls g
    = mkTypeGraph (nodes g)
        (edges g
         ++ map (fun listener => mkTypeEdge listener t SubTypeEdge)
              (List.filter (fun listener => negb (sameObject t listener)) ls))
        (listeners g).
Proof.
  induction ls as [|l rest IH]; intros g.
  - cbn. rewrite app_nil_r. now destruct g.
  - cbn [fold_left List.filter]. rewrite IH.
    unfold BottomType_onAddedType.
    destruct (sameObject t l) eqn:Hsame; cbn [negb].
    + now rewrite (BottomType_markAsSubType_self l t g Hsame).
    + rewrite (BottomType_markAsSubType_other l t g Hsame).
      unfold addEdge. cbn [nodes edges listeners map].
      now rewrite <- app_assoc.
Qed.

Lemma addNode_exactly (g : TypeGraph) (t : TypeNode) :
  getType g (getIdentifier t) = None ->
  addNode g t
  = (mkTypeGraph (nodes g ++ [t])
       (edges g
        ++ map (fun listener => mkTypeEdge listener t SubTypeEdge)
             (List.filter (fun listener => negb (sameObject t listener))
                (listeners g)))
       (listeners g), t).
Proof.
  intros Hfree. unfold addNode. rewrite Hfree.
  now rewrite notified_listeners_exactly.
Qed.

(** X17: the constructor of the listening [BottomType] adds exactly
    one subtype edge from the new bottom type to every type registered
    in the graph, in the order of registration and none to itself; it
    adds no node (the bottom type itself is not registered by its
    constructor) and appends the bottom type to the listeners.
    Afterwards the registration of a type with a new identifier adds
    exactly one edge per listening bottom type to that type. *)
Theorem bottom_constructor_marks_each_type_once (g : TypeGraph) (r : nat)
  (identifier : string) :
  let bottom := BottomType r identifier in
  newBottomType r identifier g
  = (bottom,
     mkTypeGraph (nodes g)
       (edges g
        ++ map (fun t => mkTypeEdge bottom t SubTypeEdge)
             (List.filter (fun t => negb (sameObject t bottom)) (nodes g)))
       (listeners g ++ [bottom]))
  /\ (forall (g1 : TypeGraph) (t : TypeNode),
        getType g1 (getIdentifier t) = None ->
        addNode g1 t
        = (mkTypeGraph (nodes g1 ++ [t])
             (edges g1
              ++ map (fun listener => mkTypeEdge listener t SubTypeEdge)
                   (List.filter
                      (fun listener => negb (sameObject t listener))
                      (listeners g1)))
             (listeners g1), t)).
Proof.
  intros bottom. split.
  - unfold newBottomType, getAllRegisteredTypes, addListener.
    fold bottom. now rewrite marked_types_exactly.
  - exact addNode_exactly.
Qed.

(** X18: [dispose] of the listening bottom type removes it from the
    listeners of the graph and leaves nodes and edges as they are: the
    subtype edges it has added stay.  The other listeners stay
    registered, and no type registered afterwards gets an edge from the
    disposed bottom type. *)
Theorem disposed_bottom_type_stops_listening (bottom : TypeNode)
  (g : TypeGraph) :
  let g' := BottomType_dispose bottom g in
  nodes g' = nodes g
  /\ edges g' = edges g
  /\ (forall listener,
        In listener (listeners g')
        <-> In listener (listeners g) /\ sameObject listener bottom = false)
  /\ (forall (t : TypeNode) (e : TypeEdge),
        In e (edges (fst (addNode g' t))) ->
        In e (edges g) \/ sameObject (edge_from e) bottom = false).
Proof.
  intros g'. subst g'. unfold BottomType_dispose, removeListener.
  cbn [nodes edges listeners].
  assert (Hlisteners :
            forall listener,
              In listener
                (List.filter (fun l => negb (sameObject l bottom))
                   (listeners g))
              <-> In listener (listeners g)
                  /\ sameObject listener bottom = false).
  { intros listener. rewrite filter_In.
    now destruct (sameObject listener bottom). }
  split; [reflexivity|]. split; [reflexivity|].
  split; [exact Hlisteners|].
  intros t e.
  set (g' := mkTypeGraph (nodes g) (edges g)
               (List.filter (fun l => negb (sameObject l bottom))
                  (listeners g))).
  destruct (getType g' (getIdentifier t)) as [existing|] eqn:Hlookup.
  - rewrite (addNode_duplicate g' t existing Hlookup). cbn. now left.
  - rewrite (addNode_exactly g' t Hlookup). cbn [fst edges g' listeners].
    intros Hin. apply in_app_or in Hin. destruct Hin as [Hin|Hin];
      [now left|].
    right. apply in_map_iff in Hin. destruct Hin as (l & <- & Hl).
    apply filter_In in Hl. destruct Hl as [Hl _].
    apply Hlisteners in Hl. cbn [edge_from]. exact (proj2 Hl).
Qed.

(** ** The end of the initialization *)

(** X19: [onSwitchedToCompleted] undoes the listener registration of
    the constructor and nothing else: for an initializer constructed on
    an engine whose allocator is ahead of the registered listeners, the
    listeners after construction and completion are those before the
    construction, while graph, overload groups, inference rules and
    validation rules stay as the constructor left them.
    [onSwitchedToInvalid] changes nothing. *)
Theorem completed_initializer_stops_listening {LanguageNode : Type}
  (kind : FunctionKind LanguageNode)
  (details : CreateFunctionTypeDetails LanguageNode)
  (e0 e1 : Engine LanguageNode)
  (this : FunctionTypeInitializer LanguageNode) :
  newFunctionTypeInitializer kind details e0 = Returned (this, e1) ->
  (forall entry,
      In entry (engine_typeListeners e0) -> snd entry < engine_nextRef e0) ->
  let completed := onSwitchedToCompleted this (getTypeInitial this) e1 in
  In (ref (getTypeInitial this), initializer_ref this)
    (engine_typeListeners e1)
  /\ engine_typeListeners completed = engine_typeListeners e0
  /\ engine_graph completed = engine_graph e1
  /\ engine_mapNameTypes completed = engine_mapNameTypes e1
  /\ engine_inference completed = engine_inference e1
  /\ engine_validation completed = engine_validation e1
  /\ onSwitchedToInvalid this (getTypeInitial this) e1 = e1.
Proof.
  intros Hnew Hfresh completed.
  destruct (newFunctionTypeInitializer_effects kind details e0 e1 this Hnew)
    as ((_ & _ & _ & _ & Hlisteners & Href) & _).
  split; [rewrite Hlisteners; apply in_or_app; right; now left|].
  split; [|repeat split].
  subst completed. unfold onSwitchedToCompleted, removeTypeListener.
  cbn [engine_typeListeners]. rewrite Hlisteners, List.filter_app.
  cbn [List.filter fst snd]. rewrite !Nat.eqb_refl. cbn [andb negb].
  rewrite app_nil_r. apply filter_keeps_all.
  intros entry Hin. specialize (Hfresh entry Hin).
  destruct (Nat.eqb_spec (snd entry) (initializer_ref this)) as [Heq|Hne];
    [lia|]. now rewrite andb_false_r.
Qed.

(** ** The expectations of the test on assignability paths *)

Lemma sameObject_trans (a b c : TypeNode) :
  sameObject a b = true -> sameObject b c = true -> sameObject a c = true.
Proof.
  unfold sameObject. rewrite !Nat.eqb_eq. congruence.
Qed.

Lemma connected_path_is_as_expected (path : list TypeEdge) :
  forall (previous : option TypeEdge) (from to : TypeNode),
    pathConnects from path to = true ->
    match previous with
    | Some p => sameObject (edge_to p) from = true
    | None => True
    end ->
    pathIsAsExpected previous path (map relationName path) = true.
Proof.
  induction path as [|e rest IH]; intros previous from to Hpath Hprevious;
    [reflexivity|].
  cbn [pathConnects] in Hpath. apply andb_prop in Hpath.
  destruct Hpath as [Hfrom Hrest].
  cbn [pathIsAsExpected map]. rewrite String.eqb_refl.
  rewrite (IH (Some e) (edge_to e) to Hrest) by apply sameObject_refl.
  destruct previous as [p|]; [|reflexivity].
  rewrite (sameObject_trans _ _ _ Hprevious); [reflexivity|].
  now rewrite sameObject_sym.
Qed.

Lemma last_of_nonempty {A : Type} (l : list A) :
  forall x d d' : A, List.last (x :: l) d = List.last (x :: l) d'.
Proof.
  induction l as [|y l IH]; intros x d d'; [reflexivity|].
  change (List.last (x :: y :: l) d) with (List.last (y :: l) d).
  change (List.last (x :: y :: l) d') with (List.last (y :: l) d').
  apply IH.
Qed.

Lemma connected_path_ends (path : list TypeEdge) :
  forall (from to : TypeNode) (first : TypeEdge),
    pathConnects from (first :: path) to = true ->
    sameObject (edge_to (List.last (first :: path) first)) to = true.
Proof.
  induction path as [|e rest IH]; intros from to first Hpath.
  - cbn in *. apply andb_prop in Hpath. now destruct Hpath.
  - cbn [pathConnects] in Hpath. apply andb_prop in Hpath.
    destruct Hpath as [_ Hrest].
    change (List.last (first :: e :: rest) first)
      with (List.last (e :: rest) first).
    rewrite (last_of_nonempty rest e first e).
    exact (IH (edge_to first) to e Hrest).
Qed.

Lemma substring_skips (before s : string) (n : nat) :
  String.substring (String.length before) n (before +:+ s)
  = String.substring 0 n s.
Proof. induction before as [|c before IH]; [reflexivity | exact IH]. Qed.

Lemma substring_of_prefix (searched after : string) :
  String.substring 0 (String.length searched) (searched +:+ after) = searched.
Proof.
  induction searched as [|c searched IH]; [now destruct after|].
  change (String.substring 0 (String.length (String c searched))
            (String c searched +:+ after))
    with (String c (String.substring 0 (String.length searched)
                      (searched +:+ after))).
  now rewrite IH.
Qed.

Lemma includes_the_middle (before searched after : string) :
  searched <> "" ->
  includes (before +:+ (searched +:+ after)) searched = true.
Proof.
  intros Hsearched. unfold includes.
  destruct (String.index 0 searched (before +:+ (searched +:+ after)))
    eqn:Hindex; [reflexivity|].
  exfalso.
  apply (String.index_correct3 0 (String.length before) _ _ Hindex Hsearched);
    [lia|].
  rewrite substring_skips. apply substring_of_prefix.
Qed.

Lemma append_associative (a b c : string) : (a +:+ b) +:+ c = a +:+ (b +:+ c).
Proof.
  induction a as [|x a IH]; [reflexivity|].
  change (String x ((a +:+ b) +:+ c) = String x (a +:+ (b +:+ c))).
  now rewrite IH.
Qed.

Lemma message_includes_the_phrase (actualName expectedName : string) :
  includes
    ("The type '" +:+ actualName +:+ "' is not assignable to the type '"
     +:+ expectedName +:+ "'.")
    "is not assignable to" = true.
Proof.
  replace ("The type '" +:+ actualName
           +:+ "' is not assignable to the type '" +:+ expectedName +:+ "'.")
    with (("The type '" +:+ actualName +:+ "' ")
          +:+ ("is not assignable to"
               +:+ (" the type '" +:+ expectedName +:+ "'."))).
  - apply includes_the_middle. discriminate.
  - rewrite !append_associative. reflexivity.
Qed.

Lemma pathIsAsExpected_names (actualPath : list TypeEdge) :
  forall (previous : option TypeEdge) (expectedPath : list string),
    pathIsAsExpected previous actualPath expectedPath = true ->
    expectedPath = map relationName actualPath.
Proof.
  induction actualPath as [|e rest IH]; intros previous [|expected expectedRest];
    cbn; try discriminate; [reflexivity|].
  intros H. apply andb_prop in H. destruct H as [H Hrest].
  apply andb_prop in H. destruct H as [Hname _].
  apply String.eqb_eq in Hname. now rewrite Hname, (IH _ _ Hrest).
Qed.

(** X20: what the two helpers of the test accept, on any engine.
    For a value and a variable whose types are inferred:
    if the type of the value is assignable to the type of the variable
    along [path], [expectAssignmentValid] succeeds exactly for the
    expected path that lists the relations of [path] in order (its
    checks that consecutive edges are connected, that the path starts
    at the type of the value and ends at the type of the variable, and
    that no validation error is reported never fail), and
    [expectAssignmentError] fails; if it is not assignable,
    [expectAssignmentError] succeeds (one error, whose message includes
    ['is not assignable to']) and [expectAssignmentValid] fails for
    every expected path. *)
Theorem helpers_of_the_test_decide_by_the_path
  (w : World TestExpressionNode) (value variableInitType : TestExpressionNode)
  (valueType variableType : TypeNode) :
  inferTypeIn 3 w value = InferredType valueType ->
  inferTypeIn 3 w (VariableNode "v1" variableInitType)
  = InferredType variableType ->
  (forall path,
      getAssignabilityResult (world_graph w) valueType variableType
      = AssignabilitySuccess path ->
      (forall expectedPath,
          expectAssignmentValid w value variableInitType expectedPath = true
          <-> expectedPath = map relationName path)
      /\ expectAssignmentError w value variableInitType = false)
  /\ (forall problem,
        getAssignabilityResult (world_graph w) valueType variableType
        = AssignabilityFailure problem ->
        expectAssignmentError w value variableInitType = true
        /\ forall expectedPath,
             expectAssignmentValid w value variableInitType expectedPath
             = false).
Proof.
  intros Hvalue Hvariable. split.
  - intros path Hpath.
    assert (Hvalidate :
              validateAssignment w
                (mkAssignmentStatement (VariableNode "v1" variableInitType)
                   value) = []).
    { unfold validateAssignment, ensureNodeIsAssignable, isAssignable.
      cbn [assignment_left assignment_right].
      now rewrite Hvalue, Hvariable, Hpath. }
    split.
    + intros expectedPath. unfold expectAssignmentValid.
      rewrite Hvalidate, Hvalue, Hvariable, Hpath. cbn [length Nat.eqb andb].
      split.
      * intros H. apply andb_prop in H. destruct H as [H _].
        now apply pathIsAsExpected_names in H.
      * intros ->.
        destruct (assignability_path_sound _ _ _ _ Hpath) as [Hconnected _].
        rewrite (connected_path_is_as_expected path None valueType
                   variableType Hconnected I).
        cbn [andb]. unfold endsOfThePath.
        destruct path as [|first rest]; [reflexivity|].
        rewrite (connected_path_ends rest valueType variableType first
                   Hconnected).
        cbn [pathConnects] in Hconnected.
        apply andb_prop in Hconnected. destruct Hconnected as [-> _].
        reflexivity.
    + unfold expectAssignmentError. now rewrite Hvalidate.
  - intros problem Hproblem.
    assert (Hvalidate :
              validateAssignment w
                (mkAssignmentStatement (VariableNode "v1" variableInitType)
                   value)
              = ["The type '" +:+ getIdentifier valueType
                 +:+ "' is not assignable to the type '"
                 +:+ getIdentifier variableType +:+ "'."]).
    { unfold validateAssignment, ensureNodeIsAssignable, isAssignable.
      cbn [assignment_left assignment_right].
      now rewrite Hvalue, Hvariable, Hproblem. }
    split.
    + unfold expectAssignmentError. rewrite Hvalidate.
      apply message_includes_the_phrase.
    + intros expectedPath. unfold expectAssignmentValid.
      now rewrite Hvalidate.
Qed.

(** ** The signatures of operators *)

Section OperatorSignatures.

Context {DomainElement : Type}.
Implicit Types (w : World DomainElement).

Lemma createGenericOperator_signature (name : string) (outputType : TypeNode)
  (inferenceRule : option (InferConcreteOperator DomainElement))
  (domainElementsForInputValues : option (DeriveOperands DomainElement))
  (inputParameter : list NameTypePair) w :
  let identifier :=
    calculateFunctionIdentifier name
      (Some (mkNameTypePair FUNCTION_MISSING_NAME outputType))
      inputParameter in
  let created :=
    createGenericOperator name outputType inferenceRule
      domainElementsForInputValues inputParameter w in
  getIdentifier (fst created) = identifier
  /\ (getType (world_graph w) identifier = None ->
      fst created
      = FunctionType (world_nextRef w) identifier name (Some outputType)
          (map pair_type inputParameter))
  /\ world_nextRef (snd created) = S (world_nextRef w)
  /\ exists kind group,
       world_functionKind (snd created) = Some kind
       /\ kind !! name = Some group
       /\ option_map details_functionType (last group) = Some (fst created).
Proof.
  intros identifier created. subst created.
  unfold createGenericOperator, createFunctionType.
  fold identifier.
  set (newType := FunctionType (world_nextRef w) identifier name
                    (option_map pair_type
                       (Some (mkNameTypePair FUNCTION_MISSING_NAME outputType)))
                    (map pair_type inputParameter)).
  destruct (addNode (world_graph w) newType) as [graph' functionType]
    eqn:Hadded.
  set (functionKind := match world_functionKind w with
                       | Some kind => kind
                       | None => ∅
                       end).
  destruct (functionKind !! name) as [group|] eqn:Hgroup;
    cbn [fst snd world_nextRef world_functionKind].
  all: (split; [|split; [|split; [reflexivity|]]]);
    [ unfold addNode in Hadded;
      destruct (getType (world_graph w) (getIdentifier newType))
        as [existing|] eqn:Hlookup;
      [ inversion Hadded; subst;
        now destruct (getType_identifier _ _ _ Hlookup)
      | inversion Hadded; subst; reflexivity ]
    | intros Hfree; unfold addNode in Hadded;
      change (getIdentifier newType) with identifier in Hadded;
      rewrite Hfree in Hadded; inversion Hadded; reflexivity
    | eexists _, _; split; [reflexivity|]; split;
      [apply lookup_insert_eq | now rewrite last_snoc] ].
Qed.

End OperatorSignatures.

(** X23: the signatures of the operators.  A unary operator for a
    single name and type is the function of one parameter ['operand'] of
    that type, with that type as output; a binary operator has the
    parameters ['left'] and ['right'] of the type and the given output
    type, or the type itself when none is given; a ternary operator has
    ['first'] of the first type and ['second'] and ['third'] of the
    type, with the type as output.  The returned type carries the
    identifier of that signature and, when the graph had no node of that
    identifier, these input and output types; afterwards the function
    kind exists and the returned type is the last function of the
    overload group of the operator name. *)
Theorem operators_are_functions_of_their_operands {DomainElement : Type}
  (name : string) (singleType : TypeNode)
  (inferenceRule : option (InferConcreteOperator DomainElement))
  (domainElementsForInputValues : option (DeriveOperands DomainElement))
  (w : World DomainElement) :
  createsTheOperator w name
    (createUnaryOperator (Single name) (Single singleType) inferenceRule
       domainElementsForInputValues w)
    singleType [mkNameTypePair "operand" singleType]
  /\ (forall outputType : option TypeNode,
        createsTheOperator w name
          (createBinaryOperator (Single name) (Single singleType) outputType
             inferenceRule domainElementsForInputValues w)
          match outputType with Some t => t | None => singleType end
          [mkNameTypePair "left" singleType;
           mkNameTypePair "right" singleType])
  /\ (forall firstType : TypeNode,
        createsTheOperator w name
          (createTernaryOperator (Single name) firstType (Single singleType)
             inferenceRule domainElementsForInputValues w)
          singleType
          [mkNameTypePair "first" firstType;
           mkNameTypePair "second" singleType;
           mkNameTypePair "third" singleType]).
Proof.
  assert (Hgeneric :
            forall (outputType : TypeNode) (inputParameter : list NameTypePair),
              createsTheOperator w name
                (handleOperatorVariants (Single name) (Single singleType)
                   (fun singleName _ =>
                      createGenericOperator singleName outputType
                        inferenceRule domainElementsForInputValues
                        inputParameter) w)
                outputType inputParameter).
  { intros outputType inputParameter. unfold createsTheOperator.
    set (identifier :=
           calculateFunctionIdentifier name
             (Some (mkNameTypePair FUNCTION_MISSING_NAME outputType))
             inputParameter).
    pose proof (createGenericOperator_signature name outputType inferenceRule
                  domainElementsForInputValues inputParameter w) as Hsignature.
    cbv zeta in Hsignature. fold identifier in Hsignature.
    unfold handleOperatorVariants. cbn [toArray length Nat.leb fold_left snd fst].
    destruct (createGenericOperator name outputType inferenceRule
                domainElementsForInputValues inputParameter w)
      as [operator w'].
    cbn [fst snd app] in *.
    destruct Hsignature as (Hid & Hfresh & _ & Hkind).
    exists operator, w'. split; [reflexivity|]. split; [exact Hid|].
    split; [|exact Hkind].
    intros Hfree. rewrite (Hfresh Hfree). split; reflexivity. }
  split; [|split].
  - apply (Hgeneric singleType [mkNameTypePair "operand" singleType]).
  - intros outputType.
    apply (Hgeneric match outputType with Some t => t | None => singleType end
             [mkNameTypePair "left" singleType;
              mkNameTypePair "right" singleType]).
  - intros firstType.
    apply (Hgeneric singleType
             [mkNameTypePair "first" firstType;
              mkNameTypePair "second" singleType;
              mkNameTypePair "third" singleType]).
Qed.

(** ** The rules are rebound in place *)

(** The allocator of the engine is ahead of every registered rule
    object. *)
Lemma newFunctionTypeInitializer_registries {LanguageNode : Type}
  (kind : FunctionKind LanguageNode)
  (details : CreateFunctionTypeDetails LanguageNode)
  (e0 e1 : Engine LanguageNode)
  (this : FunctionTypeInitializer LanguageNode) :
  newFunctionTypeInitializer kind details e0 = Returned (this, e1) ->
  let functionName := td_functionName details in
  let rules := inferenceRules this in
  (forall rule,
      inferenceForCall rules = Some rule
      \/ validationForCall rules = Some rule
      \/ inferenceForDeclaration rules = Some rule ->
      S (engine_nextRef e0) < ruleRef rule)
  /\ groupRules e1 functionName
     = groupRules e0 functionName ++ callEntries rules None
  /\ (exists opened,
        engine_inference e1
        = (engine_inference e0 ++ opened) ++ declarationEntries rules None
        /\ forall entry, In entry opened ->
             ruleRef (bound_rule entry) = S (engine_nextRef e0)).
Proof.
  unfold newFunctionTypeInitializer.
  destruct (negb (isSome (td_outputParameter details))
            && isSome (td_inferenceRuleForCalls details)); [discriminate|].
  destruct (kind_enforceFunctionName kind (td_functionName details)
              (kind_enforceFunctionNameOption kind)); [|discriminate].
  cbn [bindCompletion].
  destruct (isSome (td_validationForCall details)
            && negb (isSome (td_inferenceRuleForCalls details)));
    [discriminate|].
  destruct (engine_mapNameTypes e0 !! td_functionName details)
    as [group0|] eqn:Hgroup.
  - destruct (createInferenceRules details
                (newFunctionType kind details (S (engine_nextRef e0)))
                (S (S (engine_nextRef e0)))) as [rules r2] eqn:Hcreated.
    intros H. inversion H; subst. clear H.
    cbn [inferenceRules engine_inference].
    set (base := mkEngine (engine_graph e0) (engine_mapNameTypes e0)
                   (engine_inference e0) (engine_validation e0)
                   (engine_typeListeners e0) r2).
    destruct (registerInferenceRules_components rules
                (td_functionName details) None base)
      as (_ & _ & _ & Hi & _).
    destruct (createInferenceRules_spec details
                (newFunctionType kind details (S (engine_nextRef e0)))
                (S (S (engine_nextRef e0)))) as [_ Hrefs].
    rewrite Hcreated in Hrefs. cbn [fst snd] in Hrefs.
    split; [|split].
    + intros rule Hrule. destruct (Hrefs rule Hrule) as [_ Hrange]. lia.
    + match goal with
      | |- groupRules ?e' ?name = _ =>
          rewrite (groupRules_same
                     (registerInferenceRules rules name None base) e' name
                     eq_refl)
      end.
      rewrite groupRules_registered
        by (cbn [base engine_mapNameTypes]; rewrite Hgroup; eauto).
      reflexivity.
    + exists []. rewrite app_nil_r. split; [exact Hi | intros entry []].
  - destruct (createInferenceRules details
                (newFunctionType kind details (S (S (engine_nextRef e0))))
                (S (S (S (engine_nextRef e0))))) as [rules r2] eqn:Hcreated.
    intros H. inversion H; subst. clear H.
    cbn [inferenceRules engine_inference].
    set (base :=
           mkEngine (engine_graph e0)
             (<[td_functionName details :=
                  mkOverloadedFunctionDetails []
                    (mkCompositeRule (S (engine_nextRef e0)) []) None]>
                (engine_mapNameTypes e0))
             (addBoundRule (engine_inference e0)
                (OverloadedFunctionsTypeInferenceRule (S (engine_nextRef e0)))
                None)
             (engine_validation e0) (engine_typeListeners e0) r2).
    destruct (registerInferenceRules_components rules
                (td_functionName details) None base)
      as (_ & _ & _ & Hi & _).
    destruct (createInferenceRules_spec details
                (newFunctionType kind details (S (S (engine_nextRef e0))))
                (S (S (S (engine_nextRef e0))))) as [_ Hrefs].
    rewrite Hcreated in Hrefs. cbn [fst snd] in Hrefs.
    split; [|split].
    + intros rule Hrule. destruct (Hrefs rule Hrule) as [_ Hrange]. lia.
    + match goal with
      | |- groupRules ?e' ?name = _ =>
          rewrite (groupRules_same
                     (registerInferenceRules rules name None base) e' name
                     eq_refl)
      end.
      rewrite groupRules_registered
        by (cbn [base engine_mapNameTypes]; rewrite lookup_insert_eq; eauto).
      unfold groupRules. cbn [base engine_mapNameTypes].
      now rewrite lookup_insert_eq, Hgroup.
    + exists [mkBoundRule
                (OverloadedFunctionsTypeInferenceRule (S (engine_nextRef e0)))
                None].
      split; [exact Hi|]. intros entry [<-|[]]. reflexivity.
Qed.

(** X22: the switch to identifiable rebinds the rules of the
    initializer in place.  On an engine whose allocator is ahead of all
    registered rule objects, construct an initializer for a function
    type whose identifier is not yet in the graph and switch its initial
    type to identifiable.  The initial type is produced and becomes the
    last node of the graph.  The rule for calls in the overload group and
    the rule for the declaration at the inference service are the same
    objects at the same (last) positions as after the constructor, now
    bound to the type instead of unbound; all other entries and the
    validation rules are as the constructor left them, so no rule is
    registered twice. *)
Theorem identifiable_type_rebinds_its_rules_in_place {LanguageNode : Type}
  (services : TypirServices) (kind : FunctionKind LanguageNode)
  (details : CreateFunctionTypeDetails LanguageNode)
  (e0 e1 : Engine LanguageNode)
  (this : FunctionTypeInitializer LanguageNode) :
  (forall entry,
      In entry (engine_inference e0) ->
      ruleRef (bound_rule entry) < engine_nextRef e0) ->
  (forall rule,
      In rule (engine_validation e0) -> ruleRef rule < engine_nextRef e0) ->
  (forall entry,
      In entry (groupRules e0 (td_functionName details)) ->
      ruleRef (bound_rule entry) < engine_nextRef e0) ->
  newFunctionTypeInitializer kind details e0 = Returned (this, e1) ->
  getType (engine_graph e0) (kind_calculateIdentifier kind details) = None ->
  let functionName := td_functionName details in
  let initial := getTypeInitial this in
  let rules := inferenceRules this in
  exists e2 groupBase inferenceBase,
    onSwitchedToIdentifiable services kind this initial e1
    = Returned (initial, this, e2)
    /\ nodes (engine_graph e2) = nodes (engine_graph e0) ++ [initial]
    /\ groupRules e1 functionName = groupBase ++ callEntries rules None
    /\ groupRules e2 functionName
       = groupBase ++ callEntries rules (Some initial)
    /\ engine_inference e1 = inferenceBase ++ declarationEntries rules None
    /\ engine_inference e2
       = inferenceBase ++ declarationEntries rules (Some initial)
    /\ engine_validation e2 = engine_validation e1.
Proof.
  intros Hinference Hvalidation Hgroup Hnew Hfree functionName initial rules.
  destruct (newFunctionTypeInitializer_effects kind details e0 e1 this Hnew)
    as ((Hgraph & Hdetails & Hfunction & Hidentifier & _)
        & _ & Hcore & Hvalidation1 & _).
  destruct (newFunctionTypeInitializer_registries kind details e0 e1 this
              Hnew) as (Hrefs & Hgroup1 & opened & Hinference1 & Hopened).
  fold functionName initial rules in Hidentifier, Hfunction, Hcore,
    Hvalidation1, Hrefs, Hgroup1, Hinference1.
  assert (Hexists : is_Some (engine_mapNameTypes e1 !! functionName)).
  { destruct (engine_mapNameTypes e0 !! functionName) as [group0|].
    - destruct Hcore as [Hcore _].
      destruct (engine_mapNameTypes e1 !! functionName); [eauto|].
      discriminate.
    - destruct Hcore as (r & Hcore & _).
      destruct (engine_mapNameTypes e1 !! functionName); [eauto|].
      discriminate. }
  destruct (onSwitchedToIdentifiable_fresh services kind this initial e1)
    as (e2 & Hswitched & Hgraph2 & Hgroup2 & Hinference2 & Hvalidation2).
  { exact Hfunction. }
  { now rewrite Hgraph, Hidentifier. }
  { now rewrite Hdetails. }
  rewrite Hdetails in Hgroup2. fold functionName rules in Hgroup2,
    Hinference2, Hvalidation2.
  exists e2, (groupRules e0 functionName), (engine_inference e0 ++ opened).
  split; [exact Hswitched|]. split.
  { rewrite Hgraph2, Hgraph.
    apply (addNode_fresh (engine_graph e0) initial).
    now rewrite Hidentifier. }
  split; [exact Hgroup1|]. split.
  { rewrite Hgroup2, Hgroup1. unfold callEntries.
    destruct (inferenceForCall rules) as [rule|] eqn:Hrule.
    - change (groupRules e0 functionName ++ [mkBoundRule rule None])
        with (addBoundRule (groupRules e0 functionName) rule None).
      rewrite removeBoundRule_added; [reflexivity|].
      intros entry Hin Href. specialize (Hgroup entry Hin).
      specialize (Hrefs rule (or_introl eq_refl)). lia.
    - now rewrite app_nil_r. }
  split; [exact Hinference1|]. split.
  { rewrite Hinference2, Hinference1. unfold declarationEntries.
    destruct (inferenceForDeclaration rules) as [rule|] eqn:Hrule.
    - change ((engine_inference e0 ++ opened) ++ [mkBoundRule rule None])
        with (addBoundRule (engine_inference e0 ++ opened) rule None).
      rewrite removeBoundRule_added; [reflexivity|].
      intros entry Hin Href.
      specialize (Hrefs rule (or_intror (or_intror eq_refl))).
      apply in_app_or in Hin. destruct Hin as [Hin|Hin].
      + specialize (Hinference entry Hin). lia.
      + specialize (Hopened entry Hin). lia.
    - now rewrite app_nil_r. }
  rewrite Hvalidation2, Hvalidation1. unfold validationEntries.
  destruct (validationForCall rules) as [rule|] eqn:Hrule.
  - change (engine_validation e0 ++ [rule])
      with (addValidationRule (engine_validation e0) rule).
    rewrite removeValidationRule_added; [reflexivity|].
    intros r' Hin Href. specialize (Hvalidation r' Hin).
    specialize (Hrefs rule (or_intror (or_introl eq_refl))). lia.
  - now rewrite app_nil_r.
Qed.

(** ** The further properties at concrete instances *)

Lemma handleOperatorVariants_creates_every_variant_witness :
  handleOperatorVariants (Array ["+"; "-"]) (Array []) countingCreator
    testWorld = Thrown "assertTrue"
  /\ exists result,
       handleOperatorVariants (Array ["+"; "-"])
         (Array [integerType; doubleType; stringType]) countingCreator
         testWorld
       = Returned
           (result,
            snd (createVariants countingCreator
                   (operatorVariants ["+"; "-"]
                      [integerType; doubleType; stringType]) testWorld))
       /\ length (toArray (Some result)) = 6.
Proof.
  split.
  - pose proof (handleOperatorVariants_creates_every_variant
                  (Array ["+"; "-"]) (Array []) testWorld) as H.
    cbv zeta in H. destruct H as [H _]. apply H. reflexivity.
  - pose proof (handleOperatorVariants_creates_every_variant
                  (Array ["+"; "-"])
                  (Array [integerType; doubleType; stringType]) testWorld)
      as H.
    cbv zeta in H. destruct H as (_ & H & _).
    destruct (H countingCreator) as (result & Heq & _ & Hlen & _);
      [discriminate|].
    exists result. split; [exact Heq | exact Hlen].
Defined.

Lemma newFixedParameterKind_numbers_the_parameters_witness :
  exists kind,
    newFixedParameterKind "Map" None ["K"; "V"] = Returned kind
    /\ map parameter_name (parameters kind) = ["K"; "V"]
    /\ map parameter_index (parameters kind) = [0; 1]
    /\ parameterSubtypeCheckingStrategy (options kind) = EQUAL_TYPE.
Proof.
  destruct (newFixedParameterKind_numbers_the_parameters "Map" None
              ["K"; "V"]) as [_ H].
  destruct H as (kind & Hkind & _ & Hnames & Hindices & Hstrategy & _);
    [discriminate|].
  exists kind. repeat split; assumption.
Defined.

Lemma fixed_parameter_type_is_never_constructed_witness :
  newFixedParameterKind "List" None ["T"] = Returned (listKind EQUAL_TYPE)
  /\ createFixedParameterType (defaultTypir conversionChainGraph)
       (listKind EQUAL_TYPE)
       (mkFixedParameterTypeDetails (Single integerType)) 10
       conversionChainGraph
     = Thrown "TypeError".
Proof.
  split; [reflexivity|].
  destruct (fixed_parameter_type_is_never_constructed "List" None ["T"]
              (listKind EQUAL_TYPE) eq_refl) as [_ H].
  apply (H (defaultTypir conversionChainGraph)
           (mkFixedParameterTypeDetails (Single integerType)) 10
           conversionChainGraph).
Defined.

Lemma subtype_analysis_uses_the_strategy_of_the_receiver_witness :
  FixedParameterType_analyzeIsSubTypeOf (defaultTypir conversionChainGraph)
    (listOf SUB_TYPE 10 integerType) (listOf SUB_TYPE 11 doubleType)
  = FixedParameterType_analyzeIsSuperTypeOf
      (defaultTypir conversionChainGraph)
      (listOf SUB_TYPE 11 doubleType) (listOf SUB_TYPE 10 integerType).
Proof.
  destruct subtype_analysis_uses_the_strategy_of_the_receiver as [H _].
  pose proof (H (defaultTypir conversionChainGraph) 10 11
                (listKind SUB_TYPE) (listKind SUB_TYPE)
                (getIdentifier (listOf SUB_TYPE 10 integerType))
                (getIdentifier (listOf SUB_TYPE 11 doubleType))
                [integerType] [doubleType]) as Hsame.
  cbv zeta in Hsame. destruct Hsame as (_ & _ & Hsame).
  apply Hsame. left. reflexivity.
Defined.

Lemma equality_analysis_of_fixed_parameter_types_witness :
  FixedParameterType_analyzeTypeEqualityProblems identifierTypir
    (listOf EQUAL_TYPE 11 integerType) (listOf EQUAL_TYPE 10 integerType)
  = [].
Proof.
  pose proof (equality_analysis_of_fixed_parameter_types identifierTypir
                10 (listKind EQUAL_TYPE)
                (getIdentifier (listOf EQUAL_TYPE 10 integerType))
                [integerType]) as H.
  cbv zeta in H. destruct H as (_ & _ & H).
  apply (fun Hsym =>
           H Hsym 11 (listKind EQUAL_TYPE)
             (getIdentifier (listOf EQUAL_TYPE 11 integerType))
             [integerType]).
  - intros t1 t2. simpl. rewrite (String.eqb_sym (getIdentifier t2)).
    now destruct (String.eqb (getIdentifier t1) (getIdentifier t2)).
  - reflexivity.
Defined.

Lemma kind_areTypesEqual_compares_by_equality_witness :
  FixedParametersKindTs.areTypesEqual FixedParametersKindTs.listKindTs
    FixedParametersKindTs.plainTypir
    FixedParametersKindTs.listOfIntegerNode FixedParametersKindTs.integerNode
  = Thrown ""
  /\ FixedParametersKindTs.areTypesEqual FixedParametersKindTs.listKindTs
       FixedParametersKindTs.plainTypir
       FixedParametersKindTs.listOfIntegerNode
       FixedParametersKindTs.listOfIntegerNode
     = Returned [].
Proof.
  split.
  - destruct (kind_areTypesEqual_compares_by_equality
                FixedParametersKindTs.listKindTs
                FixedParametersKindTs.plainTypir
                FixedParametersKindTs.listOfIntegerNode
                FixedParametersKindTs.integerNode) as [H _].
    apply H. reflexivity.
  - destruct (kind_areTypesEqual_compares_by_equality
                FixedParametersKindTs.listKindTs
                FixedParametersKindTs.plainTypir
                FixedParametersKindTs.listOfIntegerNode
                FixedParametersKindTs.listOfIntegerNode) as [_ H].
    destruct (H FixedParametersKindTs.listKindTs
                FixedParametersKindTs.listKindTs eq_refl eq_refl)
      as (_ & _ & Hrefl).
    apply (Hrefl [FixedParametersKindTs.integerNode]); [|reflexivity].
    intros [kind name edges0]. cbn. now rewrite String.eqb_refl.
Defined.

Lemma createBottomType_registers_one_rule_witness :
  exists this' typir',
    createBottomType (newBottomKind None)
      (mkTypirState emptyGraph [] 1)
      (mkBottomTypeDetails (Some (Single isIntegerLiteral)))
    = (BottomType 1 "never", this', typir')
    /\ length (typir_inference typir') = 1.
Proof.
  destruct (createBottomType_registers_one_rule (newBottomKind None)
              (mkTypirState emptyGraph [] 1)
              (mkBottomTypeDetails (Some (Single isIntegerLiteral)))
              eq_refl)
    as (this' & typir' & Hcreated & _ & _ & _ & _ & Hrules).
  exists this', typir'. split; [exact Hcreated|].
  destruct Hrules as (rule & -> & _); [discriminate | reflexivity].
Defined.

Lemma created_bottom_type_is_found_witness :
  exists bottomType this' typir',
    createBottomType (newBottomKind None)
      (mkTypirState primitivesGraph [] 5)
      (mkBottomTypeDetails (Some (Single isIntegerLiteral)))
    = (bottomType, this', typir')
    /\ getIdentifier bottomType = "never"
    /\ getOrCreateBottomType this' typir'
         (@mkBottomTypeDetails TestExpressionNode None)
       = (bottomType, this', typir').
Proof.
  pose proof (created_bottom_type_is_found None
                (mkTypirState primitivesGraph [] 5)
                (mkBottomTypeDetails (Some (Single isIntegerLiteral)))) as H.
  cbv zeta in H. destruct H as (_ & H & _).
  destruct H as (bottomType & this' & typir' & Hcreated & Hname & _ & Hfound);
    [reflexivity|].
  exists bottomType, this', typir'.
  split; [exact Hcreated|]. split; [exact Hname|].
  apply (Hfound (mkBottomTypeDetails None)).
Defined.

Lemma initializer_constructor_prepares_the_group_witness :
  exists this e1,
    newFunctionTypeInitializer exampleFunctionKind (plusDetails integerType)
      emptyEngine
    = Returned (this, e1)
    /\ engine_graph e1 = engine_graph emptyEngine
    /\ engine_validation e1 = validationEntries (inferenceRules this).
Proof.
  destruct (newFunctionTypeInitializer exampleFunctionKind
              (plusDetails integerType) emptyEngine)
    as [[this e1]|message] eqn:Hnew.
  - exists this, e1. split; [reflexivity|].
    pose proof (initializer_constructor_prepares_the_group
                  exampleFunctionKind (plusDetails integerType) emptyEngine
                  e1 this Hnew) as H.
    cbv zeta in H.
    destruct H as ((Hgraph & _) & _ & _ & Hvalidation & _).
    split; [exact Hgraph | exact Hvalidation].
  - vm_compute in Hnew. discriminate.
Defined.

Lemma identifiable_function_joins_its_group_witness :
  exists this e1 ready this' e2 group group',
    newFunctionTypeInitializer exampleFunctionKind (plusDetails integerType)
      emptyEngine
    = Returned (this, e1)
    /\ onSwitchedToIdentifiable exampleServices exampleFunctionKind this
         (getTypeInitial this) e1
       = Returned (ready, this', e2)
    /\ engine_mapNameTypes e1 !! td_functionName (typeDetails this)
       = Some group
    /\ engine_mapNameTypes e2 !! td_functionName (typeDetails this)
       = Some group'
    /\ length (overloadedFunctions group')
       = length (overloadedFunctions group) + 1.
Proof.
  destruct (newFunctionTypeInitializer exampleFunctionKind
              (plusDetails integerType) emptyEngine)
    as [[this e1]|message] eqn:Hnew; [|vm_compute in Hnew; discriminate].
  destruct (onSwitchedToIdentifiable exampleServices exampleFunctionKind this
              (getTypeInitial this) e1)
    as [[[ready this'] e2]|message] eqn:Hswitched.
  - pose proof (identifiable_function_joins_its_group exampleServices
                  exampleFunctionKind this (getTypeInitial this) e1) as H.
    cbv zeta in H. destruct H as [_ H].
    destruct (H ready this' e2 Hswitched)
      as (_ & _ & _ & _ & group & group' & Hgroup & Hgroup' & Hfunctions & _).
    exists this, e1, ready, this', e2, group, group'.
    split; [reflexivity|]. split; [exact Hswitched|].
    split; [exact Hgroup|]. split; [exact Hgroup'|].
    rewrite Hfunctions, length_app. reflexivity.
  - exfalso. vm_compute in Hnew. injection Hnew as Hthis He1.
    subst this e1. vm_compute in Hswitched. discriminate.
Defined.

Lemma deregistration_undoes_registration_witness :
  let rules :=
    fst (createInferenceRules (checkedPlusDetails integerType)
           (newFunctionType exampleFunctionKind
              (checkedPlusDetails integerType) 6) 7) in
  deregisterInferenceRules rules "plus" None
    (registerInferenceRules rules "plus" None plusEngine)
  = plusEngine.
Proof.
  intros rules.
  apply (deregistration_undoes_registration rules "plus" None plusEngine).
  - vm_compute. eauto.
  - split.
    + intros rule entry _ Hin. vm_compute in Hin. destruct Hin.
    + intros rule entry Hrule. vm_compute in Hrule. discriminate.
  - intros rule registered _ Hin. vm_compute in Hin. destruct Hin.
Defined.

Lemma validation_for_call_checks_only_overloads_witness :
  applyValidationForCall ∅ (fun _ => None) (fun _ _ => None)
    (ValidationForCall 8 (checkedPlusDetails integerType) integerType)
    (BinaryExpression integer2 "+" integer3)
  = ["checked"]
  /\ applyValidationForCall ∅ (fun _ => None) (fun _ _ => None)
       (ValidationForCall 8 (checkedPlusDetails integerType) integerType)
       (BinaryExpression integer2 "-" integer3)
     = [].
Proof.
  split.
  - pose proof (validation_for_call_checks_only_overloads ∅ 8
                  (checkedPlusDetails integerType) integerType _ _
                  (BinaryExpression integer2 "+" integer3) eq_refl eq_refl)
      as H.
    cbv zeta in H. destruct H as (_ & H & _).
    apply (H eq_refl). right. reflexivity.
  - pose proof (validation_for_call_checks_only_overloads ∅ 8
                  (checkedPlusDetails integerType) integerType _ _
                  (BinaryExpression integer2 "-" integer3) eq_refl eq_refl)
      as H.
    cbv zeta in H. destruct H as (H & _).
    apply (H eq_refl).
Defined.

Lemma rules_are_created_for_the_produced_type_witness :
  exists this e1 ready this' e2 r,
    newFunctionTypeInitializer exampleFunctionKind (plusDetails integerType)
      emptyEngine
    = Returned (this, e1)
    /\ onSwitchedToIdentifiable exampleServices exampleFunctionKind this
         (getTypeInitial this) e1
       = Returned (ready, this', e2)
    /\ inferenceRules this'
       = fst (createInferenceRules (typeDetails this) ready r).
Proof.
  destruct (newFunctionTypeInitializer exampleFunctionKind
              (plusDetails integerType) emptyEngine)
    as [[this e1]|message] eqn:Hnew; [|vm_compute in Hnew; discriminate].
  destruct (onSwitchedToIdentifiable exampleServices exampleFunctionKind this
              (getTypeInitial this) e1)
    as [[[ready this'] e2]|message] eqn:Hswitched.
  - destruct (rules_are_created_for_the_produced_type exampleServices
                exampleFunctionKind this this' (getTypeInitial this) ready
                e1 e2) as [[r Hrules] _].
    + clear Hswitched. vm_compute in Hnew. injection Hnew as Hthis He1.
      subst this e1. exists 8. reflexivity.
    + clear Hswitched. vm_compute in Hnew. injection Hnew as Hthis He1.
      subst this e1.
      intros existing Hin Href. vm_compute in Hin.
      destruct Hin as [<-|[<-|[<-|[<-|[]]]]]; vm_compute in Href;
        discriminate.
    + exact Hswitched.
    + exists this, e1, ready, this', e2, r.
      split; [reflexivity|]. split; [exact Hswitched | exact Hrules].
  - exfalso. vm_compute in Hnew. injection Hnew as Hthis He1.
    subst this e1. vm_compute in Hswitched. discriminate.
Defined.

Lemma bottom_constructor_marks_each_type_once_witness :
  edges graphWithNever
  = edges (snd (newBottomType 9 "never" primitivesGraph))
    ++ [mkTypeEdge neverType charType SubTypeEdge].
Proof.
  destruct (bottom_constructor_marks_each_type_once primitivesGraph 9 "never")
    as [Hnew Hadd].
  unfold graphWithNever, applyOperations.
  cbn [fold_left applyOperation].
  rewrite (Hadd (snd (newBottomType 9 "never" primitivesGraph)) charType);
    [|reflexivity].
  rewrite Hnew. reflexivity.
Defined.

Lemma disposed_bottom_type_stops_listening_witness :
  let g := snd (newBottomType 9 "never" primitivesGraph) in
  edges (BottomType_dispose neverType g) = edges g
  /\ (In (mkTypeEdge neverType integerType SubTypeEdge) (edges g)
      \/ sameObject neverType neverType = false).
Proof.
  intros g.
  pose proof (disposed_bottom_type_stops_listening neverType g) as H.
  cbv zeta in H. destruct H as (_ & Hedges & _ & Hadded).
  split; [exact Hedges|].
  apply (Hadded charType (mkTypeEdge neverType integerType SubTypeEdge)).
  vm_compute. now left.
Defined.

Lemma completed_initializer_stops_listening_witness :
  exists this e1,
    newFunctionTypeInitializer exampleFunctionKind (plusDetails integerType)
      watchedEngine
    = Returned (this, e1)
    /\ engine_typeListeners
         (onSwitchedToCompleted this (getTypeInitial this) e1)
       = [(ref integerType, 3)].
Proof.
  destruct (newFunctionTypeInitializer exampleFunctionKind
              (plusDetails integerType) watchedEngine)
    as [[this e1]|message] eqn:Hnew; [|vm_compute in Hnew; discriminate].
  exists this, e1. split; [reflexivity|].
  pose proof (completed_initializer_stops_listening exampleFunctionKind
                (plusDetails integerType) watchedEngine e1 this Hnew) as H.
  cbv zeta in H. destruct H as (_ & Hlisteners & _).
  - intros entry [<-|[]]. vm_compute. lia.
  - exact Hlisteners.
Defined.

Lemma helpers_of_the_test_decide_by_the_path_witness :
  expectAssignmentValid testWorld booleanTrue string456
    ["ConversionEdge"; "SubTypeEdge"; "ConversionEdge"] = true
  /\ expectAssignmentError testWorld string123 booleanFalse = true.
Proof.
  split.
  - destruct (helpers_of_the_test_decide_by_the_path testWorld booleanTrue
                string456 (PrimitiveType 4 "boolean")
                (PrimitiveType 3 "string"))
      as [Hvalid _]; [vm_compute; reflexivity | vm_compute; reflexivity|].
    destruct (Hvalid
                [mkTypeEdge (PrimitiveType 4 "boolean")
                   (PrimitiveType 1 "integer")
                   (ConversionEdge IMPLICIT_EXPLICIT);
                 mkTypeEdge (PrimitiveType 1 "integer")
                   (PrimitiveType 2 "double") SubTypeEdge;
                 mkTypeEdge (PrimitiveType 2 "double")
                   (PrimitiveType 3 "string")
                   (ConversionEdge IMPLICIT_EXPLICIT)])
      as [Hiff _]; [vm_compute; reflexivity|].
    apply Hiff. reflexivity.
  - destruct (helpers_of_the_test_decide_by_the_path testWorld string123
                booleanFalse (PrimitiveType 3 "string")
                (PrimitiveType 4 "boolean"))
      as [_ Herror]; [vm_compute; reflexivity | vm_compute; reflexivity|].
    destruct (getAssignabilityResult (world_graph testWorld)
                (PrimitiveType 3 "string") (PrimitiveType 4 "boolean"))
      as [path|problem] eqn:Hresult; [vm_compute in Hresult; discriminate|].
    destruct (Herror problem eq_refl) as [Hreported _]. exact Hreported.
Defined.

Lemma identifiable_type_rebinds_its_rules_in_place_witness :
  exists this e1 e2,
    newFunctionTypeInitializer exampleFunctionKind
      (checkedPlusDetails integerType) plusEngine
    = Returned (this, e1)
    /\ onSwitchedToIdentifiable exampleServices exampleFunctionKind this
         (getTypeInitial this) e1
       = Returned (getTypeInitial this, this, e2)
    /\ engine_validation e2 = engine_validation e1.
Proof.
  destruct (newFunctionTypeInitializer exampleFunctionKind
              (checkedPlusDetails integerType) plusEngine)
    as [[this e1]|message] eqn:Hnew; [|vm_compute in Hnew; discriminate].
  pose proof (identifiable_type_rebinds_its_rules_in_place exampleServices
                exampleFunctionKind (checkedPlusDetails integerType)
                plusEngine e1 this) as H.
  cbv zeta in H.
  destruct H
    as (e2 & groupBase & inferenceBase & Hswitched & _ & _ & _ & _ & _
        & Hvalidation).
  - intros entry [<-|[]]. vm_compute. lia.
  - intros rule Hin. destruct Hin.
  - intros entry Hin. vm_compute in Hin. destruct Hin.
  - exact Hnew.
  - vm_compute. reflexivity.
  - exists this, e1, e2.
    split; [reflexivity|]. split; [exact Hswitched | exact Hvalidation].
Defined.

Lemma operators_are_functions_of_their_operands_witness :
  exists operator w',
    createBinaryOperator (Single "-") (Single integerType) (Some booleanType)
      (Some binaryExpressionMatches) (Some binaryExpressionOperands) testWorld
    = Returned (Single operator, w')
    /\ getInputs operator = [integerType; integerType]
    /\ getOutput operator = Some booleanType.
Proof.
  destruct (operators_are_functions_of_their_operands "-" integerType
              (Some binaryExpressionMatches) (Some binaryExpressionOperands)
              testWorld) as (_ & Hbinary & _).
  destruct (Hbinary (Some booleanType))
    as (operator & w' & Hcreated & _ & Hsignature & _).
  exists operator, w'. split; [exact Hcreated|].
  apply Hsignature. vm_compute. reflexivity.
Defined.


(** * Statements on the behaviour of kinds and initializers *)

(** ** Subtype analysis between kinds *)

Lemma kind_isSubType_returns
  (this : FixedParametersKindTs.FixedParameterKind)
  (typir : FixedParametersKindTs.Typir)
  (superType subType : FixedParametersKindTs.TypeNode)
  (conflicts : list FixedParametersKindTs.TypeConflict) :
  FixedParametersKindTs.isSubType this typir superType subType
  = Returned conflicts
  <-> exists superKind subKind,
        FixedParametersKindTs.kindOf superType
        = FixedParametersKindTs.KFixedParameter superKind
        /\ FixedParametersKindTs.kindOf subType
           = FixedParametersKindTs.KFixedParameter subKind
        /\ FixedParametersKindTs.baseName superKind
           = FixedParametersKindTs.baseName subKind
        /\ length (FixedParametersKindTs.getOutgoingEdges superType
                     FixedParametersKindTs.FIXED_PARAMETER_TYPE)
           = length (FixedParametersKindTs.parameterNames superKind)
        /\ length (FixedParametersKindTs.getOutgoingEdges subType
                     FixedParametersKindTs.FIXED_PARAMETER_TYPE)
           = length (FixedParametersKindTs.parameterNames subKind)
        /\ conflicts
           = FixedParametersKindTs.compareTypes
               (FixedParametersKindTs.getOutgoingEdges superType
                  FixedParametersKindTs.FIXED_PARAMETER_TYPE)
               (FixedParametersKindTs.getOutgoingEdges subType
                  FixedParametersKindTs.FIXED_PARAMETER_TYPE)
               (FixedParametersKindTs.createTypeComparisonStrategy
                  (FixedParametersKindTs.subtypeParameterChecking
                     (FixedParametersKindTs.options this)) typir).
Proof.
  unfold FixedParametersKindTs.isSubType,
    FixedParametersKindTs.getParameterTypes.
  destruct (FixedParametersKindTs.kindOf superType) as [superKind|superName];
    destruct (FixedParametersKindTs.kindOf subType) as [subKind|subName];
    try (split; [discriminate | intros (k1 & k2 & H1 & H2 & _); discriminate]).
  rewrite !kind_isFixedParametersKind_fixed. cbn [andb].
  destruct (String.eqb_spec (FixedParametersKindTs.baseName superKind)
              (FixedParametersKindTs.baseName subKind)) as [Hbase|Hbase].
  - destruct (Nat.eqb_spec
                (length (FixedParametersKindTs.getOutgoingEdges superType
                           FixedParametersKindTs.FIXED_PARAMETER_TYPE))
                (length (FixedParametersKindTs.parameterNames superKind)))
      as [Hsuper|Hsuper];
      [destruct (Nat.eqb_spec
                   (length (FixedParametersKindTs.getOutgoingEdges subType
                              FixedParametersKindTs.FIXED_PARAMETER_TYPE))
                   (length (FixedParametersKindTs.parameterNames subKind)))
         as [Hsub|Hsub]|].
    + split.
      * intros H. injection H as <-. exists superKind, subKind.
        repeat split; assumption.
      * intros (k1 & k2 & H1 & H2 & _ & _ & _ & ->).
        reflexivity.
    + split; [discriminate|].
      intros (k1 & k2 & H1 & H2 & _ & _ & Hlen & _).
      injection H2 as <-. contradiction.
    + split; [discriminate|].
      intros (k1 & k2 & H1 & H2 & _ & Hlen & _).
      injection H1 as <-. contradiction.
  - split; [discriminate|].
    intros (k1 & k2 & H1 & H2 & Hsame & _).
    injection H1 as <-. injection H2 as <-. contradiction.
Qed.

(** C2: between a fixed-parameters type and a type that is not of a
    fixed-parameters kind, the analysis of the type itself
    ([analyzeIsSubTypeOf], [analyzeIsSuperTypeOf] of part_001) answers
    with exactly one [SubTypeProblem] that holds the [KindConflict] of
    the two types.  [FixedParameterKind.isSubType] of
    fixed-parameters-kind.ts answers with conflicts only for two types
    of fixed-parameters kinds with the same base name, each with as
    many ['hasField'] edges as its kind has parameter names, and the
    answer is then the comparison of the parameter types by the
    strategy of the kind; for every other pair, among them every pair
    with a type of another kind and every pair with different base
    names, it raises an error. *)
Theorem subtype_analysis_between_kinds :
  (forall (typir : Typir) (r : nat) (kind : FixedParameterKind)
      (identifier : string) (typeValues : list TypeNode) (other : TypeNode),
      isFixedParameterType other = false ->
      let this := FixedParameterType r kind identifier typeValues in
      FixedParameterType_analyzeIsSubTypeOf typir this other
      = [SubTypeProblem other this [KindConflict this other]]
      /\ FixedParameterType_analyzeIsSuperTypeOf typir this other
         = [SubTypeProblem this other [KindConflict other this]])
  /\ (forall (this : FixedParametersKindTs.FixedParameterKind)
        (typir : FixedParametersKindTs.Typir)
        (superType subType : FixedParametersKindTs.TypeNode)
        (conflicts : list FixedParametersKindTs.TypeConflict),
        FixedParametersKindTs.isSubType this typir superType subType
        = Returned conflicts
        <-> exists superKind subKind,
              FixedParametersKindTs.kindOf superType
              = FixedParametersKindTs.KFixedParameter superKind
              /\ FixedParametersKindTs.kindOf subType
                 = FixedParametersKindTs.KFixedParameter subKind
              /\ FixedParametersKindTs.baseName superKind
                 = FixedParametersKindTs.baseName subKind
              /\ length (FixedParametersKindTs.getOutgoingEdges superType
                           FixedParametersKindTs.FIXED_PARAMETER_TYPE)
                 = length (FixedParametersKindTs.parameterNames superKind)
              /\ length (FixedParametersKindTs.getOutgoingEdges subType
                           FixedParametersKindTs.FIXED_PARAMETER_TYPE)
                 = length (FixedParametersKindTs.parameterNames subKind)
              /\ conflicts
                 = FixedParametersKindTs.compareTypes
                     (FixedParametersKindTs.getOutgoingEdges superType
                        FixedParametersKindTs.FIXED_PARAMETER_TYPE)
                     (FixedParametersKindTs.getOutgoingEdges subType
                        FixedParametersKindTs.FIXED_PARAMETER_TYPE)
                     (FixedParametersKindTs.createTypeComparisonStrategy
                        (FixedParametersKindTs.subtypeParameterChecking
                           (FixedParametersKindTs.options this)) typir))
  /\ (forall (this : FixedParametersKindTs.FixedParameterKind)
        (typir : FixedParametersKindTs.Typir)
        (superType subType : FixedParametersKindTs.TypeNode),
        FixedParametersKindTs.isFixedParametersKind
          (FixedParametersKindTs.kindOf superType)
        && FixedParametersKindTs.isFixedParametersKind
             (FixedParametersKindTs.kindOf subType) = false ->
        exists message,
          FixedParametersKindTs.isSubType this typir superType subType
          = Thrown message)
  /\ (forall (this superKind subKind : FixedParametersKindTs.FixedParameterKind)
        (typir : FixedParametersKindTs.Typir)
        (superType subType : FixedParametersKindTs.TypeNode),
        FixedParametersKindTs.kindOf superType
        = FixedParametersKindTs.KFixedParameter superKind ->
        FixedParametersKindTs.kindOf subType
        = FixedParametersKindTs.KFixedParameter subKind ->
        FixedParametersKindTs.baseName superKind
        <> FixedParametersKindTs.baseName subKind ->
        exists message,
          FixedParametersKindTs.isSubType this typir superType subType
          = Thrown message).
Proof.
  split; [|split; [|split]].
  - intros typir r kind identifier typeValues other Hother this.
    split.
    + now apply analyzeIsSubTypeOf_other_kind.
    + now apply analyzeIsSuperTypeOf_other_kind.
  - apply kind_isSubType_returns.
  - intros this typir superType subType Hkinds.
    exists "". now apply kind_isSubType_raises.
  - intros this superKind subKind typir superType subType Hsuper Hsub Hbase.
    destruct (FixedParametersKindTs.isSubType this typir superType subType)
      as [conflicts|message] eqn:Hresult; [|eauto].
    apply kind_isSubType_returns in Hresult.
    destruct Hresult as (k1 & k2 & H1 & H2 & Hsame & _).
    rewrite Hsuper in H1. rewrite Hsub in H2.
    injection H1 as <-. injection H2 as <-. contradiction.
Qed.

(** C2, counterexample of the claim as it was stated: asked whether the
    integer primitive is a subtype of a list of integers,
    [FixedParameterKind.isSubType] of fixed-parameters-kind.ts raises
    an error and returns no problem value. *)
Lemma kind_isSubType_raises_for_a_primitive :
  FixedParametersKindTs.isSubType FixedParametersKindTs.listKindTs
    FixedParametersKindTs.plainTypir
    FixedParametersKindTs.listOfIntegerNode
    FixedParametersKindTs.integerNode
  = Thrown ""
  /\ ~ (exists conflicts,
           FixedParametersKindTs.isSubType FixedParametersKindTs.listKindTs
             FixedParametersKindTs.plainTypir
             FixedParametersKindTs.listOfIntegerNode
             FixedParametersKindTs.integerNode
           = Returned conflicts).
Proof.
  split; [reflexivity|]. intros [conflicts H]. discriminate.
Qed.

(** The statement on the analysis of the types, at a list of integers
    and the integer primitive. *)
Lemma subtype_analysis_between_kinds_witness :
  FixedParameterType_analyzeIsSubTypeOf (defaultTypir conversionChainGraph)
    (listOf SUB_TYPE 10 integerType) integerType
  = [SubTypeProblem integerType (listOf SUB_TYPE 10 integerType)
       [KindConflict (listOf SUB_TYPE 10 integerType) integerType]]
  /\ FixedParameterType_analyzeIsSuperTypeOf
       (defaultTypir conversionChainGraph)
       (listOf SUB_TYPE 10 integerType) integerType
     = [SubTypeProblem (listOf SUB_TYPE 10 integerType) integerType
          [KindConflict integerType (listOf SUB_TYPE 10 integerType)]].
Proof.
  destruct subtype_analysis_between_kinds as [H _].
  apply (H (defaultTypir conversionChainGraph) 10 (listKind SUB_TYPE) _
           [integerType] integerType).
  reflexivity.
Defined.

(** ** The bottom type is created once *)

(** C9: once the kind holds a bottom-type instance [b], every further
    [createBottomType] returns [b] and leaves the kind and the engine
    (graph and inference registry) as they are, whatever rules the type
    details carry.  [getOrCreateBottomType] changes neither the kind
    nor the engine either, but it returns what the graph holds under
    the name of the kind: the instance when the name belongs to it or
    to no type, and otherwise the other type of that name. *)
Theorem createBottomType_is_idempotent {DomainElement : Type}
  (this : BottomKind) (typir : TypirState DomainElement) (b : TypeNode) :
  instance this = Some b ->
  (forall typeDetails : BottomTypeDetails DomainElement,
      createBottomType this typir typeDetails = (b, this, typir))
  /\ (forall typeDetails : BottomTypeDetails DomainElement,
        getOrCreateBottomType this typir typeDetails
        = (match getType (typir_graph typir)
                   (bottom_name (bottomKind_options this)) with
           | Some registered => registered
           | None => b
           end, this, typir)).
Proof.
  intros Hinstance.
  assert (Hcreate : forall typeDetails : BottomTypeDetails DomainElement,
             createBottomType this typir typeDetails = (b, this, typir)).
  { intros typeDetails. unfold createBottomType. now rewrite Hinstance. }
  split; [exact Hcreate|].
  intros typeDetails. unfold getOrCreateBottomType, getBottomType.
  unfold BottomKind_calculateIdentifier.
  destruct (getType (typir_graph typir)
              (bottom_name (bottomKind_options this))) as [t|];
    [reflexivity | apply Hcreate].
Qed.

(** C9, counterexample of the claim as it was stated: a primitive type
    holds the name ['never'] when the kind creates its bottom type;
    afterwards the kind has its instance, and [getOrCreateBottomType]
    returns the primitive type, which is another object. *)
Lemma getOrCreateBottomType_returns_another_type :
  let '(b, kind, typir) := createdBesideNeverPrimitive in
  instance kind = Some b
  /\ b = BottomType 2 "never"
  /\ getOrCreateBottomType kind typir (mkBottomTypeDetails None)
     = (neverPrimitive, kind, typir)
  /\ sameObject neverPrimitive b = false.
Proof. vm_compute. repeat split. Qed.

Lemma createBottomType_is_idempotent_witness :
  let '(b, kind, typir) := createdBottom in
  createBottomType kind typir
    (mkBottomTypeDetails (Some (Single isIntegerLiteral)))
  = (b, kind, typir)
  /\ getOrCreateBottomType kind typir
       (mkBottomTypeDetails (Some (Single isIntegerLiteral)))
     = (b, kind, typir).
Proof.
  destruct createdBottom as [[b kind] typir] eqn:Hcreated.
  vm_compute in Hcreated. inversion Hcreated; subst. clear Hcreated.
  match goal with
  | |- createBottomType ?k ?t _ = (?b, _, _) /\ _ =>
      destruct (createBottomType_is_idempotent k t b eq_refl) as [H1 H2]
  end.
  split; [apply H1|]. rewrite H2. reflexivity.
Defined.

(** ** Equality and identifiers of fixed-parameters types *)

Lemma printed_as_identifiers (typir : Typir) (ts : list TypeNode) :
  Forall (fun t => printer_printType typir t = getIdentifier t) ts ->
  map (printer_printType typir) ts = map getIdentifier ts.
Proof.
  induction 1 as [|t ts Ht _ IH]; simpl; [reflexivity|].
  now rewrite Ht, IH.
Qed.

(** C6: two fixed-parameters types are found equal (no problem)
    exactly when their base names are the same and their parameter
    types are pair-wise equal; otherwise problem values are produced.
    The identifier the kind computes is the base name followed by what
    the printer prints for the parameter types, comma-separated in
    angle brackets: it is built from the identifiers of the parameter
    types where the printer prints a type as its identifier, and it is
    the same for two type details of kinds with the same base name
    whose parameter types are printed alike. *)
Theorem fixed_parameter_equality_and_identifier :
  (forall (typir : Typir) (r1 r2 : nat) (kind1 kind2 : FixedParameterKind)
      (identifier1 identifier2 : string) (values1 values2 : list TypeNode),
      FixedParameterType_analyzeTypeEqualityProblems typir
        (FixedParameterType r1 kind1 identifier1 values1)
        (FixedParameterType r2 kind2 identifier2 values2) = []
      <-> baseName kind1 = baseName kind2
          /\ Forall2 (fun t1 t2 =>
                        equality_getTypeEqualityProblem typir t1 t2 = None)
               values1 values2)
  /\ (forall (typir : Typir) (kind : FixedParameterKind)
        (typeDetails : FixedParameterTypeDetails),
        calculateIdentifier typir kind typeDetails
        = baseName kind +:+ "<"
          +:+ join ", "
                (map (printer_printType typir)
                   (toArray (Some (parameterTypes typeDetails))))
          +:+ ">")
  /\ (forall (typir : Typir) (kind : FixedParameterKind)
        (typeDetails : FixedParameterTypeDetails),
        Forall (fun t => printer_printType typir t = getIdentifier t)
          (toArray (Some (parameterTypes typeDetails))) ->
        calculateIdentifier typir kind typeDetails
        = baseName kind +:+ "<"
          +:+ join ", "
                (map getIdentifier
                   (toArray (Some (parameterTypes typeDetails))))
          +:+ ">")
  /\ (forall (typir : Typir) (kind1 kind2 : FixedParameterKind)
        (typeDetails1 typeDetails2 : FixedParameterTypeDetails),
        baseName kind1 = baseName kind2 ->
        map (printer_printType typir)
          (toArray (Some (parameterTypes typeDetails1)))
        = map (printer_printType typir)
            (toArray (Some (parameterTypes typeDetails2))) ->
        calculateIdentifier typir kind1 typeDetails1
        = calculateIdentifier typir kind2 typeDetails2).
Proof.
  split; [|split; [|split]].
  - intros typir r1 r2 kind1 kind2 identifier1 identifier2 values1 values2.
    cbn [FixedParameterType_analyzeTypeEqualityProblems].
    unfold checkValueForConflict.
    destruct (String.eqb_spec (baseName kind1) (baseName kind2)) as [Hb|Hb];
      simpl.
    + unfold checkTypes. rewrite checkTypes_nil. tauto.
    + split; [discriminate | tauto].
  - reflexivity.
  - intros typir kind typeDetails Hprint.
    unfold calculateIdentifier, printSignature.
    now rewrite (printed_as_identifiers _ _ Hprint).
  - intros typir kind1 kind2 typeDetails1 typeDetails2 Hbase Hprinted.
    unfold calculateIdentifier, printSignature.
    now rewrite Hbase, Hprinted.
Qed.

(** C6, counterexample of the claim as it was stated: with a printer
    that shows a type by its identifier in quotes, the identifier of a
    list of integers is built from the printed form of the integer
    type and not from its identifier; and the creation of that list
    ends in the constructor of the type, so that no instantiation
    leaves a node in the graph. *)
Lemma identifier_is_built_from_the_printed_types :
  calculateIdentifier quotingTypir (listKind EQUAL_TYPE)
    (mkFixedParameterTypeDetails (Single integerType))
  = "List<'integer'>"
  /\ baseName (listKind EQUAL_TYPE) +:+ "<"
     +:+ join ", " (map getIdentifier [integerType]) +:+ ">"
     = "List<integer>"
  /\ createFixedParameterType quotingTypir (listKind EQUAL_TYPE)
       (mkFixedParameterTypeDetails (Single integerType)) 10
       conversionChainGraph
     = Thrown "TypeError".
Proof. repeat split. Qed.

Lemma fixed_parameter_equality_and_identifier_witness :
  calculateIdentifier (defaultTypir conversionChainGraph)
    (listKind EQUAL_TYPE)
    (mkFixedParameterTypeDetails
       (Single (listOf EQUAL_TYPE 10 integerType)))
  = "List<List<integer>>"
  /\ FixedParameterType_analyzeTypeEqualityProblems
       (defaultTypir conversionChainGraph)
       (listOf EQUAL_TYPE 10 integerType) (listOf EQUAL_TYPE 11 integerType)
     = [].
Proof.
  destruct fixed_parameter_equality_and_identifier as (Hequal & _ & Hid & _).
  split.
  - rewrite Hid; [reflexivity|].
    constructor; [reflexivity | constructor].
  - apply Hequal. split; [reflexivity|].
    constructor; [reflexivity | constructor].
Defined.

(** ** The initializer publishes the canonical function type *)

(** C7: an initializer is constructed for a new function type; it
    holds a rule object for exactly the rules its type details give,
    and these rules are created for the initial node and registered
    unbound.  When the type becomes identifiable and another node of the
    graph has its identifier, that node is the produced type and the
    initial node is not added to the graph and no longer listened to;
    the rules created for the initial node are no longer registered, and
    fresh rules (again one for each rule of the details, all of them
    other objects than the rules of the initial node), created for the
    existing node, are registered bound to it.  When no node has the
    identifier, the initial node is added to the graph and produced, and
    its own rules are registered again, now bound to it. *)
Theorem initializer_publishes_the_canonical_type {LanguageNode : Type}
  (services : TypirServices) (kind : FunctionKind LanguageNode)
  (details : CreateFunctionTypeDetails LanguageNode)
  (e0 e1 : Engine LanguageNode)
  (this : FunctionTypeInitializer LanguageNode) :
  newFunctionTypeInitializer kind details e0 = Returned (this, e1) ->
  let initial := initialFunctionType this in
  let functionName := td_functionName details in
  (rulesMirrorDetails (inferenceRules this) details
   /\ rulesCreatedFor (inferenceRules this) initial
   /\ inferenceRegistered e1 functionName (inferenceRules this) None)
  /\ (forall existing,
        getType (engine_graph e1) (getIdentifier initial) = Some existing ->
        sameObject existing initial = false ->
        exists this' e2,
          onSwitchedToIdentifiable services kind this initial e1
          = Returned (existing, this', e2)
          /\ engine_graph e2 = engine_graph e1
          /\ rulesMirrorDetails (inferenceRules this') details
          /\ otherRuleObjects (inferenceRules this) (inferenceRules this')
          /\ rulesCreatedFor (inferenceRules this') existing
          /\ inferenceRegistered e2 functionName (inferenceRules this')
               (Some existing)
          /\ inferenceNotRegistered e2 functionName (inferenceRules this)
               None
          /\ validationNotRegistered e2 (inferenceRules this)
          /\ ~ In (ref initial, initializer_ref this)
                 (engine_typeListeners e2))
  /\ (getType (engine_graph e1) (getIdentifier initial) = None ->
      exists e2,
        onSwitchedToIdentifiable services kind this initial e1
        = Returned (initial, this, e2)
        /\ getType (engine_graph e2) (getIdentifier initial) = Some initial
        /\ inferenceRegistered e2 functionName (inferenceRules this)
             (Some initial)
        /\ inferenceNotRegistered e2 functionName (inferenceRules this)
             None).
Proof.
  intros Hnew initial functionName.
  destruct (newFunctionTypeInitializer_spec kind details e0 e1 this Hnew)
    as (r1 & base & Hthis & Hgbase & Hnbase & Hgroupbase
        & Hg1 & Hm1 & Hi1 & Hv1 & Hn1).
  cbn zeta in *.
  set (initial0 := newFunctionType kind details r1) in *.
  set (created0 := createInferenceRules details initial0 (S r1)) in *.
  set (old := fst created0) in *.
  assert (Hinitial : initial = initial0) by (subst initial; now rewrite Hthis).
  assert (Hold : inferenceRules this = old) by now rewrite Hthis.
  assert (Hdetails : typeDetails this = details) by now rewrite Hthis.
  destruct (createInferenceRules_spec details initial0 (S r1))
    as [_ Hcreated0]. fold created0 old in Hcreated0.
  destruct (registerInferenceRules_components old functionName None base)
    as (_ & Hnreg & _ & Hireg & Hvreg & _).
  assert (Hgroup1 : is_Some (engine_mapNameTypes e1 !! functionName)).
  { rewrite Hm1. now apply group_kept_by_register. }
  assert (Hrules1 : groupRules e1 functionName
                    = groupRules base functionName ++ callEntries old None).
  { rewrite (groupRules_same _ e1 functionName Hm1).
    now apply groupRules_registered. }
  assert (Hnext1 : engine_nextRef e1 = snd created0).
  { rewrite Hn1. fold functionName. rewrite Hnreg. exact Hnbase. }
  assert (HisFunction : isFunctionType initial = true)
    by (rewrite Hinitial; reflexivity).
  rewrite Hold. split; [|split].
  - (* after the constructor *)
    split; [exact (createInferenceRules_mirrors details initial0 (S r1))|].
    split.
    + intros rule Hrule. rewrite Hinitial. now apply Hcreated0.
    + repeat split.
      * intros rule Hrule. rewrite Hrules1. apply in_or_app. right.
        unfold callEntries. rewrite Hrule. now left.
      * intros rule Hrule. rewrite Hi1. fold functionName. rewrite Hireg.
        apply in_or_app. right.
        unfold declarationEntries. rewrite Hrule. now left.
      * intros rule Hrule. rewrite Hv1. fold functionName. rewrite Hvreg.
        apply in_or_app. right.
        unfold validationEntries. rewrite Hrule. now left.
  - (* another node has the identifier *)
    intros existing Hlookup Hother.
    destruct (onSwitchedToIdentifiable_duplicate services kind this initial
                existing e1) as (e2 & Hrun & Hg2 & Hr2 & Hi2 & Hv2 & Hl2);
      auto.
    { now rewrite Hdetails. }
    rewrite Hdetails, Hold in *. fold functionName in Hr2.
    destruct (createInferenceRules_spec details existing (engine_nextRef e1))
      as [_ Hcreated].
    set (created := createInferenceRules details existing (engine_nextRef e1))
      in *.
    eexists. exists e2. split; [exact Hrun|].
    cbn [inferenceRules].
    split; [exact Hg2|].
    split; [exact (createInferenceRules_mirrors details existing
                     (engine_nextRef e1))|].
    split.
    { intros oldRule freshRule HoldRule HfreshRule.
      destruct (Hcreated0 oldRule HoldRule) as [_ Hrange0].
      destruct (Hcreated freshRule HfreshRule) as [_ Hrange].
      lia. }
    split; [|split; [|split; [|split]]].
    + intros rule Hrule. now apply Hcreated.
    + repeat split.
      * intros rule Hrule. rewrite Hr2. apply in_or_app. right.
        unfold callEntries. rewrite Hrule. now left.
      * intros rule Hrule. rewrite Hi2. apply in_or_app. right.
        unfold declarationEntries. rewrite Hrule. now left.
      * intros rule Hrule. rewrite Hv2. apply in_or_app. right.
        unfold validationEntries. rewrite Hrule. now left.
    + split.
      * intros rule entry Hrule Hentry Href. rewrite Hr2, Hrule in Hentry.
        apply in_app_or in Hentry. destruct Hentry as [Hentry|Hentry].
        -- eapply removeBoundRule_gone; eauto.
        -- unfold callEntries in Hentry.
           destruct (inferenceForCall (fst created)); [|destruct Hentry].
           destruct Hentry as [<-|[]]. reflexivity.
      * intros rule entry Hrule Hentry Href. rewrite Hi2, Hrule in Hentry.
        apply in_app_or in Hentry. destruct Hentry as [Hentry|Hentry].
        -- eapply removeBoundRule_gone; eauto.
        -- unfold declarationEntries in Hentry.
           destruct (inferenceForDeclaration (fst created));
             [|destruct Hentry].
           destruct Hentry as [<-|[]]. reflexivity.
    + intros rule registered Hrule Hregistered.
      rewrite Hv2, Hrule in Hregistered.
      apply in_app_or in Hregistered.
      destruct Hregistered as [Hregistered|Hregistered].
      * eapply removeValidationRule_gone; eauto.
      * unfold validationEntries in Hregistered.
        destruct (validationForCall (fst created)) as [fresh|] eqn:Hfresh;
          [|destruct Hregistered].
        destruct Hregistered as [<-|[]].
        destruct (Hcreated fresh) as [_ Hrange]; [auto|].
        destruct (Hcreated0 rule) as [_ Hrange0]; [auto|].
        lia.
    + rewrite Hl2. unfold removeTypeListener. cbn [engine_typeListeners].
      intros Hin. apply filter_In in Hin. destruct Hin as [_ Hkeep].
      cbn [fst snd] in Hkeep. rewrite !Nat.eqb_refl in Hkeep. discriminate.
  - (* no node has the identifier *)
    intros Hlookup.
    destruct (onSwitchedToIdentifiable_fresh services kind this initial e1)
      as (e2 & Hrun & Hg2 & Hr2 & Hi2 & Hv2); auto.
    { now rewrite Hdetails. }
    rewrite Hdetails, Hold in *. fold functionName in Hr2.
    exists e2. split; [exact Hrun|]. split; [|split].
    + rewrite Hg2.
      now destruct (addNode_fresh (engine_graph e1) initial Hlookup)
        as (_ & G & _).
    + repeat split.
      * intros rule Hrule. rewrite Hr2. apply in_or_app. right.
        unfold callEntries. rewrite Hrule. now left.
      * intros rule Hrule. rewrite Hi2. apply in_or_app. right.
        unfold declarationEntries. rewrite Hrule. now left.
      * intros rule Hrule. rewrite Hv2. apply in_or_app. right.
        unfold validationEntries. rewrite Hrule. now left.
    + split.
      * intros rule entry Hrule Hentry Href. rewrite Hr2, Hrule in Hentry.
        apply in_app_or in Hentry. destruct Hentry as [Hentry|Hentry].
        -- eapply removeBoundRule_gone; eauto.
        -- unfold callEntries in Hentry. rewrite Hrule in Hentry.
           destruct Hentry as [<-|[]]. reflexivity.
      * intros rule entry Hrule Hentry Href. rewrite Hi2, Hrule in Hentry.
        apply in_app_or in Hentry. destruct Hentry as [Hentry|Hentry].
        -- eapply removeBoundRule_gone; eauto.
        -- unfold declarationEntries in Hentry. rewrite Hrule in Hentry.
           destruct Hentry as [<-|[]]. reflexivity.
Qed.

Lemma initializer_publishes_the_canonical_type_witness :
  (exists this e1 rule e2,
      newFunctionTypeInitializer exampleFunctionKind (plusDetails integerType)
        emptyEngine
      = Returned (this, e1)
      /\ inferenceForCall (inferenceRules this) = Some rule
      /\ In (mkBoundRule rule None) (groupRules e1 "plus")
      /\ onSwitchedToIdentifiable exampleServices exampleFunctionKind this
           (initialFunctionType this) e1
         = Returned (initialFunctionType this, this, e2)
      /\ In (mkBoundRule rule (Some (initialFunctionType this)))
           (groupRules e2 "plus"))
  /\ (exists this e1 this' e2 oldRule freshRule,
        newFunctionTypeInitializer exampleFunctionKind
          (plusDetails integerType) engineWithPlus
        = Returned (this, e1)
        /\ onSwitchedToIdentifiable exampleServices exampleFunctionKind this
             (initialFunctionType this) e1
           = Returned (existingPlus, this', e2)
        /\ engine_graph e2 = engine_graph e1
        /\ inferenceForCall (inferenceRules this) = Some oldRule
        /\ inferenceForCall (inferenceRules this') = Some freshRule
        /\ ruleRef oldRule <> ruleRef freshRule
        /\ ruleFunctionType freshRule = Some existingPlus
        /\ In (mkBoundRule freshRule (Some existingPlus))
             (groupRules e2 "plus")).
Proof.
  split.
  - destruct (newFunctionTypeInitializer exampleFunctionKind
                (plusDetails integerType) emptyEngine)
      as [[this e1]|message] eqn:Hnew; [|vm_compute in Hnew; discriminate].
    destruct (initializer_publishes_the_canonical_type exampleServices
                exampleFunctionKind (plusDetails integerType) emptyEngine e1
                this Hnew)
      as (((Hcall & _) & _ & Hregistered0 & _) & _ & Hfresh).
    destruct (inferenceForCall (inferenceRules this)) as [rule|] eqn:Hrule;
      [|discriminate Hcall].
    destruct Hfresh as (e2 & Hrun & _ & (Hregistered & _) & _).
    { vm_compute in Hnew. injection Hnew as Hthis He1. subst this e1.
      reflexivity. }
    exists this, e1, rule, e2.
    split; [reflexivity|]. split; [exact Hrule|].
    split; [now apply Hregistered0|].
    split; [exact Hrun | now apply Hregistered].
  - destruct (newFunctionTypeInitializer exampleFunctionKind
                (plusDetails integerType) engineWithPlus)
      as [[this e1]|message] eqn:Hnew; [|vm_compute in Hnew; discriminate].
    destruct (initializer_publishes_the_canonical_type exampleServices
                exampleFunctionKind (plusDetails integerType) engineWithPlus
                e1 this Hnew)
      as (((Hcall & _) & _) & Hduplicate & _).
    destruct (Hduplicate existingPlus)
      as (this' & e2 & Hrun & Hgraph & (Hcall' & _) & Hother & Hcreated
          & (Hregistered & _) & _).
    { vm_compute in Hnew. injection Hnew as Hthis He1. subst this e1.
      reflexivity. }
    { vm_compute in Hnew. injection Hnew as Hthis He1. subst this e1.
      reflexivity. }
    destruct (inferenceForCall (inferenceRules this)) as [oldRule|] eqn:Hold;
      [|discriminate Hcall].
    destruct (inferenceForCall (inferenceRules this')) as [freshRule|]
      eqn:Hfresh; [|discriminate Hcall'].
    exists this, e1, this', e2, oldRule, freshRule.
    split; [reflexivity|]. split; [exact Hrun|]. split; [exact Hgraph|].
    split; [exact Hold|]. split; [exact Hfresh|].
    split; [apply Hother; now left|].
    split; [apply Hcreated; now left | now apply Hregistered].
Defined.

(** ** The output type shared by the overloads of a function *)

Section RegisteredFunctions.

Context {LanguageNode : Type}.
Variable services : TypirServices.
Variable kind : FunctionKind LanguageNode.
Implicit Types
  (registrations : list (CreateFunctionTypeDetails LanguageNode * TypeNode)).
Implicit Types (group : OverloadedFunctionDetails LanguageNode).

Lemma rememberFunctions_snoc registrations
  (registration : CreateFunctionTypeDetails LanguageNode * TypeNode) group :
  rememberFunctions services kind (registrations ++ [registration]) group
  = rememberFunction services kind (fst registration) (snd registration)
      (rememberFunctions services kind registrations group).
Proof. unfold rememberFunctions. now rewrite fold_left_app. Qed.

Lemma rememberFunctions_functions registrations group :
  overloadedFunctions (rememberFunctions services kind registrations group)
  = overloadedFunctions group
    ++ map (fun registration =>
              mkOverloadedFunction (snd registration)
                (td_inferenceRuleForCalls (fst registration)))
         registrations.
Proof.
  induction registrations as [|registration registrations IH] using rev_ind.
  - cbn. now rewrite app_nil_r.
  - rewrite rememberFunctions_snoc. cbn [rememberFunction overloadedFunctions].
    rewrite IH, map_app, <- app_assoc. reflexivity.
Qed.

Lemma rememberFunctions_outputs registrations (r : nat) :
  groupOutputTypes kind
    (rememberFunctions services kind registrations
       (mkOverloadedFunctionDetails [] (mkCompositeRule r []) None))
  = map (fun registration =>
           kind_getOutputTypeForFunctionCalls kind (snd registration))
      registrations.
Proof.
  unfold groupOutputTypes. rewrite rememberFunctions_functions.
  cbn [overloadedFunctions app]. rewrite map_map. reflexivity.
Qed.

Lemma rememberFunctions_invariant registrations group :
  equalityIsEquivalence services ->
  sameOutputTypeInvariant services kind group ->
  sameOutputTypeInvariant services kind
    (rememberFunctions services kind registrations group).
Proof.
  intros (Hrefl & Hsym & Htrans) Hgroup.
  induction registrations as [|registration registrations IH] using rev_ind.
  - exact Hgroup.
  - rewrite rememberFunctions_snoc. now apply rememberFunction_invariant.
Qed.

End RegisteredFunctions.

(** C10: one registration appends the function to the functions of
    its overload group; [sameOutputType] becomes the output type of the
    first registered function, is kept while the output type of a
    further function is equal to it, and is set to undefined as soon as
    a further function has no output type or one that differs from the
    recorded one, and then stays undefined.  Hence, equality of types
    being reflexive, symmetric and transitive, after the registration
    of any functions in a new group [sameOutputType] is defined exactly
    when at least one function is registered and all of them have
    pair-wise equal output types, and is then the output type of the
    first one; this invariant is kept for all groups of the engine by
    the constructor of an initializer and by
    [onSwitchedToIdentifiable], which does this registration on the
    group of the function name. *)
Theorem sameOutputType_tracks_equal_outputs {LanguageNode : Type}
  (services : TypirServices) (kind : FunctionKind LanguageNode) :
  (forall (details : CreateFunctionTypeDetails LanguageNode)
      (ready : TypeNode) (group : OverloadedFunctionDetails LanguageNode),
      let output := kind_getOutputTypeForFunctionCalls kind ready in
      let group' := rememberFunction services kind details ready group in
      overloadedFunctions group'
      = overloadedFunctions group
        ++ [mkOverloadedFunction ready (td_inferenceRuleForCalls details)]
      /\ (overloadedFunctions group = [] -> sameOutputType group' = output)
      /\ (overloadedFunctions group <> [] ->
          (forall same x,
              sameOutputType group = Some same -> output = Some x ->
              Equality_areTypesEqual services same x = true ->
              sameOutputType group' = Some same)
          /\ (forall same x,
                sameOutputType group = Some same -> output = Some x ->
                Equality_areTypesEqual services same x = false ->
                sameOutputType group' = None)
          /\ (output = None -> sameOutputType group' = None)
          /\ (sameOutputType group = None -> sameOutputType group' = None)))
  /\ (equalityIsEquivalence services ->
      (forall (r : nat)
          (registrations
           : list (CreateFunctionTypeDetails LanguageNode * TypeNode)),
          let group :=
            rememberFunctions services kind registrations
              (mkOverloadedFunctionDetails [] (mkCompositeRule r []) None) in
          let outputs :=
            map (fun registration =>
                   kind_getOutputTypeForFunctionCalls kind (snd registration))
              registrations in
          overloadedFunctions group
          = map (fun registration =>
                   mkOverloadedFunction (snd registration)
                     (td_inferenceRuleForCalls (fst registration)))
              registrations
          /\ forall t,
               sameOutputType group = Some t
               <-> (exists rest, outputs = Some t :: rest)
                   /\ pairwiseEqualOutputs services outputs)
      /\ (forall (details : CreateFunctionTypeDetails LanguageNode)
            (e e' : Engine LanguageNode)
            (this : FunctionTypeInitializer LanguageNode),
            engineInvariant services kind e ->
            newFunctionTypeInitializer kind details e = Returned (this, e') ->
            engineInvariant services kind e')
      /\ (forall (this this' : FunctionTypeInitializer LanguageNode)
            (functionType ready : TypeNode) (e e' : Engine LanguageNode),
            engineInvariant services kind e ->
            onSwitchedToIdentifiable services kind this functionType e
            = Returned (ready, this', e') ->
            engineInvariant services kind e'))
  /\ (forall (this this' : FunctionTypeInitializer LanguageNode)
        (functionType ready : TypeNode) (e e' : Engine LanguageNode),
        onSwitchedToIdentifiable services kind this functionType e
        = Returned (ready, this', e') ->
        exists group group',
          engine_mapNameTypes e !! td_functionName (typeDetails this)
          = Some group
          /\ engine_mapNameTypes e' !! td_functionName (typeDetails this)
             = Some group'
          /\ overloadedFunctions group'
             = overloadedFunctions
                 (rememberFunction services kind (typeDetails this) ready
                    group)
          /\ sameOutputType group'
             = sameOutputType
                 (rememberFunction services kind (typeDetails this) ready
                    group)).
Proof.
  split; [|split].
  - intros details ready group output group'.
    subst group'. unfold rememberFunction.
    cbn [overloadedFunctions sameOutputType]. fold output.
    split; [reflexivity|].
    destruct (overloadedFunctions group) as [|first rest].
    + split; [reflexivity | congruence].
    + cbn [length Nat.leb]. split; [discriminate|]. intros _.
      split; [|split; [|split]].
      * intros same x -> -> ->. reflexivity.
      * intros same x -> -> ->. reflexivity.
      * intros ->. now destruct (sameOutputType group).
      * intros ->. reflexivity.
  - intros Hequivalence. split; [|split].
    + intros r registrations group outputs. split.
      * subst group. now rewrite rememberFunctions_functions.
      * intros t.
        pose proof (rememberFunctions_invariant services kind registrations
                      (mkOverloadedFunctionDetails []
                         (mkCompositeRule r []) None)
                      Hequivalence (fresh_group_invariant services kind r) t)
          as Hinvariant.
        rewrite rememberFunctions_outputs in Hinvariant.
        exact Hinvariant.
    + destruct Hequivalence as (Hrefl & Hsym & Htrans).
      intros details e e' this.
      apply newFunctionTypeInitializer_invariant.
    + destruct Hequivalence as (Hrefl & Hsym & Htrans).
      intros this this' functionType ready e e'.
      now apply onSwitchedToIdentifiable_invariant.
  - intros this this' functionType ready e e' Hreturned.
    set (functionName := td_functionName (typeDetails this)) in *.
    destruct (isFunctionType functionType) eqn:Hfunction;
      [|unfold onSwitchedToIdentifiable in Hreturned;
        rewrite Hfunction in Hreturned; discriminate].
    destruct (onSwitchedToIdentifiable_steps services kind this functionType
                e Hfunction)
      as (ready0 & this0 & e2 & Heq & Hcore & _).
    fold functionName in Heq.
    pose proof (Hcore functionName) as Hcore_fn.
    rewrite Heq in Hreturned.
    destruct (engine_mapNameTypes e2 !! functionName) as [group2|] eqn:H2;
      [|discriminate].
    destruct (engine_mapNameTypes e !! functionName) as [group|] eqn:H0;
      [|discriminate].
    injection Hreturned as <- <- <-.
    exists group, (rememberFunction services kind (typeDetails this) ready0
                     group2).
    split; [reflexivity|]. split.
    { cbn [updateGroup engine_mapNameTypes].
      rewrite lookup_alter_eq, H2. reflexivity. }
    cbn in Hcore_fn. injection Hcore_fn as Hfunctions _ Hsame.
    unfold rememberFunction. cbn [overloadedFunctions sameOutputType].
    now rewrite Hfunctions, Hsame.
Qed.

Lemma sameOutputType_tracks_equal_outputs_witness :
  let integerPlus :=
    newFunctionType exampleFunctionKind (plusDetails integerType) 7 in
  let doublePlus :=
    newFunctionType exampleFunctionKind (plusDetails doubleType) 8 in
  let new := mkOverloadedFunctionDetails [] (mkCompositeRule 6 []) None in
  let one :=
    rememberFunction exampleServices exampleFunctionKind
      (plusDetails integerType) integerPlus new in
  let two :=
    rememberFunction exampleServices exampleFunctionKind
      (plusDetails doubleType) doublePlus one in
  let three :=
    rememberFunction exampleServices exampleFunctionKind
      (plusDetails integerType) integerPlus two in
  sameOutputType one = Some integerType
  /\ sameOutputType
       (rememberFunction exampleServices exampleFunctionKind
          (plusDetails integerType) integerPlus one)
     = Some integerType
  /\ sameOutputType two = None
  /\ sameOutputType three = None
  /\ map overloaded_functionType (overloadedFunctions three)
     = [integerPlus; doublePlus; integerPlus]
  /\ sameOutputType
       (rememberFunctions exampleServices exampleFunctionKind
          [(plusDetails integerType, integerPlus);
           (plusDetails integerType, integerPlus)] new)
     = Some integerType.
Proof.
  intros integerPlus doublePlus new one two three.
  destruct (sameOutputType_tracks_equal_outputs exampleServices
              exampleFunctionKind) as (Hstep & Hsequence & _).
  destruct (Hstep (plusDetails integerType) integerPlus new)
    as (Hfunctions1 & Hfirst & _).
  assert (Hone : sameOutputType one = Some integerType)
    by (unfold one; rewrite Hfirst; reflexivity).
  destruct (Hstep (plusDetails integerType) integerPlus one)
    as (_ & _ & Hagain).
  destruct Hagain as (Hequal & _);
    [unfold one; rewrite Hfunctions1; discriminate|].
  destruct (Hstep (plusDetails doubleType) doublePlus one)
    as (Hfunctions2 & _ & Hsecond).
  destruct Hsecond as (_ & Hdiffers & _);
    [unfold one; rewrite Hfunctions1; discriminate|].
  assert (Htwo : sameOutputType two = None)
    by (apply (Hdiffers integerType doubleType); [exact Hone | reflexivity..]).
  destruct (Hstep (plusDetails integerType) integerPlus two)
    as (Hfunctions3 & _ & Hthird).
  destruct Hthird as (_ & _ & _ & Hstays);
    [unfold two; rewrite Hfunctions2; now destruct (overloadedFunctions one)|].
  split; [exact Hone|].
  split; [apply (Hequal integerType integerType);
          [exact Hone | reflexivity..]|].
  split; [exact Htwo|].
  split; [apply Hstays; exact Htwo|].
  split.
  { unfold three. rewrite Hfunctions3. unfold two. rewrite Hfunctions2.
    unfold one. rewrite Hfunctions1. reflexivity. }
  destruct (Hsequence exampleServices_equivalence) as (Hregistered & _).
  destruct (Hregistered 6
              [(plusDetails integerType, integerPlus);
               (plusDetails integerType, integerPlus)])
    as (_ & Hdefined).
  apply Hdefined. split; [eexists; reflexivity|].
  intros [|[|i]] [|[|j]] o1 o2 H1 H2; cbn in H1, H2; try discriminate;
    injection H1 as <-; injection H2 as <-;
    exists integerType, integerType; repeat split.
Defined.
